(** * node-linker-pro: the link-establishment pipeline of [node-linker-pro.mjs]

    The script moves [./node_modules] into a per-project cache directory,
    links the project slot back to it and runs [npm install] when the cache
    is empty.  This development embeds the script over an explicit interface
    to the operating system (the calls of [fs/promises] and [child_process]
    that the script makes), gives an in-memory file system as the reference
    implementation of that interface, and proves the properties of the
    pipeline over both. *)

From stdpp Require Import gmap strings list fin_maps.
From Stdlib Require Import ZArith String Ascii DecimalString.

Set Warnings "-register-all".
Open Scope string_scope.
Open Scope list_scope.

(** ** Strings *)

Definition slash : ascii := "/"%char.

Definition is_upper (c : ascii) : bool :=
  let n := nat_of_ascii c in (65 <=? n)%nat && (n <=? 90)%nat.

(** [String.prototype.toLowerCase], on the ASCII letters; a letter outside
    ASCII, which the engine folds as well, is left as it is. *)
Definition lower_ascii (c : ascii) : ascii :=
  if is_upper c then ascii_of_nat (nat_of_ascii c + 32) else c.

Fixpoint toLowerCase (s : string) : string :=
  match s with
  | EmptyString => EmptyString
  | String c r => String (lower_ascii c) (toLowerCase r)
  end.

Fixpoint has_slash (s : string) : bool :=
  match s with
  | EmptyString => false
  | String c r => if Ascii.eqb c slash then true else has_slash r
  end.

(** A plain segment is a file name: no separator in it, and not one of the
    three names that normalisation treats specially. *)
Definition plainb (seg : string) : bool :=
  negb (has_slash seg) && negb (String.eqb seg "") &&
  negb (String.eqb seg ".") && negb (String.eqb seg "..").

(** A segment that normalisation keeps: neither empty nor the dot. *)
Definition keptb (seg : string) : bool :=
  negb (String.eqb seg "") && negb (String.eqb seg ".").

(** ** The [path] module (POSIX flavour)

    [path.join], [path.resolve] and [path.dirname] as Node implements them in
    [path.posix]: a path is cut at the separators, the segments are
    normalised on a stack, and the result is glued back together.  Drive
    letters and UNC prefixes of [path.win32] are outside this development:
    for a process on Windows the paths computed here are those that
    [path.posix] gives.  The statements about the order and the outcome of
    the script's calls hold for whatever the paths are. *)

Module path.

Fixpoint split (s : string) : list string :=
  match s with
  | EmptyString => [EmptyString]
  | String c r =>
      if Ascii.eqb c slash then EmptyString :: split r
      else match split r with
           | [] => [String c EmptyString]
           | h :: t => String c h :: t
           end
  end.

Fixpoint intercalate (segs : list string) : string :=
  match segs with
  | [] => ""
  | [x] => x
  | x :: rest => x +:+ "/" +:+ intercalate rest
  end.

(** One step of [normalizeString]: the stack holds the segments kept so
    far, latest first. *)
Definition step (allowAboveRoot : bool) (st : list string) (seg : string)
  : list string :=
  if String.eqb seg "" || String.eqb seg "." then st
  else if String.eqb seg ".." then
    match st with
    | [] => if allowAboveRoot then [".."] else []
    | top :: rest =>
        if String.eqb top ".." then (if allowAboveRoot then ".." :: st else st)
        else rest
    end
  else seg :: st.

Definition normSegs (allowAboveRoot : bool) (segs : list string) : list string :=
  rev (fold_left (step allowAboveRoot) segs []).

Definition normalizeString (p : string) (allowAboveRoot : bool) : string :=
  intercalate (normSegs allowAboveRoot (split p)).

Definition isAbsolute (p : string) : bool :=
  match p with
  | String c _ => Ascii.eqb c slash
  | EmptyString => false
  end.

Fixpoint endsWithSlash (p : string) : bool :=
  match p with
  | EmptyString => false
  | String c EmptyString => Ascii.eqb c slash
  | String _ r => endsWithSlash r
  end.

Definition normalize (p : string) : string :=
  if String.eqb p "" then "."
  else
    let isAbs := isAbsolute p in
    let trailingSeparator := endsWithSlash p in
    let n := normalizeString p (negb isAbs) in
    if String.eqb n "" then
      (if isAbs then "/" else if trailingSeparator then "./" else ".")
    else
      let n' := if trailingSeparator then n +:+ "/" else n in
      if isAbs then "/" +:+ n' else n'.

Fixpoint join_args (args : list string) (joined : option string) : option string :=
  match args with
  | [] => joined
  | a :: rest =>
      if String.eqb a "" then join_args rest joined
      else join_args rest
             (Some match joined with
                   | None => a
                   | Some j => j +:+ "/" +:+ a
                   end)
  end.

Definition join (args : list string) : string :=
  match join_args args None with
  | None => "."
  | Some joined => normalize joined
  end.

(** The loop of [path.resolve], from the last argument to the first and
    then the working directory, until an absolute path is met. *)
Fixpoint resolve_acc (candidates : list string) (resolvedPath : string)
  : string * bool :=
  match candidates with
  | [] => (resolvedPath, false)
  | p :: rest =>
      if String.eqb p "" then resolve_acc rest resolvedPath
      else
        let resolvedPath' := p +:+ "/" +:+ resolvedPath in
        if isAbsolute p then (resolvedPath', true)
        else resolve_acc rest resolvedPath'
  end.

Definition resolve_raw (cwd : string) (args : list string) : string * bool :=
  resolve_acc (rev args ++ [cwd]) "".

Definition resolve_segs (cwd : string) (args : list string) : list string :=
  let rp := resolve_raw cwd args in
  normSegs (negb (snd rp)) (split (fst rp)).

Definition resolve (cwd : string) (args : list string) : string :=
  let n := intercalate (resolve_segs cwd args) in
  if snd (resolve_raw cwd args) then "/" +:+ n
  else if String.eqb n "" then "." else n.

(** [dirname]: drop the trailing separators and the last segment. *)
Fixpoint dirname_scan (rev_tail : list ascii) (matchedSlash : bool)
  : option (list ascii) :=
  match rev_tail with
  | [] => None
  | c :: before =>
      if Ascii.eqb c slash then
        if matchedSlash then dirname_scan before true
        else Some before
      else dirname_scan before false
  end.

Definition dirname (p : string) : string :=
  match p with
  | EmptyString => "."
  | String c0 tl =>
      let hasRoot := Ascii.eqb c0 slash in
      match dirname_scan (rev (list_ascii_of_string tl)) true with
      | None => if hasRoot then "/" else "."
      | Some before =>
          if hasRoot && Nat.eqb (List.length before) 0 then "//"
          else String c0 (string_of_list_ascii (rev before))
      end
  end.

End path.

(** ** The [crypto] module: SHA-1 (FIPS 180-4) on 32-bit words

    [crypto.createHash("sha1").update(s).digest("hex")], with the words kept
    as [Z] and every addition and rotation wrapped to 32 bits. *)

Module crypto.

Definition mask32 (x : Z) : Z := Z.land x 4294967295.
Definition add32 (a b : Z) : Z := mask32 (a + b).
Definition not32 (a : Z) : Z := Z.lxor a 4294967295.
Definition rotl32 (n : Z) (x : Z) : Z :=
  mask32 (Z.lor (Z.shiftl x n) (Z.shiftr x (32 - n))).

Definition bytes_of_string (s : string) : list Z :=
  map (fun c => Z.of_nat (nat_of_ascii c)) (list_ascii_of_string s).

(** The [n] low bytes of [x], most significant first. *)
Fixpoint be_bytes (n : nat) (x : Z) : list Z :=
  match n with
  | O => []
  | S n' => Z.land (Z.shiftr x (8 * Z.of_nat n')) 255 :: be_bytes n' x
  end.

Definition pad (msg : list Z) : list Z :=
  let l := List.length msg in
  let zeros := ((119 - l mod 64) mod 64)%nat in
  msg ++ [128%Z] ++ repeat 0%Z zeros ++ be_bytes 8 (8 * Z.of_nat l).

Fixpoint chunks {A} (fuel n : nat) (l : list A) : list (list A) :=
  match fuel with
  | O => []
  | S fuel' =>
      match l with
      | [] => []
      | _ => take n l :: chunks fuel' n (drop n l)
      end
  end.

Definition word_of_bytes (bs : list Z) : Z :=
  fold_left (fun acc b => Z.lor (Z.shiftl acc 8) b) bs 0%Z.

Definition words_of_block (block : list Z) : list Z :=
  map word_of_bytes (chunks 16 4 block).

(** The message schedule, latest word first. *)
Fixpoint extend (k : nat) (w_rev : list Z) : list Z :=
  match k with
  | O => w_rev
  | S k' =>
      let x := Z.lxor (Z.lxor (nth 2 w_rev 0%Z) (nth 7 w_rev 0%Z))
                      (Z.lxor (nth 13 w_rev 0%Z) (nth 15 w_rev 0%Z)) in
      extend k' (rotl32 1 x :: w_rev)
  end.

Definition schedule (block : list Z) : list Z :=
  rev (extend 64 (rev (words_of_block block))).

Definition hstate : Type := Z * Z * Z * Z * Z.

Definition round (st : hstate) (tw : nat * Z) : hstate :=
  let '(a, b, c, d, e) := st in
  let '(t, w) := tw in
  let '(f, k) :=
    if (t <? 20)%nat then
      (Z.lor (Z.land b c) (Z.land (not32 b) d), 1518500249%Z)
    else if (t <? 40)%nat then
      (Z.lxor (Z.lxor b c) d, 1859775393%Z)
    else if (t <? 60)%nat then
      (Z.lor (Z.lor (Z.land b c) (Z.land b d)) (Z.land c d), 2400959708%Z)
    else
      (Z.lxor (Z.lxor b c) d, 3395469782%Z) in
  let temp := add32 (add32 (add32 (add32 (rotl32 5 a) f) e) k) w in
  (temp, a, rotl32 30 b, c, d).

Definition compress (h : hstate) (block : list Z) : hstate :=
  let '(h0, h1, h2, h3, h4) := h in
  let '(a, b, c, d, e) :=
    fold_left round (combine (seq 0 80) (schedule block)) h in
  (add32 h0 a, add32 h1 b, add32 h2 c, add32 h3 d, add32 h4 e).

Definition sha1_init : hstate :=
  (1732584193, 4023233417, 2562383102, 271733878, 3285377520)%Z.

Definition sha1_words (s : string) : hstate :=
  let m := pad (bytes_of_string s) in
  fold_left compress (chunks (List.length m) 64 m) sha1_init.

Definition hex_digits : list ascii :=
  list_ascii_of_string "0123456789abcdef".

Definition hexdigit (x : Z) : ascii :=
  nth (Z.to_nat (Z.land x 15)) hex_digits "0"%char.

Definition hex8 (w : Z) : list ascii :=
  map (fun i => hexdigit (Z.shiftr w (4 * Z.of_nat i))) [7; 6; 5; 4; 3; 2; 1; 0]%nat.

Definition hex_of_words (h : hstate) : string :=
  let '(h0, h1, h2, h3, h4) := h in
  string_of_list_ascii (hex8 h0 ++ hex8 h1 ++ hex8 h2 ++ hex8 h3 ++ hex8 h4).

Definition sha1_hex (s : string) : string := hex_of_words (sha1_words s).

End crypto.

(** ** The process and the operating system

    What the script reads from its surroundings when it starts
    ([process.argv], [process.platform], [process.cwd()], the two environment
    variables, [os.homedir()], [os.tmpdir()] and [Date.now()]). *)

Record process : Type := {
  argv : list string;
  platform : string;
  cwd : string;
  env_LOCALAPPDATA : option string;
  env_EXTERNAL_NODE_MODULES_DIR : option string;
  homedir : string;
  tmpdir : string;
  now : N
}.

Inductive result (E A : Type) : Type :=
| Ok (a : A)
| Err (e : E).
Arguments Ok {E A} a.
Arguments Err {E A} e.

Inductive errno : Type :=
| ENOENT | EEXIST | ENOTDIR | EISDIR | ENOTEMPTY | EINVAL | EACCES | EPERM | ELOOP.

(** What the script asks of the [Stats] returned by [lstat]. *)
Inductive ftype : Type := FtFile | FtDir | FtSymlink.

Definition isSymbolicLink (st : ftype) : bool :=
  match st with FtSymlink => true | _ => false end.

(** The third argument of [fsp.symlink]: ["junction"] or ["dir"]. *)
Inductive linkType : Type := Junction | DirLink.

Definition linkType_name (ty : linkType) : string :=
  match ty with Junction => "junction" | DirLink => "dir" end.

(** The calls the script makes, over a world [W] that the calls read and
    change.  [fsp_mkdir] is [mkdir(p, {recursive: true})], [fsp_rm] is
    [rm(p, {recursive: true, force: true})], and [spawn_npm_install] runs
    [npm install] to its [close] event and yields the exit code ([None] when
    the child was ended by a signal). *)
Record OS (W : Type) : Type := {
  fsp_mkdir : string -> W -> result errno unit * W;
  fsp_lstat : string -> W -> result errno ftype * W;
  fsp_readlink : string -> W -> result errno string * W;
  fsp_rename : string -> string -> W -> result errno unit * W;
  fsp_rm : string -> W -> result errno unit * W;
  fsp_symlink : string -> string -> linkType -> W -> result errno unit * W;
  fsp_readdir : string -> W -> result errno (list string) * W;
  spawn_npm_install : W -> option N * W
}.
Arguments fsp_mkdir {W} _ _ _.
Arguments fsp_lstat {W} _ _ _.
Arguments fsp_readlink {W} _ _ _.
Arguments fsp_rename {W} _ _ _ _.
Arguments fsp_rm {W} _ _ _.
Arguments fsp_symlink {W} _ _ _ _ _.
Arguments fsp_readdir {W} _ _ _.
Arguments spawn_npm_install {W} _ _.

(** The errors a run can end with: a rejected file-system call, or one of
    the [Error]s the script throws itself. *)
Inductive error : Type :=
| FsError (syscall : string) (code : errno) (p : string)
| LinkMismatch (expected : string)
| LinkUnsupported
| LinkCreationFailed (cause : error)
| LinkVerificationFailed (expected : string)
| InstallerFailure (code : option N).

(** What a run does that can be observed from outside, in order. *)
Inductive event : Type :=
| EvMkdir (p : string) (r : result errno unit)
| EvLstat (p : string) (r : result errno ftype)
| EvReadlink (p : string) (r : result errno string)
| EvRename (src dst : string) (r : result errno unit)
| EvRm (p : string) (r : result errno unit)
| EvSymlink (tgt p : string) (ty : linkType) (r : result errno unit)
| EvReaddir (p : string) (r : result errno (list string))
| EvSpawn (code : option N)
| EvLog (msg : string)
| EvError (msg : string)
| EvExit (status : N).

Definition is_spawn (e : event) : bool :=
  match e with EvSpawn _ => true | _ => false end.

(** How often the installer was started in a trace. *)
Definition installs (tr : list event) : nat := List.length (filter is_spawn tr).

(** ** Texts *)

Definition nl : string := String (ascii_of_nat 10) "".
Definition dq : string := String (ascii_of_nat 34) "".

Definition decimal (n : N) : string :=
  DecimalString.NilZero.string_of_uint (N.to_uint n).

Definition errno_name (c : errno) : string :=
  match c with
  | ENOENT => "ENOENT" | EEXIST => "EEXIST" | ENOTDIR => "ENOTDIR"
  | EISDIR => "EISDIR" | ENOTEMPTY => "ENOTEMPTY" | EINVAL => "EINVAL"
  | EACCES => "EACCES" | EPERM => "EPERM" | ELOOP => "ELOOP"
  end.

Definition HELP_TEXT : string :=
  nl +:+
  "------------------------------------------------------------" +:+ nl +:+
  "node-linker-pro — External node_modules linker (CACHE-BASED)" +:+ nl +:+
  "------------------------------------------------------------" +:+ nl +:+
  nl +:+
  "USAGE" +:+ nl +:+
  "  node-linker-pro" +:+ nl +:+
  "  node-linker-pro --help" +:+ nl +:+
  nl +:+
  "WHAT IT DOES" +:+ nl +:+
  "  • Moves ./node_modules to a local cache (outside cloud sync)" +:+ nl +:+
  "  • Creates a link (symlink on macOS/Linux, junction on Windows)" +:+ nl +:+
  "  • Auto-runs " +:+ dq +:+ "npm install" +:+ dq +:+ " if the cache is empty" +:+ nl +:+
  nl +:+
  "DEFAULT CACHE LOCATIONS" +:+ nl +:+
  "  • macOS:   ~/Library/Caches/node_modules_store" +:+ nl +:+
  "  • Linux:   ~/.cache/node_modules_store" +:+ nl +:+
  "  • Windows: %LOCALAPPDATA%\Temp\node_modules_cache" +:+ nl +:+
  nl +:+
  "OVERRIDE CACHE LOCATION" +:+ nl +:+
  "  macOS/Linux:" +:+ nl +:+
  "    EXTERNAL_NODE_MODULES_DIR=" +:+ dq +:+ "/path/to/cache" +:+ dq +:+ " node-linker-pro" +:+ nl +:+
  "  Windows (PowerShell):" +:+ nl +:+
  "    $env:EXTERNAL_NODE_MODULES_DIR=" +:+ dq +:+ "D:\path\to\cache" +:+ dq +:+ "; node-linker-pro" +:+ nl +:+
  nl +:+
  "STOP-ON-FAILURE" +:+ nl +:+
  "  If link creation fails (e.g., Developer Mode off on Windows), the program" +:+ nl +:+
  "  stops with instructions so you don't accidentally sync node_modules." +:+ nl.

(** ** The script's constants: where the slot and the cache are *)

Section Locate.

Variable proc : process.

Definition isWin : bool := String.eqb (platform proc) "win32".
Definition projectDir : string := cwd proc.
Definition nmPath : string := path.join [projectDir; "node_modules"].

Definition defaultStoreDir : string :=
  if isWin then
    let base :=
      match env_LOCALAPPDATA proc with
      | Some b => b
      | None => path.join [homedir proc; "AppData"; "Local"]
      end in
    path.join [base; "Temp"; "node_modules_cache"]
  else if String.eqb (platform proc) "darwin" then
    path.join [homedir proc; "Library"; "Caches"; "node_modules_store"]
  else
    path.join [homedir proc; ".cache"; "node_modules_store"].

(** [process.env.EXTERNAL_NODE_MODULES_DIR || defaultStoreDir()]: an unset
    and an empty variable both fall through to the default. *)
Definition storeDir : string :=
  match env_EXTERNAL_NODE_MODULES_DIR proc with
  | Some d => if String.eqb d "" then defaultStoreDir else d
  | None => defaultStoreDir
  end.

Definition hash : string := crypto.sha1_hex projectDir.
Definition target : string := path.join [storeDir; hash].

Definition normalizeForCompare (p : string) : string :=
  let n := path.resolve (cwd proc) [p] in
  if isWin then toLowerCase n else n.

Definition linkType_of_platform : linkType := if isWin then Junction else DirLink.

(** The two lines that announce the [Linked] state. *)
Definition already_linked_text : string :=
  "node_modules already linked -> " +:+ target.
Definition linked_line_text : string :=
  "Linked node_modules -> " +:+ target +:+ " (" +:+
  linkType_name linkType_of_platform +:+ ")".

(** The throwaway paths of the junction preflight. *)
Definition tmpRoot : string :=
  path.join [tmpdir proc; "nlp-preflight-" +:+ decimal (now proc)].
Definition tmpTarget : string := path.join [tmpRoot; "tgt"].
Definition tmpLink : string := path.join [tmpRoot; "lnk"].

(** The text of each error, as the script words it; a rejected system call
    carries Node's text, abridged here to code, call and path. *)
Fixpoint message (e : error) : string :=
  match e with
  | FsError syscall code p =>
      errno_name code +:+ ": " +:+ syscall +:+ " '" +:+ p +:+ "'"
  | LinkMismatch expected =>
      "node_modules is a symlink but not pointing to the expected cache target." +:+ nl +:+
      "Expected: " +:+ expected +:+ nl +:+
      "Fix: remove node_modules and re-run."
  | LinkUnsupported =>
      "❌ Failed preflight to create a junction (Windows)." +:+ nl +:+ nl +:+
      "This usually means Developer Mode is OFF or you lack permissions to create links." +:+ nl +:+ nl +:+
      "Fix:" +:+ nl +:+
      "  1) Enable Developer Mode:" +:+ nl +:+
      "     Settings → Privacy & Security → For Developers → Developer Mode (On)" +:+ nl +:+
      "  2) Delete local node_modules if present:" +:+ nl +:+
      "     PowerShell: Remove-Item -Recurse -Force .\node_modules" +:+ nl +:+
      "  3) Re-run: npm-setup (or node-linker-pro)" +:+ nl
  | LinkCreationFailed cause =>
      if isWin then
        "Failed to create a junction for node_modules." +:+ nl +:+
        "Likely causes:" +:+ nl +:+
        "  • Developer Mode is OFF" +:+ nl +:+
        "  • Insufficient permissions" +:+ nl +:+ nl +:+
        "Fix:" +:+ nl +:+
        "  1) Enable Developer Mode (Settings → Privacy & Security → For Developers)" +:+ nl +:+
        "  2) Remove local node_modules if present: Remove-Item -Recurse -Force .\node_modules" +:+ nl +:+
        "  3) Re-run: npm-setup (or node-linker-pro)" +:+ nl +:+
        "Original error: " +:+ message cause
      else
        "Failed to create a symlink for node_modules." +:+ nl +:+
        "Try:" +:+ nl +:+
        "  • Ensure you have write permissions to the project folder" +:+ nl +:+
        "  • Remove any existing node_modules then re-run" +:+ nl +:+
        "Original error: " +:+ message cause
  | LinkVerificationFailed expected =>
      "Link verification failed: node_modules is not a valid link to the cache target." +:+ nl +:+
      "Expected target: " +:+ expected +:+ nl +:+
      (if isWin
       then "Hint: Ensure Developer Mode is enabled, then re-run."
       else "Hint: Check permissions and re-run.")
  | InstallerFailure code =>
      "npm install failed (" +:+
      match code with Some c => decimal c | None => "null" end +:+ ")"
  end.

End Locate.

(** ** Runs: a world threaded through the calls, an error or a value at the
    end, and the trace of what was done *)

Definition M (W A : Type) : Type := W -> result error A * W * list event.

Definition ret {W A} (a : A) : M W A := fun w => (Ok a, w, []).

Definition throw {W A} (e : error) : M W A := fun w => (Err e, w, []).

Definition bind {W A B} (m : M W A) (f : A -> M W B) : M W B :=
  fun w =>
    match m w with
    | (Ok a, w1, t1) =>
        match f a w1 with
        | (r, w2, t2) => (r, w2, t1 ++ t2)
        end
    | (Err e, w1, t1) => (Err e, w1, t1)
    end.

(** [try { m } catch (e) { h e }]. *)
Definition try_catch {W A} (m : M W A) (h : error -> M W A) : M W A :=
  fun w =>
    match m w with
    | (Ok a, w1, t1) => (Ok a, w1, t1)
    | (Err e, w1, t1) =>
        match h e w1 with
        | (r, w2, t2) => (r, w2, t1 ++ t2)
        end
    end.

(** [try { await m } catch {}]. *)
Definition attempt {W A} (m : M W A) : M W unit :=
  fun w =>
    match m w with
    | (_, w1, t1) => (Ok tt, w1, t1)
    end.

(** [m.catch(() => null)]. *)
Definition catch_null {W A} (m : M W A) : M W (option A) :=
  fun w =>
    match m w with
    | (Ok a, w1, t1) => (Ok (Some a), w1, t1)
    | (Err _, w1, t1) => (Ok None, w1, t1)
    end.

(** [try { m } finally { fin }], for a [fin] that does not throw. *)
Definition try_finally {W A} (m : M W A) (fin : M W unit) : M W A :=
  fun w =>
    match m w with
    | (r, w1, t1) =>
        match fin w1 with
        | (Ok _, w2, t2) => (r, w2, t1 ++ t2)
        | (Err e, w2, t2) => (Err e, w2, t1 ++ t2)
        end
    end.

Declare Scope run_scope.
Delimit Scope run_scope with run.
Notation "x <- m ;; k" := (bind m (fun x => k))
  (at level 100, m at next level, right associativity) : run_scope.
Notation "m ;; k" := (bind m (fun _ => k))
  (at level 100, right associativity) : run_scope.

(** One call of the interface: made, recorded, and turned into a rejection
    when it fails. *)
Definition call {W A} (op : W -> result errno A * W)
  (ev : result errno A -> event) (fail : errno -> error) : M W A :=
  fun w =>
    match op w with
    | (Ok a, w') => (Ok a, w', [ev (Ok a)])
    | (Err c, w') => (Err (fail c), w', [ev (Err c)])
    end.

Definition includes (x : string) (l : list string) : bool :=
  existsb (String.eqb x) l.

(** [argv.includes("--help") || argv.includes("-h")]. *)
Definition help_asked_of (args : list string) : bool :=
  includes "--help" args || includes "-h" args.

Section Script.

Context {W : Type}.
Variable os : OS W.
Variable proc : process.

Local Open Scope run_scope.

Definition mkdir (p : string) : M W unit :=
  call (fsp_mkdir os p) (EvMkdir p) (fun c => FsError "mkdir" c p).
Definition lstat (p : string) : M W ftype :=
  call (fsp_lstat os p) (EvLstat p) (fun c => FsError "lstat" c p).
Definition readlink (p : string) : M W string :=
  call (fsp_readlink os p) (EvReadlink p) (fun c => FsError "readlink" c p).
Definition rename (src dst : string) : M W unit :=
  call (fsp_rename os src dst) (EvRename src dst) (fun c => FsError "rename" c src).
Definition rm (p : string) : M W unit :=
  call (fsp_rm os p) (EvRm p) (fun c => FsError "rm" c p).
Definition symlink (tgt p : string) (ty : linkType) : M W unit :=
  call (fsp_symlink os tgt p ty) (EvSymlink tgt p ty) (fun c => FsError "symlink" c tgt).
Definition readdir (p : string) : M W (list string) :=
  call (fsp_readdir os p) (EvReaddir p) (fun c => FsError "scandir" c p).

Definition console_log (msg : string) : M W unit :=
  fun w => (Ok tt, w, [EvLog msg]).

Definition exists_ (p : string) : M W bool :=
  try_catch (lstat p ;; ret true) (fun _ => ret false).

Definition isSymlink (p : string) : M W bool :=
  try_catch (st <- lstat p ;; ret (isSymbolicLink st)) (fun _ => ret false).

Definition verifyLinkPointsTo (linkPath wantTarget : string) : M W bool :=
  st <- catch_null (lstat linkPath) ;;
  match st with
  | None => ret false
  | Some st =>
      if negb (isSymbolicLink st) then ret false
      else
        raw <- catch_null (readlink linkPath) ;;
        match raw with
        | None => ret false
        | Some raw =>
            if String.eqb raw "" then ret false
            else
              let resolved := path.resolve (cwd proc) [path.dirname linkPath; raw] in
              ret (String.eqb (normalizeForCompare proc resolved)
                              (normalizeForCompare proc wantTarget))
        end
  end.

Definition windowsJunctionPreflight : M W bool :=
  try_finally
    (try_catch
       (mkdir (tmpTarget proc) ;;
        symlink (tmpTarget proc) (tmpLink proc) Junction ;;
        ok <- verifyLinkPointsTo (tmpLink proc) (tmpTarget proc) ;;
        ret ok)
       (fun _ => ret false))
    (attempt (rm (tmpLink proc)) ;;
     attempt (rm (tmpTarget proc)) ;;
     attempt (rm (tmpRoot proc))).

Definition spawn : M W unit :=
  fun w =>
    match spawn_npm_install os w with
    | (Some 0%N, w') => (Ok tt, w', [EvSpawn (Some 0%N)])
    | (code, w') => (Err (InstallerFailure code), w', [EvSpawn code])
    end.

Definition runNpmInstall : M W unit :=
  console_log "Installing dependencies..." ;;
  spawn.

(** Lines 136-154 of [main]. The slot is already a link: it must be ours;
    install if the cache is missing or empty. *)
Definition already_linked : M W unit :=
  ok <- verifyLinkPointsTo (nmPath proc) (target proc) ;;
  if negb ok then throw (LinkMismatch (target proc))
  else
    console_log (already_linked_text proc) ;;
    cacheExists <- exists_ (target proc) ;;
    files <- (if cacheExists then readdir (target proc) else ret []) ;;
    if negb cacheExists || Nat.eqb (List.length files) 0
    then runNpmInstall
    else ret tt.

(** Lines 156-166. A real folder at the slot is moved to the cache;
    whatever is left at the slot is removed. *)
Definition relocate : M W unit :=
  e <- exists_ (nmPath proc) ;;
  real <- (if e then (l <- isSymlink (nmPath proc) ;; ret (negb l)) else ret false) ;;
  (if real then
     mkdir (target proc) ;;
     rename (nmPath proc) (target proc) ;;
     console_log ("Moved node_modules to " +:+ target proc)
   else
     mkdir (target proc)) ;;
  attempt (rm (nmPath proc)).

(** Lines 168-183. Windows: preflight junction capability. *)
Definition preflight_gate : M W unit :=
  if isWin proc then
    ok <- windowsJunctionPreflight ;;
    if negb ok then throw LinkUnsupported else ret tt
  else ret tt.

(** Lines 185-205. Create the link (junction on Windows, dir symlink
    elsewhere); a failure is reported with advice and the original error. *)
Definition create_link : M W unit :=
  try_catch
    (symlink (target proc) (nmPath proc) (linkType_of_platform proc))
    (fun err => throw (LinkCreationFailed err)).

(** Lines 207-221. Verify the link points to the right target (stop on
    failure, after removing the bad link). *)
Definition verify_link : M W unit :=
  linkedOk <- verifyLinkPointsTo (nmPath proc) (target proc) ;;
  if negb linkedOk then
    attempt (rm (nmPath proc)) ;;
    throw (LinkVerificationFailed (target proc))
  else
    console_log (linked_line_text proc).

(** Lines 223-229. Install if the cache is empty. *)
Definition install_if_empty : M W unit :=
  files <- readdir (target proc) ;;
  if Nat.eqb (List.length files) 0 then runNpmInstall
  else console_log "Dependencies already cached — no install needed.".

(** Lines 156-229 in order: the slot is not a link. *)
Definition fresh_link : M W unit :=
  relocate ;;
  preflight_gate ;;
  create_link ;;
  verify_link ;;
  install_if_empty.

(** Lines 131-230: the cache root first, then one of the two branches. *)
Definition main : M W unit :=
  mkdir (storeDir proc) ;;
  linked <- isSymlink (nmPath proc) ;;
  if linked then already_linked else fresh_link.

(** The whole script: the help switch, then [main] and its [catch]; the
    result is the exit status of the process. *)
Definition script (w : W) : N * W * list event :=
  if help_asked_of (argv proc) then
    (0%N, w, [EvLog HELP_TEXT; EvExit 0%N])
  else
    match main w with
    | (Ok _, w', tr) => (0%N, w', tr)
    | (Err e, w', tr) => (1%N, w', tr ++ [EvError (message proc e); EvExit 1%N])
    end.

End Script.

(** ** The wrapper [npm-setup]

    It runs the linker as a child with no further argument, then
    [npm install] once more, and exits with the code of whichever child
    did not exit with 0 (1 when that child was ended by a signal). *)

Definition as_child (proc : process) : process := {|
  argv := ["node"; "node-linker-pro.mjs"];
  platform := platform proc;
  cwd := cwd proc;
  env_LOCALAPPDATA := env_LOCALAPPDATA proc;
  env_EXTERNAL_NODE_MODULES_DIR := env_EXTERNAL_NODE_MODULES_DIR proc;
  homedir := homedir proc;
  tmpdir := tmpdir proc;
  now := now proc
|}.

Definition npm_setup {W} (os : OS W) (proc : process) (w : W) : N * W * list event :=
  match script os (as_child proc) w with
  | (0%N, w1, tr1) =>
      match spawn_npm_install os w1 with
      | (Some 0%N, w2) => (0%N, w2, tr1 ++ [EvSpawn (Some 0%N)])
      | (Some c, w2) => (c, w2, tr1 ++ [EvSpawn (Some c); EvExit c])
      | (None, w2) => (1%N, w2, tr1 ++ [EvSpawn None; EvExit 1%N])
      end
  | (c, w1, tr1) => (c, w1, tr1 ++ [EvExit c])
  end.

(** ** An in-memory file system

    The reference implementation of the interface: a tree of directories,
    files and links.  Paths are resolved against the working directory as
    [path.resolve] does.  Links are leaves: the model does not follow a link
    met on the way to a path or at its end, and it has neither permissions
    nor devices, so a call fails only for the shape of the tree.  A move
    follows rename(2) on every platform: onto nothing, onto an empty
    directory (for a directory) or onto a file or link (for a file or
    link); there is one volume, so a move is never refused for crossing
    devices.  A path is normalised before the tree is walked, so making
    [a/../b] makes [b] only, also where [a] is missing.  The model agrees
    with a POSIX file system on normalised paths with no link on the way;
    the statements made for every implementation of the interface do not
    depend on it. *)

Inductive node : Type :=
| File (content : string)
| Dir (entries : gmap string node)
| Link (target : string).

Module memfs.

Fixpoint get (p : list string) (n : node) : option node :=
  match p with
  | [] => Some n
  | x :: p' =>
      match n with
      | Dir es =>
          match es !! x with
          | Some c => get p' c
          | None => None
          end
      | _ => None
      end
  end.

(** Put [new] at [p]; the directory that is to hold it must exist. *)
Fixpoint put (p : list string) (new : node) (n : node) : option node :=
  match p with
  | [] => Some new
  | x :: p' =>
      match n with
      | Dir es =>
          let child :=
            match es !! x with
            | Some c => put p' new c
            | None => match p' with [] => Some new | _ => None end
            end in
          match child with
          | Some c' => Some (Dir (<[x := c']> es))
          | None => None
          end
      | _ => None
      end
  end.

(** Remove what is at [p], with all below it; nothing happens when there is
    nothing there. *)
Fixpoint remove (p : list string) (n : node) : node :=
  match p with
  | [] => n
  | x :: p' =>
      match n with
      | Dir es =>
          match p' with
          | [] => Dir (delete x es)
          | _ =>
              match es !! x with
              | Some c => Dir (<[x := remove p' c]> es)
              | None => n
              end
          end
      | _ => n
      end
  end.

(** [mkdir -p]: every missing directory on the way is made. *)
Fixpoint mkdirp (p : list string) (n : node) : result errno node :=
  match p with
  | [] => match n with Dir _ => Ok n | _ => Err EEXIST end
  | x :: p' =>
      match n with
      | Dir es =>
          match mkdirp p' (default (Dir ∅) (es !! x)) with
          | Ok c' => Ok (Dir (<[x := c']> es))
          | Err e => Err e
          end
      | _ => Err ENOTDIR
      end
  end.

Definition ftype_of (n : node) : ftype :=
  match n with
  | File _ => FtFile
  | Dir _ => FtDir
  | Link _ => FtSymlink
  end.

Definition is_dir (n : node) : bool :=
  match n with Dir _ => true | _ => false end.

Definition names (es : gmap string node) : list string :=
  map fst (map_to_list es).

(** [rename(2)]: a move onto itself does nothing; nothing is moved into
    itself; a directory replaces only an empty directory, anything else only
    what is not a directory. *)
Definition rename_tree (s d : list string) (root : node) : result errno node :=
  match get s root with
  | None => Err ENOENT
  | Some moved =>
      if bool_decide (s = d) then Ok root
      else if bool_decide (s `prefix_of` d) then Err EINVAL
      else
        let place :=
          match put d moved (remove s root) with
          | Some root' => Ok root'
          | None => Err ENOENT
          end in
        match get d root with
        | None => place
        | Some (Dir es) =>
            if is_dir moved then
              (if bool_decide (es = ∅) then place else Err ENOTEMPTY)
            else Err EISDIR
        | Some _ => if is_dir moved then Err ENOTDIR else place
        end
  end.

Section Ops.

Variable cwd : string.

(** What [npm install] does to the tree, and the code it exits with. *)
Variable npm : node -> option N * node.

Definition phys (p : string) : list string := path.resolve_segs cwd [p].

Definition mkdir (p : string) (root : node) : result errno unit * node :=
  match mkdirp (phys p) root with
  | Ok root' => (Ok tt, root')
  | Err e => (Err e, root)
  end.

Definition lstat (p : string) (root : node) : result errno ftype * node :=
  match get (phys p) root with
  | Some n => (Ok (ftype_of n), root)
  | None => (Err ENOENT, root)
  end.

Definition readlink (p : string) (root : node) : result errno string * node :=
  match get (phys p) root with
  | Some (Link t) => (Ok t, root)
  | Some _ => (Err EINVAL, root)
  | None => (Err ENOENT, root)
  end.

Definition rename (src dst : string) (root : node) : result errno unit * node :=
  match rename_tree (phys src) (phys dst) root with
  | Ok root' => (Ok tt, root')
  | Err e => (Err e, root)
  end.

Definition rm (p : string) (root : node) : result errno unit * node :=
  (match phys p with [] => Err EPERM | _ => Ok tt end, remove (phys p) root).

Definition symlink (tgt p : string) (ty : linkType) (root : node)
  : result errno unit * node :=
  match get (phys p) root with
  | Some _ => (Err EEXIST, root)
  | None =>
      match put (phys p) (Link tgt) root with
      | Some root' => (Ok tt, root')
      | None => (Err ENOENT, root)
      end
  end.

Definition readdir (p : string) (root : node) : result errno (list string) * node :=
  match get (phys p) root with
  | Some (Dir es) => (Ok (names es), root)
  | Some (File _) => (Err ENOTDIR, root)
  | Some (Link _) => (Err ELOOP, root)
  | None => (Err ENOENT, root)
  end.

Definition os : OS node := {|
  fsp_mkdir := mkdir;
  fsp_lstat := lstat;
  fsp_readlink := readlink;
  fsp_rename := rename;
  fsp_rm := rm;
  fsp_symlink := symlink;
  fsp_readdir := readdir;
  spawn_npm_install := npm
|}.

End Ops.

End memfs.

(** ** Faulty stand-ins for the operating system *)

Section Doubles.

Context {W : Type}.
Variable os : OS W.

(** Links cannot be made (Developer Mode off). *)
Definition without_links : OS W := {|
  fsp_mkdir := fsp_mkdir os;
  fsp_lstat := fsp_lstat os;
  fsp_readlink := fsp_readlink os;
  fsp_rename := fsp_rename os;
  fsp_rm := fsp_rm os;
  fsp_symlink := fun _ _ _ w => (Err EPERM, w);
  fsp_readdir := fsp_readdir os;
  spawn_npm_install := spawn_npm_install os
|}.

(** Every link that is made points to [wrong] instead of where it was asked
    to point. *)
Definition misdirecting (wrong : string) : OS W := {|
  fsp_mkdir := fsp_mkdir os;
  fsp_lstat := fsp_lstat os;
  fsp_readlink := fsp_readlink os;
  fsp_rename := fsp_rename os;
  fsp_rm := fsp_rm os;
  fsp_symlink := fun _ p ty w => fsp_symlink os wrong p ty w;
  fsp_readdir := fsp_readdir os;
  spawn_npm_install := spawn_npm_install os
|}.

(** Directories cannot be listed (no read permission). *)
Definition unreadable : OS W := {|
  fsp_mkdir := fsp_mkdir os;
  fsp_lstat := fsp_lstat os;
  fsp_readlink := fsp_readlink os;
  fsp_rename := fsp_rename os;
  fsp_rm := fsp_rm os;
  fsp_symlink := fsp_symlink os;
  fsp_readdir := fun _ w => (Err EACCES, w);
  spawn_npm_install := spawn_npm_install os
|}.

End Doubles.

(** ** Example worlds *)

Definition linux_app : process := {|
  argv := ["node"; "node-linker-pro"];
  platform := "linux";
  cwd := "/work/app";
  env_LOCALAPPDATA := None;
  env_EXTERNAL_NODE_MODULES_DIR := None;
  homedir := "/home/u";
  tmpdir := "/tmp";
  now := 1700000000000
|}.

(** A Windows machine; its paths are written the POSIX way, as the [path]
    module of this development reads them. *)
Definition windows_app : process := {|
  argv := ["node"; "node-linker-pro"];
  platform := "win32";
  cwd := "/work/app";
  env_LOCALAPPDATA := Some "/Users/u/AppData/Local";
  env_EXTERNAL_NODE_MODULES_DIR := None;
  homedir := "/Users/u";
  tmpdir := "/Temp";
  now := 1700000000000
|}.

Definition dir (entries : list (string * node)) : node := Dir (list_to_map entries).

(** An installer that writes one package into the project's dependency
    directory, wherever the slot's link leads, and exits with [code]. *)
Definition npm_writes (dest : list string) (code : option N) (root : node)
  : option N * node :=
  match memfs.put dest (dir [("package.json", File "{}")]) root with
  | Some root' => (code, root')
  | None => (code, root)
  end.

Definition npm_idle (code : option N) (root : node) : option N * node :=
  (code, root).

(** ** Reading a run *)

Definition result_of {X W} (x : X * W * list event) : X := fst (fst x).
Definition world_of {X W} (x : X * W * list event) : W := snd (fst x).
Definition trace_of {X W} (x : X * W * list event) : list event := snd x.

(** Every event of the runs of [m] satisfies [P]. *)
Definition emits {W A} (P : event -> Prop) (m : M W A) : Prop :=
  forall w, Forall P (trace_of (m w)).

(** Every error that the runs of [m] end with satisfies [E]. *)
Definition raises {W A} (E : error -> Prop) (m : M W A) : Prop :=
  forall w e, result_of (m w) = Err e -> E e.

(** The runs of [m] do not change what [obs] sees of the world. *)
Definition keeps {W A X} (obs : W -> X) (m : M W A) : Prop :=
  forall w, obs (world_of (m w)) = obs w.

(** The errors of the steps before the installer: none of them is the
    installer's. *)
Definition own_error (e : error) : Prop :=
  match e with InstallerFailure _ => False | _ => True end.

(** The help switch of the command line. *)
Definition help_asked (proc : process) : bool := help_asked_of (argv proc).

Definition already_linked_line (proc : process) : event :=
  EvLog (already_linked_text proc).
Definition linked_line (proc : process) : event :=
  EvLog (linked_line_text proc).

Definition reached_linked (proc : process) (tr : list event) : Prop :=
  In (already_linked_line proc) tr \/ In (linked_line proc) tr.

(** Events that only look at the file system. *)
Definition looks_only (e : event) : Prop :=
  match e with
  | EvLstat _ _ | EvReadlink _ _ => True
  | _ => False
  end.

(** Events other than the line [l]. *)
Definition other_than (l : event) (e : event) : Prop := e <> l.

(** Events that neither list a directory nor start the installer. *)
Definition plumbing (e : event) : Prop :=
  match e with
  | EvSpawn _ | EvReaddir _ _ => False
  | _ => True
  end.

(** Two places of the tree neither of which is above the other. *)
Definition apart (p q : list string) : Prop :=
  ~ p `prefix_of` q /\ ~ q `prefix_of` p.

(** The slot's link [raw] leads to the cache target, by the script's own
    comparison. *)
Definition resolves_to_target (proc : process) (raw : string) : bool :=
  negb (String.eqb raw "") &&
  String.eqb
    (normalizeForCompare proc (path.resolve (cwd proc) [path.dirname (nmPath proc); raw]))
    (normalizeForCompare proc (target proc)).

(** The install-once gate, as a property of a trace. *)
Definition gate (proc : process) (tr : list event) : Prop :=
  installs tr <= 1 /\
  (forall names, In (EvReaddir (target proc) (Ok names)) tr ->
     reached_linked proc tr /\
     installs tr = if Nat.eqb (List.length names) 0 then 1 else 0) /\
  (installs tr = 1 -> reached_linked proc tr).

Definition gated {W A} (proc : process) (m : M W A) : Prop :=
  forall w, gate proc (trace_of (m w)).


Definition with_cache_root (override : string) (proc : process) : process := {|
  argv := argv proc;
  platform := platform proc;
  cwd := cwd proc;
  env_LOCALAPPDATA := env_LOCALAPPDATA proc;
  env_EXTERNAL_NODE_MODULES_DIR := Some override;
  homedir := homedir proc;
  tmpdir := tmpdir proc;
  now := now proc
|}.

Definition in_directory (dir : string) (proc : process) : process := {|
  argv := argv proc;
  platform := platform proc;
  cwd := dir;
  env_LOCALAPPDATA := env_LOCALAPPDATA proc;
  env_EXTERNAL_NODE_MODULES_DIR := env_EXTERNAL_NODE_MODULES_DIR proc;
  homedir := homedir proc;
  tmpdir := tmpdir proc;
  now := now proc
|}.

Definition package_json : string * node := ("package.json", File "{}").

Definition left_pad : list (string * node) :=
  [("left-pad", dir [("index.js", File "module.exports = 1")])].

(** The digest of ["/work/app"]. *)
Definition app_digest : string := "444ab9032ca47eded27d0fc9e20a79f3935830b6".

Definition slot_path : list string := ["work"; "app"; "node_modules"].
Definition cache_root_path : list string :=
  ["home"; "u"; ".cache"; "node_modules_store"].
Definition cache_path : list string := cache_root_path ++ [app_digest].

(** A project with no dependency directory yet. *)
Definition bare_root : node :=
  dir [("work", dir [("app", dir [package_json])]); ("home", dir [("u", dir [])])].

(** A project with its dependencies in place. *)
Definition real_root : node :=
  dir [("work", dir [("app", dir [package_json; ("node_modules", dir left_pad)])]);
       ("home", dir [("u", dir [])])].

(** A project whose dependency directory is there, and empty. *)
Definition empty_slot_root : node :=
  dir [("work", dir [("app", dir [package_json; ("node_modules", dir [])])]);
       ("home", dir [("u", dir [])])].

(** A project with its dependencies in place and a cache target that was
    filled before. *)
Definition full_cache_root : node :=
  dir [("work", dir [("app", dir [package_json; ("node_modules", dir left_pad)])]);
       ("home", dir [("u", dir [(".cache", dir [("node_modules_store",
          dir [(app_digest, dir [("old", File "kept")])])])])])].

(** A project whose slot is a link that leads elsewhere, with no cache root
    yet. *)
Definition stale_root : node :=
  dir [("work", dir [("app", dir [package_json; ("node_modules", Link "/elsewhere")])]);
       ("elsewhere", dir left_pad);
       ("home", dir [("u", dir [])])].

(** The same once the cache root has been made. *)
Definition stale_root_with_cache : node :=
  dir [("work", dir [("app", dir [package_json; ("node_modules", Link "/elsewhere")])]);
       ("elsewhere", dir left_pad);
       ("home", dir [("u", dir [(".cache", dir [("node_modules_store", dir [])])])])].

(** A project that is linked already, whose cache has been purged. *)
Definition purged_root : node :=
  dir [("work", dir [("app", dir [package_json;
         ("node_modules",
          Link ("/home/u/.cache/node_modules_store/" +:+ app_digest))])]);
       ("home", dir [("u", dir [])])].

Definition linux_os : OS node := memfs.os "/work/app" (npm_idle (Some 0%N)).

(** An installer that fills the cache through the slot's link. *)
Definition linux_os_installing : OS node :=
  memfs.os "/work/app" (npm_writes (cache_path ++ ["left-pad"]) (Some 0%N)).

(** An installer that fails with exit code 2. *)
Definition linux_os_failing : OS node := memfs.os "/work/app" (npm_idle (Some 2%N)).

Definition windows_os : OS node := memfs.os "/work/app" (npm_idle (Some 0%N)).

Definition windows_cache_path : list string :=
  ["Users"; "u"; "AppData"; "Local"; "Temp"; "node_modules_cache"; app_digest].

(** ** The earlier script, [link-node-modules.mjs]

    The script that [node-linker-pro.mjs] grew out of: the same constants and
    the same relocation, but a link at the slot is taken as it is, a new
    link is not read back, and there is no junction preflight. *)

Module legacy.

Definition HELP_TEXT : string :=
  nl +:+
  "------------------------------------------------------------" +:+ nl +:+
  "linker-node-modules — External node_modules linker (CACHE-BASED)" +:+ nl +:+
  "------------------------------------------------------------" +:+ nl +:+
  nl +:+
  "USAGE" +:+ nl +:+
  "  linker-node-modules   # Move node_modules to cache, link it, and install if needed" +:+ nl +:+
  "  linker-node-modules --help" +:+ nl +:+
  nl +:+
  "DEFAULT CACHE LOCATIONS (purgeable by OS/cleaners)" +:+ nl +:+
  "  • macOS:   ~/Library/Caches/node_modules_store" +:+ nl +:+
  "  • Linux:   ~/.cache/node_modules_store" +:+ nl +:+
  "  • Windows: %LOCALAPPDATA%\Temp\node_modules_cache" +:+ nl +:+
  nl +:+
  "OVERRIDE CACHE LOCATION" +:+ nl +:+
  "  mac/Linux:" +:+ nl +:+
  "    EXTERNAL_NODE_MODULES_DIR=" +:+ dq +:+ "/path/to/cache" +:+ dq +:+ " linker-node-modules" +:+ nl +:+
  "  Windows (PowerShell):" +:+ nl +:+
  "    $env:EXTERNAL_NODE_MODULES_DIR=" +:+ dq +:+ "D:\path\to\cache" +:+ dq +:+ "; linker-node-modules" +:+ nl +:+
  nl +:+
  "NOTES" +:+ nl +:+
  "  • This is a CACHE; if cleared, dependencies can be reinstalled." +:+ nl +:+
  "  • Windows uses a directory junction (no admin if Developer Mode is enabled)." +:+ nl.

(** [runNpmInstall] rejects with [new Error(String(code))]: the text of the
    installer's failure is the bare code. *)
Definition message (proc : process) (e : error) : string :=
  match e with
  | InstallerFailure code =>
      match code with Some c => decimal c | None => "null" end
  | _ => message proc e
  end.

Section Script.

Context {W : Type}.
Variable os : OS W.
Variable proc : process.

Local Open Scope run_scope.

(** The slot is a link, wherever it leads: install if the cache is empty,
    and also when listing it (or that first install) fails. *)
Definition already_linked : M W unit :=
  console_log (already_linked_text proc) ;;
  try_catch
    (files <- readdir os (target proc) ;;
     if Nat.eqb (List.length files) 0 then runNpmInstall os else ret tt)
    (fun _ => runNpmInstall os).

(** The slot is not a link: relocate, link, install; the link is not read
    back and a failure to make it is passed on as it is. *)
Definition fresh_link : M W unit :=
  relocate os proc ;;
  symlink os (target proc) (nmPath proc) (linkType_of_platform proc) ;;
  console_log (linked_line_text proc) ;;
  install_if_empty os proc.

Definition main : M W unit :=
  mkdir os (storeDir proc) ;;
  linked <- isSymlink os (nmPath proc) ;;
  if linked then already_linked else fresh_link.

(** The whole script; only [--help] asks for help. *)
Definition script (w : W) : N * W * list event :=
  if includes "--help" (argv proc) then
    (0%N, w, [EvLog HELP_TEXT; EvExit 0%N])
  else
    match main w with
    | (Ok _, w', tr) => (0%N, w', tr)
    | (Err e, w', tr) =>
        (1%N, w',
         tr ++ [EvError ("linker-node-modules failed: " +:+ message proc e);
                EvExit 1%N])
    end.

End Script.

Definition as_child (proc : process) : process := {|
  argv := ["node"; "link-node-modules.mjs"];
  platform := platform proc;
  cwd := cwd proc;
  env_LOCALAPPDATA := env_LOCALAPPDATA proc;
  env_EXTERNAL_NODE_MODULES_DIR := env_EXTERNAL_NODE_MODULES_DIR proc;
  homedir := homedir proc;
  tmpdir := tmpdir proc;
  now := now proc
|}.

(** Its wrapper: the script as a child, then [npm install] once more. *)
Definition npm_setup {W} (os : OS W) (proc : process) (w : W) : N * W * list event :=
  match script os (as_child proc) w with
  | (0%N, w1, tr1) =>
      match spawn_npm_install os w1 with
      | (Some 0%N, w2) => (0%N, w2, tr1 ++ [EvSpawn (Some 0%N)])
      | (Some c, w2) => (c, w2, tr1 ++ [EvSpawn (Some c); EvExit c])
      | (None, w2) => (1%N, w2, tr1 ++ [EvSpawn None; EvExit 1%N])
      end
  | (c, w1, tr1) => (c, w1, tr1 ++ [EvExit c])
  end.

End legacy.

(** ** Where a run may reach

    The calls that [main] may make: on the cache root, the cache target and
    the slot, and on Windows on the throwaway paths of the preflight. *)
Definition within_reach (proc : process) (e : event) : Prop :=
  match e with
  | EvMkdir p _ =>
      p = storeDir proc \/ p = target proc \/
      (isWin proc = true /\ p = tmpTarget proc)
  | EvLstat p _ =>
      p = nmPath proc \/ p = target proc \/
      (isWin proc = true /\ p = tmpLink proc)
  | EvReadlink p _ =>
      p = nmPath proc \/ (isWin proc = true /\ p = tmpLink proc)
  | EvRename src dst _ => src = nmPath proc /\ dst = target proc
  | EvRm p _ =>
      p = nmPath proc \/
      (isWin proc = true /\
       (p = tmpLink proc \/ p = tmpTarget proc \/ p = tmpRoot proc))
  | EvSymlink tgt p ty _ =>
      (tgt = target proc /\ p = nmPath proc /\ ty = linkType_of_platform proc) \/
      (isWin proc = true /\ tgt = tmpTarget proc /\ p = tmpLink proc /\ ty = Junction)
  | EvReaddir p _ => p = target proc
  | EvSpawn _ | EvLog _ | EvError _ | EvExit _ => True
  end.

(** The run has read back, at the slot, a link that leads to the cache
    target. *)
Definition link_read_back (proc : process) (tr : list event) : Prop :=
  exists raw,
    In (EvLstat (nmPath proc) (Ok FtSymlink)) tr /\
    In (EvReadlink (nmPath proc) (Ok raw)) tr /\
    resolves_to_target proc raw = true.

(** Events other than reading a link. *)
Definition not_readlink (e : event) : Prop :=
  match e with EvReadlink _ _ => False | _ => True end.

Definition is_lower_hex (c : ascii) : bool :=
  let n := nat_of_ascii c in
  ((48 <=? n)%nat && (n <=? 57)%nat) || ((97 <=? n)%nat && (n <=? 102)%nat).

Fixpoint all_chars (f : ascii -> bool) (s : string) : bool :=
  match s with
  | EmptyString => true
  | String c r => f c && all_chars f r
  end.

(** The run ended well, or it got past the plumbing: it listed a directory
    or started the installer. *)
Definition past_plumbing (r : result error unit) (tr : list event) : Prop :=
  r = Ok tt \/ exists e, In e tr /\ ~ plumbing e.

(** The errors that come from a call of the interface or from the
    installer, as opposed to the script's own verdicts. *)
Definition system_error (e : error) : Prop :=
  match e with
  | FsError _ _ _ | InstallerFailure _ => True
  | _ => False
  end.

(** Errors other than the failed read-back of a new link. *)
Definition not_verification_failure (e : error) : Prop :=
  match e with LinkVerificationFailed _ => False | _ => True end.


(** Two runs agree: the same final world, both ended well or neither did,
    and the installer was started as often in the one as in the other. *)
Definition agree {W} (x y : result error unit * W * list event) : Prop :=
  world_of x = world_of y /\
  (result_of x = Ok tt <-> result_of y = Ok tt) /\
  installs (trace_of x) = installs (trace_of y).

(** A project that is linked already, whose cache target is there and
    empty. *)
Definition emptied_root : node :=
  dir [("work", dir [("app", dir [package_json;
         ("node_modules",
          Link ("/home/u/.cache/node_modules_store/" +:+ app_digest))])]);
       ("home", dir [("u", dir [(".cache", dir [("node_modules_store",
          dir [(app_digest, dir [])])])])])].

(** An installer that fails the first time it is started and succeeds from
    then on: its first start leaves a marker behind. *)
Definition npm_flaky (marker : list string) (root : node) : option N * node :=
  match memfs.get marker root with
  | Some _ => (Some 0%N, root)
  | None =>
      match memfs.put marker (File "started") root with
      | Some root' => (Some 1%N, root')
      | None => (Some 1%N, root)
      end
  end.

Definition linux_os_flaky : OS node :=
  memfs.os "/work/app" (npm_flaky ["work"; "app"; "npm-debug.log"]).





(** Events that look at the slot: an [lstat] or a [readlink] of it. *)
Definition slot_look (proc : process) (e : event) : Prop :=
  match e with
  | EvLstat p _ | EvReadlink p _ => p = nmPath proc
  | _ => False
  end.

(** Events other than the making of a link at [p]. *)
Definition no_link_at (p : string) (e : event) : Prop :=
  match e with
  | EvSymlink _ q _ _ => q <> p
  | _ => True
  end.

(** How a run ends that ends with the installer: well when the exit code is
    0, with the installer's failure otherwise. *)
Definition installer_verdict (code : option N) : result error unit :=
  match code with
  | Some 0%N => Ok tt
  | _ => Err (InstallerFailure code)
  end.

(** A run told after the events [t]. *)
Definition preceded_by {X W} (t : list event) (x : X * W * list event)
  : X * W * list event :=
  (result_of x, world_of x, t ++ trace_of x).
(** * Properties *)

Example join_scenario :
  path.join ["/work/app"; "node_modules"] = "/work/app/node_modules".
Proof. reflexivity. Qed.

Example join_normalises :
  path.join ["/home/u/../v//cache/"; "abc"] = "/home/v/cache/abc".
Proof. reflexivity. Qed.

Example join_relative : path.join ["cache"; "abc"] = "cache/abc".
Proof. reflexivity. Qed.

Example resolve_relative :
  path.resolve "/work/app" ["cache/abc"] = "/work/app/cache/abc".
Proof. reflexivity. Qed.

Example resolve_two :
  path.resolve "/cwd" ["/work/app"; "../x"] = "/work/x".
Proof. reflexivity. Qed.

Example dirname_slot :
  path.dirname "/work/app/node_modules" = "/work/app".
Proof. reflexivity. Qed.

Example dirname_root : path.dirname "/node_modules" = "/".
Proof. reflexivity. Qed.

Example dirname_bare : path.dirname "node_modules" = ".".
Proof. reflexivity. Qed.

Example join_above : path.join ["a"; "../.."; "b"] = "../b".
Proof. reflexivity. Qed.

Example join_empty_first : path.join [""; "node_modules"] = "node_modules".
Proof. reflexivity. Qed.

Example resolve_above_root : path.resolve "/a" ["../../b/"] = "/b".
Proof. reflexivity. Qed.

Example normalize_root : path.normalize "/.." = "/".
Proof. reflexivity. Qed.

(** The comparison of link targets folds case on Windows only. *)
Example compare_folds_case_on_windows :
  normalizeForCompare windows_app "/Users/U/AppData" = "/users/u/appdata" /\
  normalizeForCompare linux_app "/Home/U/../u" = "/Home/u".
Proof. split; reflexivity. Qed.

Example sha1_empty :
  crypto.sha1_hex "" = "da39a3ee5e6b4b0d3255bfef95601890afd80709".
Proof. vm_compute. reflexivity. Qed.

Example sha1_abc :
  crypto.sha1_hex "abc" = "a9993e364706816aba3e25717850c26c9cd0d89d".
Proof. vm_compute. reflexivity. Qed.

Example sha1_two_blocks :
  crypto.sha1_hex "abcdbcdecdefdefgefghfghighijhijkijkljklmklmnlmnomnopnopq"
  = "84983e441c3bd26ebaae4aa1f95129e5e54670f1".
Proof. vm_compute. reflexivity. Qed.

(** ** Paths *)

Section PathLemmas.

Implicit Types (s a h d : string) (xs st : list string) (b : bool).

Lemma split_nonempty s : path.split s <> [].
Proof.
  destruct s as [|c r]; simpl; [done|].
  destruct (Ascii.eqb c slash); [done|]. by destruct (path.split r).
Qed.

Lemma split_app_slash a s :
  path.split (a +:+ String "/" s) = path.split a ++ path.split s.
Proof.
  induction a as [|c a IH]; simpl; [reflexivity|].
  rewrite IH. destruct (Ascii.eqb c slash); [reflexivity|].
  destruct (path.split a) eqn:E; [by apply split_nonempty in E|reflexivity].
Qed.

Lemma split_no_slash h : has_slash h = false -> path.split h = [h].
Proof.
  induction h as [|c h IH]; simpl; [done|].
  destruct (Ascii.eqb c slash); [done|]. intros Hh. by rewrite IH.
Qed.

Lemma split_elems s : Forall (fun x => has_slash x = false) (path.split s).
Proof.
  induction s as [|c s IH]; simpl; [by repeat constructor|].
  destruct (Ascii.eqb c slash) eqn:Hc; [by constructor|].
  destruct (path.split s) as [|x xs].
  - repeat constructor. simpl. by rewrite Hc.
  - inversion IH; subst. constructor; [|done]. simpl. by rewrite Hc.
Qed.

Lemma split_intercalate xs :
  xs <> [] -> Forall (fun x => has_slash x = false) xs ->
  path.split (path.intercalate xs) = xs.
Proof.
  induction xs as [|x xs IH]; [done|]. intros _ Hxs.
  inversion Hxs as [|? ? Hx Hrest]; subst.
  destruct xs as [|y ys]; simpl.
  - by apply split_no_slash.
  - change (path.split (x +:+ String "/" (path.intercalate (y :: ys))) = x :: y :: ys).
    rewrite split_app_slash, (split_no_slash _ Hx), IH; done.
Qed.

Lemma plainb_no_slash h : plainb h = true -> has_slash h = false.
Proof. unfold plainb. destruct (has_slash h); [done|done]. Qed.

Lemma plainb_kept h : plainb h = true -> keptb h = true.
Proof.
  unfold plainb, keptb.
  destruct (has_slash h), (String.eqb h ""), (String.eqb h "."); done.
Qed.

Lemma plainb_not_dotdot h : plainb h = true -> String.eqb h ".." = false.
Proof.
  unfold plainb. destruct (String.eqb h ".."); [|done].
  by rewrite andb_false_r.
Qed.

Lemma step_plain b st h : plainb h = true -> path.step b st h = h :: st.
Proof.
  intros Hh. unfold path.step.
  pose proof (plainb_kept _ Hh) as Hk. unfold keptb in Hk.
  destruct (String.eqb h ""), (String.eqb h "."); try done.
  simpl. by rewrite (plainb_not_dotdot _ Hh).
Qed.

Lemma fold_step_snoc b xs st h :
  fold_left (path.step b) (xs ++ [h]) st
  = path.step b (fold_left (path.step b) xs st) h.
Proof. by rewrite fold_left_app. Qed.

(** What the stack holds: kept segments only; without [allowAboveRoot],
    no [".."] either. *)
Lemma step_kept b st x :
  Forall (fun y => keptb y = true) st ->
  Forall (fun y => keptb y = true) (path.step b st x).
Proof.
  intros Hst. unfold path.step.
  destruct (String.eqb x "" || String.eqb x ".") eqn:Hx; [done|].
  destruct (String.eqb x "..") eqn:Hdd.
  - destruct st as [|top rest]; [destruct b; by repeat constructor|].
    inversion Hst; subst.
    destruct (String.eqb top ".."); [|done].
    destruct b; [|done]. by repeat constructor.
  - constructor; [|done]. unfold keptb.
    by destruct (String.eqb x ""), (String.eqb x ".").
Qed.

Lemma fold_kept b xs st :
  Forall (fun y => keptb y = true) st ->
  Forall (fun y => keptb y = true) (fold_left (path.step b) xs st).
Proof.
  revert st. induction xs as [|x xs IH]; intros st Hst; simpl; [done|].
  by apply IH, step_kept.
Qed.

Lemma fold_plain_stack xs st :
  Forall (fun x => has_slash x = false) xs ->
  Forall (fun y => plainb y = true) st ->
  Forall (fun y => plainb y = true) (fold_left (path.step false) xs st).
Proof.
  revert st. induction xs as [|x xs IH]; intros st Hxs Hst; simpl; [done|].
  inversion Hxs as [|? ? Hx Hrest]; subst. apply IH; [done|].
  unfold path.step.
  destruct (String.eqb x "" || String.eqb x ".") eqn:Hk; [done|].
  destruct (String.eqb x "..") eqn:Hdd.
  - destruct st as [|top rest]; [done|]. inversion Hst; subst.
    by destruct (String.eqb top "..").
  - constructor; [|done]. unfold plainb. rewrite Hx, Hdd.
    by destruct (String.eqb x ""), (String.eqb x ".").
Qed.

Lemma fold_plain b xs st :
  Forall (fun y => plainb y = true) xs ->
  fold_left (path.step b) xs st = rev xs ++ st.
Proof.
  revert st. induction xs as [|x xs IH]; intros st Hxs; simpl; [done|].
  inversion Hxs; subst. rewrite step_plain, IH by done.
  by rewrite <- app_assoc.
Qed.

(** Normalising first changes nothing for a later resolution. *)
Lemma fold_normalised b xs st :
  fold_left (path.step b) (rev (fold_left (path.step true) xs [])) st
  = fold_left (path.step b) xs st.
Proof.
  induction xs as [|x xs IH] using rev_ind; [reflexivity|].
  rewrite !fold_step_snoc.
  pose proof (fold_kept true xs [] (List.Forall_nil _)) as Hkept.
  set (N := fold_left (path.step true) xs []) in *.
  rewrite <- IH. clear IH.
  unfold path.step at 2 3.
  destruct (String.eqb x "" || String.eqb x ".") eqn:Hx; [done|].
  destruct (String.eqb x "..") eqn:Hdd.
  - apply String.eqb_eq in Hdd. subst x.
    destruct N as [|top rest]; [reflexivity|].
    destruct (String.eqb top "..") eqn:Htop.
    + simpl. by rewrite fold_left_app.
    + simpl. rewrite fold_left_app. simpl.
      inversion Hkept as [|? ? Hk _]; subst. unfold keptb in Hk.
      unfold path.step at 2.
      destruct (String.eqb top ""), (String.eqb top "."); try done. simpl.
      rewrite Htop. simpl. by rewrite Htop.
  - simpl. rewrite fold_left_app. simpl. unfold path.step at 1.
    by rewrite Hx, Hdd.
Qed.

Lemma string_app_assoc a s1 s2 : (a +:+ s1) +:+ s2 = a +:+ (s1 +:+ s2).
Proof.
  induction a as [|c a IH]; [reflexivity|].
  change (String c ((a +:+ s1) +:+ s2) = String c (a +:+ (s1 +:+ s2))).
  by rewrite IH.
Qed.

Lemma isAbsolute_app d r :
  d <> "" -> path.isAbsolute (d +:+ r) = path.isAbsolute d.
Proof. by destruct d. Qed.

Lemma isAbsolute_no_slash h : has_slash h = false -> path.isAbsolute h = false.
Proof. destruct h as [|c h]; simpl; [done|]. by destruct (Ascii.eqb c slash). Qed.

Lemma endsWithSlash_app a h :
  h <> "" -> path.endsWithSlash (a +:+ h) = path.endsWithSlash h.
Proof.
  intros Hh. induction a as [|c a IH]; [done|].
  simpl. rewrite IH. destruct (a +:+ h) eqn:E; [|done].
  destruct a, h; done.
Qed.

Lemma endsWithSlash_no_slash h : has_slash h = false -> path.endsWithSlash h = false.
Proof.
  induction h as [|c h IH]; [done|]. simpl.
  destruct (Ascii.eqb c slash) eqn:Hc; [done|]. intros Hh.
  destruct h; [done|]. by apply IH.
Qed.

Lemma intercalate_snoc xs h :
  xs <> [] -> path.intercalate (xs ++ [h]) = path.intercalate xs +:+ "/" +:+ h.
Proof.
  induction xs as [|x xs IH]; [done|]. intros _.
  destruct xs as [|y ys]; [reflexivity|].
  change (x +:+ "/" +:+ path.intercalate ((y :: ys) ++ [h])
          = (x +:+ "/" +:+ path.intercalate (y :: ys)) +:+ "/" +:+ h).
  rewrite IH by done. by rewrite !string_app_assoc.
Qed.

Lemma append_nonempty_r a h : h <> "" -> a +:+ h <> "".
Proof. destruct a; [done|done]. Qed.

Lemma intercalate_snoc_nonempty xs h : h <> "" -> path.intercalate (xs ++ [h]) <> "".
Proof.
  intros Hh. destruct xs as [|x xs]; [done|].
  rewrite intercalate_snoc by done.
  apply append_nonempty_r. by destruct h.
Qed.

Lemma intercalate_relative x xs :
  x <> "" -> has_slash x = false -> path.isAbsolute (path.intercalate (x :: xs)) = false.
Proof.
  intros Hx Hs. destruct xs as [|y ys].
  - by apply isAbsolute_no_slash.
  - change (path.isAbsolute (x +:+ "/" +:+ path.intercalate (y :: ys)) = false).
    rewrite isAbsolute_app by done. by apply isAbsolute_no_slash.
Qed.

Lemma plainb_nonempty h : plainb h = true -> h <> "".
Proof. intros Hh ->. done. Qed.

(** [path.resolve] of one absolute path. *)
Lemma resolve_segs_absolute cwd p :
  path.isAbsolute p = true ->
  path.resolve_segs cwd [p] = rev (fold_left (path.step false) (path.split p) []).
Proof.
  intros Hp. unfold path.resolve_segs, path.resolve_raw. simpl.
  destruct (String.eqb_spec p ""); [by subst|]. rewrite Hp. simpl.
  unfold path.normSegs.
  change (p +:+ "/" +:+ "") with (p +:+ String "/" "").
  by rewrite split_app_slash, fold_left_app.
Qed.

(** [path.resolve] of one relative path: the working directory first. *)
Lemma resolve_segs_relative cwd p :
  path.isAbsolute p = false ->
  path.resolve_segs cwd [p]
  = rev (fold_left (path.step (negb (path.isAbsolute cwd))) (path.split p)
           (fold_left (path.step (negb (path.isAbsolute cwd))) (path.split cwd) [])).
Proof.
  intros Hp. unfold path.resolve_segs, path.resolve_raw, path.normSegs. simpl.
  destruct (String.eqb_spec p "") as [->|Hne]; simpl.
  - destruct (String.eqb_spec cwd "") as [->|Hc]; simpl; [reflexivity|].
    change (cwd +:+ "/" +:+ "") with (cwd +:+ String "/" "").
    destruct (path.isAbsolute cwd); simpl;
      by rewrite split_app_slash, fold_left_app.
  - rewrite Hp.
    change (p +:+ "/" +:+ "") with (p +:+ String "/" "").
    destruct (String.eqb_spec cwd "") as [->|Hc]; simpl.
    + by rewrite split_app_slash, fold_left_app.
    + change (cwd +:+ "/" +:+ p +:+ String "/" "")
        with (cwd +:+ String "/" (p +:+ String "/" "")).
      destruct (path.isAbsolute cwd); simpl;
        by rewrite !split_app_slash, !fold_left_app.
Qed.

Lemma join_two d h :
  h <> "" ->
  path.join [d; h] =
  path.normalize (if String.eqb d "" then h else d +:+ "/" +:+ h).
Proof.
  intros Hh. unfold path.join. simpl.
  destruct (String.eqb_spec h ""); [done|]. by destruct (String.eqb d "").
Qed.

(** The segments of [path.join(d, h)], for a plain name [h]: those of [d],
    then [h]. *)
Lemma resolve_segs_join cwd d h :
  plainb h = true ->
  path.resolve_segs cwd [path.join [d; h]] = path.resolve_segs cwd [d] ++ [h].
Proof.
  intros Hh.
  pose proof (plainb_nonempty _ Hh) as Hne.
  pose proof (plainb_no_slash _ Hh) as Hns.
  rewrite join_two by done.
  destruct (String.eqb_spec d "") as [->|Hd].
  - (* the name alone *)
    assert (path.normalize h = h) as ->.
    { unfold path.normalize, path.normalizeString, path.normSegs.
      destruct (String.eqb_spec h ""); [done|].
      rewrite (isAbsolute_no_slash _ Hns), (endsWithSlash_no_slash _ Hns).
      rewrite (split_no_slash _ Hns). simpl. rewrite step_plain by done. simpl.
      by destruct (String.eqb_spec h ""). }
    rewrite !resolve_segs_relative by (done || by apply isAbsolute_no_slash).
    rewrite (split_no_slash _ Hns). simpl. by rewrite step_plain.
  - set (J := d +:+ "/" +:+ h).
    assert (HJ : J <> "") by (subst J; by destruct d).
    assert (Habs : path.isAbsolute J = path.isAbsolute d)
      by (by apply isAbsolute_app).
    assert (Hend : path.endsWithSlash J = false).
    { subst J. rewrite <- string_app_assoc, endsWithSlash_app by done.
      by apply endsWithSlash_no_slash. }
    assert (Hsplit : path.split J = path.split d ++ [h]).
    { subst J. change (d +:+ "/" +:+ h) with (d +:+ String "/" h).
      by rewrite split_app_slash, (split_no_slash _ Hns). }
    set (b' := negb (path.isAbsolute d)).
    set (S' := fold_left (path.step b') (path.split d) []).
    assert (Hn : path.normalizeString J b' = path.intercalate (rev S' ++ [h])).
    { unfold path.normalizeString, path.normSegs.
      rewrite Hsplit, fold_step_snoc, step_plain by done. reflexivity. }
    assert (Hnorm : path.normalize J =
      if path.isAbsolute d then "/" +:+ path.intercalate (rev S' ++ [h])
      else path.intercalate (rev S' ++ [h])).
    { unfold path.normalize. destruct (String.eqb_spec J ""); [done|].
      rewrite Habs, Hend. fold b'. rewrite Hn.
      destruct (String.eqb_spec (path.intercalate (rev S' ++ [h])) "") as [E|_];
        [by apply intercalate_snoc_nonempty in E|].
      reflexivity. }
    rewrite Hnorm. clear Hnorm Hn.
    assert (Hslash : Forall (fun x => has_slash x = false) (rev S' ++ [h])).
    { apply Forall_app. split; [|by repeat constructor].
      apply Forall_rev. subst S'.
      assert (forall xs st, Forall (fun x => has_slash x = false) xs ->
                Forall (fun x => has_slash x = false) st ->
                Forall (fun x => has_slash x = false) (fold_left (path.step b') xs st)) as Hgen.
      { induction xs as [|x xs IH]; intros st Hxs Hst; simpl; [done|].
        inversion Hxs; subst. apply IH; [done|]. unfold path.step.
        destruct (String.eqb x "" || String.eqb x "."); [done|].
        destruct (String.eqb x "..").
        - destruct st as [|top rest]; [destruct b'; by repeat constructor|].
          inversion Hst; subst. destruct (String.eqb top ".."); [|done].
          destruct b'; [|done]. by repeat constructor.
        - by constructor. }
      apply Hgen; [apply split_elems|constructor]. }
    assert (Hnil : rev S' ++ [h] <> []) by (by destruct (rev S')).
    destruct (path.isAbsolute d) eqn:Hdabs.
    + (* an absolute directory *)
      rewrite !resolve_segs_absolute by done.
      change ("/" +:+ path.intercalate (rev S' ++ [h]))
        with ("" +:+ String "/" (path.intercalate (rev S' ++ [h]))).
      rewrite split_app_slash, split_intercalate by done. simpl.
      rewrite fold_step_snoc, step_plain by done.
      assert (Hplain : Forall (fun y => plainb y = true) S').
      { subst S' b'. apply fold_plain_stack; [apply split_elems|constructor]. }
      rewrite fold_plain by (by apply Forall_rev).
      rewrite rev_involutive, app_nil_r. reflexivity.
    + (* a relative directory *)
      assert (Hrel : path.isAbsolute (path.intercalate (rev S' ++ [h])) = false).
      { destruct (rev S' ++ [h]) as [|x xs] eqn:E; [done|].
        inversion Hslash as [|? ? Hx _]; subst.
        apply intercalate_relative; [|done].
        assert (Forall (fun y => keptb y = true) (x :: xs)) as Hk.
        { rewrite <- E. apply Forall_app. split.
          - apply Forall_rev. subst S'. apply fold_kept. constructor.
          - repeat constructor. by apply plainb_kept. }
        inversion Hk as [|? ? Hkx _]; subst. intros ->. done. }
      rewrite !resolve_segs_relative by done.
      rewrite split_intercalate by done.
      rewrite fold_step_snoc, step_plain by done.
      subst S' b'. simpl. by rewrite fold_normalised.
Qed.

End PathLemmas.

(** ** The digest is a file name *)

Section Digest.

Lemma hexdigit_not_slash x : Ascii.eqb (crypto.hexdigit x) slash = false.
Proof.
  unfold crypto.hexdigit.
  destruct (nth_in_or_default (Z.to_nat (Z.land x 15)) crypto.hex_digits "0"%char)
    as [Hin| ->]; [|reflexivity].
  revert Hin. generalize (nth (Z.to_nat (Z.land x 15)) crypto.hex_digits "0"%char).
  intros c Hin. simpl in Hin.
  repeat (destruct Hin as [<-|Hin]; [reflexivity|]). destruct Hin.
Qed.

Lemma hex8_not_slash w :
  Forall (fun c => Ascii.eqb c slash = false) (crypto.hex8 w).
Proof. unfold crypto.hex8. simpl. repeat constructor; apply hexdigit_not_slash. Qed.

Lemma has_slash_of_list l :
  Forall (fun c => Ascii.eqb c slash = false) l ->
  has_slash (string_of_list_ascii l) = false.
Proof. induction 1 as [|c l Hc _ IH]; simpl; [done|]. by rewrite Hc. Qed.

Lemma length_of_list l : String.length (string_of_list_ascii l) = List.length l.
Proof. induction l as [|c l IH]; simpl; [done|]. by rewrite IH. Qed.

Lemma sha1_hex_length s : String.length (crypto.sha1_hex s) = 40.
Proof.
  unfold crypto.sha1_hex, crypto.hex_of_words.
  destruct (crypto.sha1_words s) as [[[[h0 h1] h2] h3] h4].
  rewrite length_of_list. reflexivity.
Qed.

Lemma sha1_hex_no_slash s : has_slash (crypto.sha1_hex s) = false.
Proof.
  unfold crypto.sha1_hex, crypto.hex_of_words.
  destruct (crypto.sha1_words s) as [[[[h0 h1] h2] h3] h4].
  apply has_slash_of_list. repeat (apply Forall_app; split); apply hex8_not_slash.
Qed.

Lemma sha1_hex_plain s : plainb (crypto.sha1_hex s) = true.
Proof.
  unfold plainb. rewrite sha1_hex_no_slash. simpl.
  pose proof (sha1_hex_length s) as Hlen.
  destruct (String.eqb_spec (crypto.sha1_hex s) "") as [E|_];
    [rewrite E in Hlen; discriminate|].
  destruct (String.eqb_spec (crypto.sha1_hex s) ".") as [E|_];
    [rewrite E in Hlen; discriminate|].
  destruct (String.eqb_spec (crypto.sha1_hex s) "..") as [E|_];
    [rewrite E in Hlen; discriminate|].
  reflexivity.
Qed.

Lemma hash_not_node_modules proc : hash proc <> "node_modules".
Proof.
  unfold hash. intros E. pose proof (sha1_hex_length (projectDir proc)) as Hlen.
  rewrite E in Hlen. discriminate.
Qed.

End Digest.

(** ** The in-memory file system *)

Section Tree.

Implicit Types (p q : list string) (n c : node) (es : gmap string node).

Lemma get_empty_dir x q : memfs.get (x :: q) (Dir ∅) = None.
Proof. simpl. by rewrite lookup_empty. Qed.

Lemma mkdirp_is_dir p n n' :
  memfs.mkdirp p n = Ok n' -> exists es, memfs.get p n' = Some (Dir es).
Proof.
  revert n n'. induction p as [|x p IH]; intros n n'; simpl.
  - destruct n; intros [= <-]; eauto.
  - destruct n as [|es|]; try discriminate.
    destruct (memfs.mkdirp p (default (Dir ∅) (es !! x))) as [c'|e] eqn:Hc;
      intros [= <-].
    simpl. rewrite lookup_insert_eq. by apply IH in Hc.
Qed.

(** Making directories along [p] leaves alone whatever is not on the way
    to [p]. *)
Lemma mkdirp_frame p n n' q :
  memfs.mkdirp p n = Ok n' -> ~ q `prefix_of` p ->
  memfs.get q n' = memfs.get q n.
Proof.
  revert n n' q. induction p as [|x p IH]; intros n n' q; simpl.
  - destruct n; intros [= <-]; done.
  - destruct n as [|es|]; try discriminate.
    destruct (memfs.mkdirp p (default (Dir ∅) (es !! x))) as [c'|e] eqn:Hc;
      intros [= <-] Hq.
    destruct q as [|y q]; [by destruct Hq; apply prefix_nil|].
    simpl. destruct (decide (x = y)) as [<-|Hne].
    + rewrite lookup_insert_eq.
      assert (~ q `prefix_of` p) as Hq' by (intros E; by apply Hq, prefix_cons).
      rewrite (IH _ _ _ Hc Hq').
      destruct (es !! x) as [c|]; [reflexivity|]. simpl.
      destruct q as [|z q]; [by destruct Hq'; apply prefix_nil|].
      apply get_empty_dir.
    + by rewrite lookup_insert_ne.
Qed.

Lemma mkdirp_present p n es :
  memfs.get p n = Some (Dir es) -> memfs.mkdirp p n = Ok n.
Proof.
  revert n. induction p as [|x p IH]; intros n; simpl.
  - by intros [= ->].
  - destruct n as [|es0|]; try discriminate.
    destruct (es0 !! x) as [c|] eqn:Hx; [|discriminate]. intros Hc. simpl.
    rewrite (IH _ Hc). by rewrite insert_id.
Qed.

(** What was already there on the way to [p] was a directory. *)
Lemma mkdirp_on_the_way p n n' q x :
  memfs.mkdirp p n = Ok n' -> q `prefix_of` p ->
  memfs.get q n = Some x -> memfs.is_dir x = true.
Proof.
  revert n n' q. induction p as [|y p IH]; intros n n' q Hmk Hq Hget.
  - apply prefix_nil_inv in Hq as ->. simpl in *. injection Hget as <-.
    by destruct n.
  - destruct q as [|z q].
    + simpl in *. injection Hget as <-. by destruct n.
    + pose proof (prefix_cons_inv_1 _ _ _ _ Hq) as ->.
      apply prefix_cons_inv_2 in Hq.
      simpl in *. destruct n as [|es|]; try discriminate.
      destruct (es !! y) as [c|] eqn:Hy; [|discriminate]. simpl in Hmk.
      destruct (memfs.mkdirp p c) as [c'|e] eqn:Hc; [|discriminate].
      by eapply IH.
Qed.

Lemma put_get p new n n' :
  memfs.put p new n = Some n' -> memfs.get p n' = Some new.
Proof.
  revert n n'. induction p as [|x p IH]; intros n n'; simpl.
  - by intros [= <-].
  - destruct n as [|es|]; try discriminate.
    destruct (es !! x) as [c|] eqn:Hx.
    + destruct (memfs.put p new c) as [c'|] eqn:Hc; intros [= <-].
      simpl. rewrite lookup_insert_eq. by eapply IH.
    + destruct p; intros [= <-]. simpl. by rewrite lookup_insert_eq.
Qed.

(** Putting something at [p] leaves alone whatever is neither above nor
    below [p]. *)
Lemma put_frame p new n n' q :
  memfs.put p new n = Some n' ->
  ~ p `prefix_of` q -> ~ q `prefix_of` p ->
  memfs.get q n' = memfs.get q n.
Proof.
  revert n n' q. induction p as [|x p IH]; intros n n' q Hput Hpq Hqp.
  - by destruct Hpq; apply prefix_nil.
  - destruct q as [|y q]; [by destruct Hqp; apply prefix_nil|].
    simpl in *. destruct n as [|es|]; try discriminate.
    destruct (decide (x = y)) as [<-|Hne].
    + assert (~ p `prefix_of` q) as Hpq' by (intros E; by apply Hpq, prefix_cons).
      assert (~ q `prefix_of` p) as Hqp' by (intros E; by apply Hqp, prefix_cons).
      destruct (es !! x) as [c|] eqn:Hx.
      * destruct (memfs.put p new c) as [c'|] eqn:Hc; [|discriminate].
        injection Hput as <-.
        simpl. rewrite lookup_insert_eq. by eapply IH.
      * destruct p; [|discriminate].
        by destruct Hpq'; apply prefix_nil.
    + destruct (match es !! x with
                | Some c => memfs.put p new c
                | None => match p with [] => Some new | _ :: _ => None end
                end); [|discriminate].
      injection Hput as <-.
      simpl. by rewrite lookup_insert_ne.
Qed.

(** After a removal nothing is left at [p], or below. *)
Lemma remove_gone p n q :
  p <> [] -> p `prefix_of` q -> memfs.get q (memfs.remove p n) = None.
Proof.
  revert n q. induction p as [|x p IH]; intros n q Hne Hpq; [done|].
  destruct q as [|y q]; [by apply prefix_nil_not in Hpq|].
  pose proof (prefix_cons_inv_1 _ _ _ _ Hpq) as ->.
  apply prefix_cons_inv_2 in Hpq.
  simpl. destruct n as [|es|]; try done.
  destruct p as [|z p].
  - simpl. by rewrite lookup_delete_eq.
  - destruct (es !! y) as [c|] eqn:Hy; simpl.
    + rewrite lookup_insert_eq. by apply IH.
    + by rewrite Hy.
Qed.

(** A removal leaves alone whatever is neither above nor below [p]. *)
Lemma remove_frame p n q :
  ~ p `prefix_of` q -> ~ q `prefix_of` p ->
  memfs.get q (memfs.remove p n) = memfs.get q n.
Proof.
  revert n q. induction p as [|x p IH]; intros n q Hpq Hqp.
  - by destruct Hpq; apply prefix_nil.
  - destruct q as [|y q]; [by destruct Hqp; apply prefix_nil|].
    simpl. destruct n as [|es|]; try done.
    destruct (decide (x = y)) as [<-|Hne].
    + assert (~ p `prefix_of` q) as Hpq' by (intros E; by apply Hpq, prefix_cons).
      assert (~ q `prefix_of` p) as Hqp' by (intros E; by apply Hqp, prefix_cons).
      destruct p as [|z p]; [by destruct Hpq'; apply prefix_nil|].
      destruct (es !! x) as [c|] eqn:Hx; simpl.
      * rewrite lookup_insert_eq, ?Hx. by apply IH.
      * by rewrite ?Hx.
    + destruct p as [|z p]; simpl.
      * by rewrite lookup_delete_ne.
      * destruct (es !! x) as [c|] eqn:Hx; simpl; [|done].
        by rewrite lookup_insert_ne.
Qed.

Lemma get_below_dir p n x q y :
  memfs.get p n = Some x -> memfs.get (p ++ q) n = Some y ->
  memfs.get q x = Some y.
Proof.
  revert n. induction p as [|z p IH]; intros n; simpl.
  - by intros [= ->].
  - destruct n as [|es|]; try discriminate.
    destruct (es !! z) as [c|]; [|discriminate]. apply IH.
Qed.

Lemma get_parent_dir p x n y :
  memfs.get (p ++ [x]) n = Some y -> exists es, memfs.get p n = Some (Dir es).
Proof.
  revert n. induction p as [|z p IH]; intros n; simpl.
  - destruct n as [|es|]; try discriminate. eauto.
  - destruct n as [|es|]; try discriminate.
    destruct (es !! z) as [c|]; [|discriminate]. apply IH.
Qed.

(** Directories stay directories when more are made. *)
Lemma mkdirp_keeps_dir p n n' q es :
  memfs.mkdirp p n = Ok n' -> memfs.get q n = Some (Dir es) ->
  exists es', memfs.get q n' = Some (Dir es').
Proof.
  revert n n' q. induction p as [|x p IH]; intros n n' q; simpl.
  - destruct n; intros [= <-]; eauto.
  - destruct n as [|es0|]; try discriminate.
    destruct (memfs.mkdirp p (default (Dir ∅) (es0 !! x))) as [c'|e] eqn:Hc;
      intros [= <-].
    destruct q as [|y q]; simpl; [eauto|].
    destruct (decide (x = y)) as [<-|Hne].
    + rewrite lookup_insert_eq. destruct (es0 !! x) as [c|]; [|discriminate].
      simpl in Hc. by apply IH.
    + rewrite lookup_insert_ne by done. eauto.
Qed.

Lemma prefix_snoc_cases (q r : list string) x :
  q `prefix_of` r ++ [x] -> q `prefix_of` r \/ q = r ++ [x].
Proof.
  intros [k Hk]. destruct k as [|y k _] using rev_ind.
  - right. by rewrite app_nil_r in Hk.
  - left. rewrite app_assoc in Hk. apply app_inj_tail in Hk as [-> _].
    by apply prefix_app_r.
Qed.

Lemma apart_snoc (r q : list string) x : apart r q -> apart (r ++ [x]) q.
Proof.
  intros [Hrq Hqr]. split.
  - intros H. apply Hrq. etrans; [|exact H]. by apply prefix_app_r.
  - intros [H| ->]%prefix_snoc_cases; [done|].
    apply Hrq. by apply prefix_app_r.
Qed.

Lemma rename_tree_ok s d root root' :
  memfs.rename_tree s d root = Ok root' -> s <> d ->
  exists moved,
    memfs.get s root = Some moved /\
    ~ s `prefix_of` d /\
    memfs.put d moved (memfs.remove s root) = Some root' /\
    (forall es, memfs.get d root = Some (Dir es) ->
       es = ∅ /\ memfs.is_dir moved = true).
Proof.
  unfold memfs.rename_tree. intros H Hne.
  destruct (memfs.get s root) as [moved|]; [|discriminate].
  rewrite bool_decide_eq_false_2 in H by done.
  destruct (bool_decide (s `prefix_of` d)) eqn:Hpre; [discriminate|].
  apply bool_decide_eq_false in Hpre.
  exists moved. split; [done|]. split; [done|].
  destruct (memfs.get d root) as [[|es|]|] eqn:Hd.
  - destruct (memfs.is_dir moved); [discriminate|].
    destruct (memfs.put d moved (memfs.remove s root)); [|discriminate].
    by injection H as <-.
  - destruct (memfs.is_dir moved); [|discriminate].
    destruct (bool_decide (es = ∅)) eqn:He; [|discriminate].
    apply bool_decide_eq_true in He.
    destruct (memfs.put d moved (memfs.remove s root)); [|discriminate].
    injection H as <-. split; [done|]. by intros ? [= <-].
  - destruct (memfs.is_dir moved); [discriminate|].
    destruct (memfs.put d moved (memfs.remove s root)); [|discriminate].
    by injection H as <-.
  - destruct (memfs.put d moved (memfs.remove s root)); [|discriminate].
    by injection H as <-.
Qed.

Lemma names_empty es : List.length (memfs.names es) = 0 <-> es = ∅.
Proof.
  unfold memfs.names. rewrite length_map. split.
  - intros H. apply map_to_list_empty_iff. by apply nil_length_inv.
  - intros ->. by rewrite map_to_list_empty.
Qed.

End Tree.

(** ** Runs *)

Section RunLemmas.

Context {W : Type}.

Lemma bind_run {A B} (m : M W A) (f : A -> M W B) (w : W) :
  bind m f w =
  match result_of (m w) with
  | Ok a =>
      (result_of (f a (world_of (m w))), world_of (f a (world_of (m w))),
       trace_of (m w) ++ trace_of (f a (world_of (m w))))
  | Err e => (Err e, world_of (m w), trace_of (m w))
  end.
Proof.
  unfold bind, result_of, world_of, trace_of.
  destruct (m w) as [[[a|e] w1] t1]; simpl; [|reflexivity].
  destruct (f a w1) as [[r w2] t2]; reflexivity.
Qed.

Lemma bind_ok {A B} (m : M W A) (f : A -> M W B) w a w1 t1 :
  m w = (Ok a, w1, t1) ->
  bind m f w = (result_of (f a w1), world_of (f a w1), t1 ++ trace_of (f a w1)).
Proof. intros H. rewrite bind_run, H. reflexivity. Qed.

Lemma bind_err {A B} (m : M W A) (f : A -> M W B) w e w1 t1 :
  m w = (Err e, w1, t1) -> bind m f w = (Err e, w1, t1).
Proof. intros H. rewrite bind_run, H. reflexivity. Qed.

Lemma bind_assoc {A B C} (m : M W A) (f : A -> M W B) (g : B -> M W C) w :
  bind (bind m f) g w = bind m (fun a => bind (f a) g) w.
Proof.
  unfold bind.
  destruct (m w) as [[[a|e] w1] t1]; [|reflexivity].
  destruct (f a w1) as [[[b|e] w2] t2]; [|reflexivity].
  destruct (g b w2) as [[r w3] t3]. by rewrite app_assoc.
Qed.

Lemma bind_ok_inv {A B} (m : M W A) (f : A -> M W B) w b w' t :
  bind m f w = (Ok b, w', t) ->
  exists a w1 t1 t2,
    m w = (Ok a, w1, t1) /\ f a w1 = (Ok b, w', t2) /\ t = t1 ++ t2.
Proof.
  unfold bind. destruct (m w) as [[[a|e] w1] t1]; [|discriminate].
  destruct (f a w1) as [[r w2] t2] eqn:Hf. intros [= -> -> <-].
  by exists a, w1, t1, t2.
Qed.

Lemma run_eta {A} (x : result error A * W * list event) :
  x = (result_of x, world_of x, trace_of x).
Proof. by destruct x as [[? ?] ?]. Qed.

Lemma raises_ret {A} E (a : A) : raises E (@ret W A a).
Proof. intros w e. discriminate. Qed.

Lemma raises_throw {A} (E : error -> Prop) e : E e -> raises E (@throw W A e).
Proof. intros He w e' [= <-]. exact He. Qed.

Lemma raises_bind {A B} E (m : M W A) (f : A -> M W B) :
  raises E m -> (forall a, raises E (f a)) -> raises E (bind m f).
Proof.
  intros Hm Hf w e. rewrite bind_run. specialize (Hm w).
  destruct (result_of (m w)) as [a|e'] eqn:Hr; unfold result_of at 1; simpl.
  - apply Hf.
  - intros [= <-]. by apply Hm.
Qed.

Lemma raises_try_catch {A} E (m : M W A) h :
  (forall e, raises E (h e)) -> raises E (try_catch m h).
Proof.
  intros Hh w e. unfold try_catch.
  destruct (m w) as [[[a|e'] w1] t1]; [discriminate|].
  specialize (Hh e' w1 e). destruct (h e' w1) as [[r w2] t2]. exact Hh.
Qed.

Lemma raises_attempt {A} E (m : M W A) : raises E (attempt m).
Proof.
  intros w e. unfold attempt. destruct (m w) as [[r w1] t1]. discriminate.
Qed.

Lemma raises_catch_null {A} E (m : M W A) : raises E (catch_null m).
Proof.
  intros w e. unfold catch_null. destruct (m w) as [[[a|e'] w1] t1]; discriminate.
Qed.

Lemma raises_try_finally {A} E (m : M W A) fin :
  raises E m -> raises E fin -> raises E (try_finally m fin).
Proof.
  intros Hm Hf w e. unfold try_finally. specialize (Hm w). specialize (Hf).
  destruct (m w) as [[r w1] t1]. specialize (Hf w1).
  destruct (fin w1) as [[[a|e'] w2] t2]; unfold result_of in *; simpl in *.
  - apply Hm.
  - intros [= <-]. by apply Hf.
Qed.

Lemma raises_call {A} (E : error -> Prop) (op : W -> result errno A * W) ev fail :
  (forall c, E (fail c)) -> raises E (call op ev fail).
Proof.
  intros H w e. unfold call. destruct (op w) as [[a|c] w']; [discriminate|].
  intros [= <-]. apply H.
Qed.

Lemma raises_log E msg : raises E (console_log (W:=W) msg).
Proof. intros w e. discriminate. Qed.

Section Keeps.

Context {X : Type} (obs : W -> X).

Lemma keeps_ret {A} (a : A) : keeps obs (@ret W A a).
Proof. by intros w. Qed.

Lemma keeps_throw {A} e : keeps obs (@throw W A e).
Proof. by intros w. Qed.

Lemma keeps_bind {A B} (m : M W A) (f : A -> M W B) :
  keeps obs m -> (forall a, keeps obs (f a)) -> keeps obs (bind m f).
Proof.
  intros Hm Hf w. rewrite bind_run. specialize (Hm w).
  destruct (result_of (m w)) as [a|e]; unfold world_of at 1; simpl; [|done].
  by rewrite Hf.
Qed.

Lemma keeps_try_catch {A} (m : M W A) h :
  keeps obs m -> (forall e, keeps obs (h e)) -> keeps obs (try_catch m h).
Proof.
  intros Hm Hh w. unfold try_catch. specialize (Hm w).
  destruct (m w) as [[[a|e] w1] t1]; [done|].
  specialize (Hh e w1). destruct (h e w1) as [[r w2] t2].
  unfold world_of in *; simpl in *. congruence.
Qed.

Lemma keeps_attempt {A} (m : M W A) : keeps obs m -> keeps obs (attempt m).
Proof.
  intros Hm w. unfold attempt. specialize (Hm w).
  by destruct (m w) as [[r w1] t1].
Qed.

Lemma keeps_catch_null {A} (m : M W A) : keeps obs m -> keeps obs (catch_null m).
Proof.
  intros Hm w. unfold catch_null. specialize (Hm w).
  by destruct (m w) as [[[a|e] w1] t1].
Qed.

Lemma keeps_try_finally {A} (m : M W A) fin :
  keeps obs m -> keeps obs fin -> keeps obs (try_finally m fin).
Proof.
  intros Hm Hf w. unfold try_finally. specialize (Hm w).
  destruct (m w) as [[r w1] t1]. specialize (Hf w1).
  destruct (fin w1) as [[[a|e] w2] t2]; unfold world_of in *; simpl in *;
    congruence.
Qed.

Lemma keeps_call {A} (op : W -> result errno A * W) ev fail :
  (forall w, obs (snd (op w)) = obs w) -> keeps obs (call op ev fail).
Proof.
  intros H w. unfold call. specialize (H w).
  by destruct (op w) as [[a|c] w'].
Qed.

Lemma keeps_log msg : keeps obs (console_log (W:=W) msg).
Proof. by intros w. Qed.

End Keeps.

Lemma emits_ret {A} P (a : A) : emits P (@ret W A a).
Proof. intros w. constructor. Qed.

Lemma emits_throw {A} P e : emits P (@throw W A e).
Proof. intros w. constructor. Qed.

Lemma emits_bind {A B} P (m : M W A) (f : A -> M W B) :
  emits P m -> (forall a, emits P (f a)) -> emits P (bind m f).
Proof.
  intros Hm Hf w. rewrite bind_run. specialize (Hm w).
  destruct (result_of (m w)); simpl; [|done].
  apply Forall_app. split; [done|apply Hf].
Qed.

Lemma emits_try_catch {A} P (m : M W A) h :
  emits P m -> (forall e, emits P (h e)) -> emits P (try_catch m h).
Proof.
  intros Hm Hh w. unfold try_catch. specialize (Hm w).
  destruct (m w) as [[[a|e] w1] t1]; simpl in *; [done|].
  specialize (Hh e w1). destruct (h e w1) as [[r w2] t2]; simpl in *.
  apply Forall_app. by split.
Qed.

Lemma emits_attempt {A} P (m : M W A) : emits P m -> emits P (attempt m).
Proof.
  intros Hm w. unfold attempt. specialize (Hm w).
  by destruct (m w) as [[r w1] t1].
Qed.

Lemma emits_catch_null {A} P (m : M W A) : emits P m -> emits P (catch_null m).
Proof.
  intros Hm w. unfold catch_null. specialize (Hm w).
  by destruct (m w) as [[[a|e] w1] t1].
Qed.

Lemma emits_try_finally {A} P (m : M W A) fin :
  emits P m -> emits P fin -> emits P (try_finally m fin).
Proof.
  intros Hm Hf w. unfold try_finally. specialize (Hm w).
  destruct (m w) as [[r w1] t1]; simpl in *.
  specialize (Hf w1). destruct (fin w1) as [[[a|e] w2] t2]; simpl in *;
    apply Forall_app; by split.
Qed.

Lemma emits_call {A} P (op : W -> result errno A * W) ev fail :
  (forall r, P (ev r)) -> emits P (call op ev fail).
Proof.
  intros H w. unfold call, trace_of.
  destruct (op w) as [[a|c] w']; simpl; by repeat constructor.
Qed.

Lemma emits_log (P : event -> Prop) msg :
  P (EvLog msg) -> emits P (console_log (W:=W) msg).
Proof. intros H w. unfold console_log, trace_of; simpl. by repeat constructor. Qed.

End RunLemmas.

(** Walks through a script fragment, leaving the side conditions on the
    events of its calls. *)
Ltac emits_step :=
  match goal with
  | |- emits _ (bind _ _) => apply emits_bind; [|intros ?]
  | |- emits _ (try_catch _ _) => apply emits_try_catch; [|intros ?]
  | |- emits _ (try_finally _ _) => apply emits_try_finally
  | |- emits _ (attempt _) => apply emits_attempt
  | |- emits _ (catch_null _) => apply emits_catch_null
  | |- emits _ (ret _) => apply emits_ret
  | |- emits _ (throw _) => apply emits_throw
  | |- emits _ (call _ _ _) => apply emits_call; intros ?
  | |- emits _ (console_log _) => apply emits_log
  | |- emits _ (if ?b then _ else _) => destruct b
  | |- emits _ (match ?x with _ => _ end) => destruct x
  end.

Ltac emits_walk := repeat emits_step.

Ltac raises_step :=
  match goal with
  | |- raises _ (bind _ _) => apply raises_bind; [|intros ?]
  | |- raises _ (try_catch _ _) => apply raises_try_catch; intros ?
  | |- raises _ (try_finally _ _) => apply raises_try_finally
  | |- raises _ (attempt _) => apply raises_attempt
  | |- raises _ (catch_null _) => apply raises_catch_null
  | |- raises _ (ret _) => apply raises_ret
  | |- raises _ (throw _) => apply raises_throw
  | |- raises _ (call _ _ _) => apply raises_call; intros ?
  | |- raises _ (console_log _) => apply raises_log
  | |- raises _ (if ?b then _ else _) => destruct b
  | |- raises _ (match ?x with _ => _ end) => destruct x
  end.

Ltac raises_walk := repeat raises_step.

Ltac keeps_step :=
  match goal with
  | |- keeps _ (bind _ _) => apply keeps_bind; [|intros ?]
  | |- keeps _ (try_catch _ _) => apply keeps_try_catch; [|intros ?]
  | |- keeps _ (try_finally _ _) => apply keeps_try_finally
  | |- keeps _ (attempt _) => apply keeps_attempt
  | |- keeps _ (catch_null _) => apply keeps_catch_null
  | |- keeps _ (ret _) => apply keeps_ret
  | |- keeps _ (throw _) => apply keeps_throw
  | |- keeps _ (call _ _ _) => apply keeps_call; intros ?
  | |- keeps _ (console_log _) => apply keeps_log
  | |- keeps _ (if ?b then _ else _) => destruct b
  | |- keeps _ (match ?x with _ => _ end) => destruct x
  end.

Ltac keeps_walk := repeat keeps_step.

Section Phases.

Context {W : Type}.
Variable os : OS W.
Variable proc : process.

Lemma plumbing_verify linkPath wantTarget :
  emits plumbing (verifyLinkPointsTo os proc linkPath wantTarget).
Proof.
  unfold verifyLinkPointsTo, lstat, readlink. emits_walk; exact I.
Qed.

Lemma plumbing_isSymlink p : emits plumbing (isSymlink os p).
Proof. unfold isSymlink, lstat. emits_walk; exact I. Qed.

Lemma plumbing_exists p : emits plumbing (exists_ os p).
Proof. unfold exists_, lstat. emits_walk; exact I. Qed.

Lemma plumbing_preflight : emits plumbing (windowsJunctionPreflight os proc).
Proof.
  unfold windowsJunctionPreflight.
  emits_walk; try apply plumbing_verify; unfold mkdir, symlink, rm; emits_walk; exact I.
Qed.

Lemma plumbing_relocate : emits plumbing (relocate os proc).
Proof.
  unfold relocate.
  emits_walk; try apply plumbing_exists; try apply plumbing_isSymlink;
    unfold mkdir, rename, rm; emits_walk; exact I.
Qed.

Lemma plumbing_preflight_gate : emits plumbing (preflight_gate os proc).
Proof.
  unfold preflight_gate. emits_walk; try apply plumbing_preflight.
Qed.

Lemma plumbing_create_link : emits plumbing (create_link os proc).
Proof. unfold create_link, symlink. emits_walk; exact I. Qed.

Lemma plumbing_verify_link : emits plumbing (verify_link os proc).
Proof.
  unfold verify_link.
  emits_walk; try apply plumbing_verify; unfold rm; emits_walk; exact I.
Qed.

End Phases.

(** Case analysis on the next call of the interface in the goal. *)
Ltac os_case :=
  match goal with
  | |- context [fsp_mkdir ?o ?p ?w] =>
      destruct (fsp_mkdir o p w) as [[[]|?] ?] eqn:?
  | |- context [fsp_lstat ?o ?p ?w] =>
      destruct (fsp_lstat o p w) as [[[]|?] ?] eqn:?
  | |- context [fsp_readlink ?o ?p ?w] =>
      destruct (fsp_readlink o p w) as [[?|?] ?] eqn:?
  | |- context [fsp_rename ?o ?p ?q ?w] =>
      destruct (fsp_rename o p q w) as [[[]|?] ?] eqn:?
  | |- context [fsp_rm ?o ?p ?w] =>
      destruct (fsp_rm o p w) as [[[]|?] ?] eqn:?
  | |- context [fsp_symlink ?o ?t ?p ?ty ?w] =>
      destruct (fsp_symlink o t p ty w) as [[[]|?] ?] eqn:?
  | |- context [fsp_readdir ?o ?p ?w] =>
      destruct (fsp_readdir o p w) as [[[|? ?]|?] ?] eqn:?
  | |- context [spawn_npm_install ?o ?w] =>
      destruct (spawn_npm_install o w) as [[[|?]|] ?] eqn:?
  end.

Ltac unfold_run :=
  unfold bind, try_catch, attempt, catch_null, try_finally, call, ret, throw,
    console_log, result_of, world_of, trace_of.

Ltac run_cases := repeat (os_case; simpl).

Section Gate.

Context {W : Type}.
Variable os : OS W.
Variable proc : process.

Lemma installs_app t1 t2 : installs (t1 ++ t2) = installs t1 + installs t2.
Proof. unfold installs. by rewrite filter_app, length_app. Qed.

Lemma plumbing_installs t : Forall plumbing t -> installs t = 0.
Proof.
  induction 1 as [|e t He _ IH]; [done|].
  unfold installs in *. destruct e; simpl in *; done.
Qed.

Lemma plumbing_no_readdir t p r : Forall plumbing t -> ~ In (EvReaddir p r) t.
Proof.
  intros Ht Hin. rewrite Forall_forall in Ht.
  apply (Ht (EvReaddir p r)). by apply list_elem_of_In.
Qed.

Lemma reached_linked_app_r t1 t2 :
  reached_linked proc t2 -> reached_linked proc (t1 ++ t2).
Proof. unfold reached_linked. rewrite !in_app_iff. tauto. Qed.

Lemma gate_prefix t1 t2 : Forall plumbing t1 -> gate proc t2 -> gate proc (t1 ++ t2).
Proof.
  intros H1 (Hle & Hdir & Hone). unfold gate.
  rewrite installs_app, (plumbing_installs _ H1). simpl.
  split; [done|]. split.
  - intros names [Hin|Hin]%in_app_iff.
    + by apply plumbing_no_readdir in Hin.
    + destruct (Hdir _ Hin). split; [by apply reached_linked_app_r|done].
  - intros. by apply reached_linked_app_r, Hone.
Qed.

Lemma gate_plumbing t : Forall plumbing t -> gate proc t.
Proof.
  intros Ht. unfold gate. rewrite (plumbing_installs _ Ht).
  split; [lia|]. split; [|done].
  intros names Hin. by apply plumbing_no_readdir in Hin.
Qed.

Lemma gated_bind {A B} (m : M W A) (f : A -> M W B) :
  emits plumbing m -> (forall a, gated proc (f a)) -> gated proc (bind m f).
Proof.
  intros Hm Hf w. rewrite bind_run. specialize (Hm w).
  destruct (result_of (m w)); simpl.
  - apply gate_prefix; [done|apply Hf].
  - by apply gate_plumbing.
Qed.

Lemma gated_plumbing {A} (m : M W A) : emits plumbing m -> gated proc m.
Proof. intros Hm w. apply gate_plumbing, Hm. Qed.

End Gate.

(** Settles the gate on a trace that is written out. *)
Ltac gate_solve :=
  unfold gate, installs, reached_linked, already_linked_line, linked_line;
  simpl; repeat split; intros;
  repeat match goal with
         | H : _ \/ _ |- _ => destruct H
         | H : False |- _ => destruct H
         | H : EvReaddir _ _ = EvReaddir _ _ |- _ => injection H as ?; subst
         | H : _ = _ |- _ => discriminate H
         end;
  simpl; try lia; try (left; left; reflexivity); try (right; left; reflexivity);
  try (left; right; left; reflexivity); auto.

Section GateProof.

Context {W : Type}.
Variable os : OS W.
Variable proc : process.

Lemma gated_install_after_linked w :
  gate proc (trace_of (bind (console_log (linked_line_text proc))
                            (fun _ => install_if_empty os proc) w)).
Proof.
  unfold install_if_empty, runNpmInstall, spawn, readdir. unfold_run.
  run_cases; gate_solve.
Qed.

Lemma gated_verify_install :
  gated proc (bind (verify_link os proc) (fun _ => install_if_empty os proc)).
Proof.
  intros w. unfold verify_link. rewrite bind_assoc. revert w.
  apply gated_bind; [apply plumbing_verify|]. intros [|]; simpl.
  - intros w. apply gated_install_after_linked.
  - intros w. unfold rm. unfold_run. run_cases; gate_solve.
Qed.

Lemma gated_fresh_link : gated proc (fresh_link os proc).
Proof.
  unfold fresh_link.
  apply gated_bind; [apply plumbing_relocate|intros _].
  apply gated_bind; [apply plumbing_preflight_gate|intros _].
  apply gated_bind; [apply plumbing_create_link|intros _].
  apply gated_verify_install.
Qed.

Lemma gated_already_linked : gated proc (already_linked os proc).
Proof.
  unfold already_linked.
  apply gated_bind; [apply plumbing_verify|]. intros [|]; simpl.
  - intros w. unfold exists_, lstat, readdir, runNpmInstall, spawn. unfold_run.
    run_cases; gate_solve.
  - apply gated_plumbing. emits_walk.
Qed.


End GateProof.

Section Composition.

Context {W : Type}.
Variable os : OS W.
Variable proc : process.

Lemma bind_ext {A B} (m : M W A) (f g : A -> M W B) w :
  (forall a w', f a w' = g a w') -> bind m f w = bind m g w.
Proof.
  intros H. unfold bind. destruct (m w) as [[[a|e] w1] t1]; [|done].
  by rewrite H.
Qed.

Lemma fresh_link_split w :
  fresh_link os proc w =
  bind (bind (relocate os proc)
          (fun _ => bind (preflight_gate os proc) (fun _ => create_link os proc)))
       (fun _ => bind (verify_link os proc) (fun _ => install_if_empty os proc)) w.
Proof.
  unfold fresh_link. rewrite bind_assoc. apply bind_ext. intros _ w'.
  by rewrite bind_assoc.
Qed.

Lemma main_fresh w0 w1 t1 w2 t2 :
  mkdir os (storeDir proc) w0 = (Ok tt, w1, t1) ->
  isSymlink os (nmPath proc) w1 = (Ok false, w2, t2) ->
  main os proc w0 =
  (result_of (fresh_link os proc w2), world_of (fresh_link os proc w2),
   t1 ++ t2 ++ trace_of (fresh_link os proc w2)).
Proof.
  intros H1 H2. unfold main.
  rewrite (bind_ok _ _ _ _ _ _ H1), (bind_ok _ _ _ _ _ _ H2). reflexivity.
Qed.

Lemma main_linked w0 w1 t1 w2 t2 :
  mkdir os (storeDir proc) w0 = (Ok tt, w1, t1) ->
  isSymlink os (nmPath proc) w1 = (Ok true, w2, t2) ->
  main os proc w0 =
  (result_of (already_linked os proc w2), world_of (already_linked os proc w2),
   t1 ++ t2 ++ trace_of (already_linked os proc w2)).
Proof.
  intros H1 H2. unfold main.
  rewrite (bind_ok _ _ _ _ _ _ H1), (bind_ok _ _ _ _ _ _ H2). reflexivity.
Qed.

(** C3. Whatever the operating system does: when the run has created the
    link at the slot and the read-back of the slot does not lead to the cache
    target, the run asks for the slot to be removed (ignoring how that call
    ends), and ends with [LinkVerificationFailed]; the final world is the one
    that removal leaves, so wherever a removed path is absent afterwards,
    nothing is left at the slot. *)
Theorem verification_gate w0 w1 t1 w2 t2 w3 t3 w4 t4 :
  mkdir os (storeDir proc) w0 = (Ok tt, w1, t1) ->
  isSymlink os (nmPath proc) w1 = (Ok false, w2, t2) ->
  bind (relocate os proc)
    (fun _ => bind (preflight_gate os proc) (fun _ => create_link os proc)) w2
  = (Ok tt, w3, t3) ->
  verifyLinkPointsTo os proc (nmPath proc) (target proc) w3 = (Ok false, w4, t4) ->
  main os proc w0 =
    (Err (LinkVerificationFailed (target proc)),
     snd (fsp_rm os (nmPath proc) w4),
     t1 ++ t2 ++ t3 ++ t4 ++
     [EvRm (nmPath proc) (fst (fsp_rm os (nmPath proc) w4))]) /\
  ((forall w, fst (fsp_lstat os (nmPath proc) (snd (fsp_rm os (nmPath proc) w)))
              = Err ENOENT) ->
   fst (fsp_lstat os (nmPath proc) (world_of (main os proc w0))) = Err ENOENT).
Proof.
  intros H1 H2 H3 H4.
  assert (main os proc w0 =
    (Err (LinkVerificationFailed (target proc)),
     snd (fsp_rm os (nmPath proc) w4),
     t1 ++ t2 ++ t3 ++ t4 ++
     [EvRm (nmPath proc) (fst (fsp_rm os (nmPath proc) w4))])) as Hmain.
  { rewrite (main_fresh _ _ _ _ _ H1 H2), fresh_link_split.
    rewrite (bind_ok _ _ _ _ _ _ H3).
    unfold verify_link. rewrite bind_assoc, (bind_ok _ _ _ _ _ _ H4). simpl.
    unfold rm. unfold_run.
    destruct (fsp_rm os (nmPath proc) w4) as [[[]|c] w5]; reflexivity. }
  split; [exact Hmain|].
  intros Hlaw. rewrite Hmain. unfold world_of. simpl. apply Hlaw.
Qed.

End Composition.

Section WholeRun.

Context {W : Type}.
Variable os : OS W.
Variable proc : process.

(** A property of a run that survives a prefix of quiet events carries over
    a step that emits only such events. *)
Lemma run_bind {A B} (P : event -> Prop) (E : error -> Prop)
  (Q : result error B -> list event -> Prop) (m : M W A) (f : A -> M W B) :
  emits P m -> raises E m ->
  (forall e t, E e -> Forall P t -> Q (Err e) t) ->
  (forall t1 r t2, Forall P t1 -> Q r t2 -> Q r (t1 ++ t2)) ->
  (forall a w, Q (result_of (f a w)) (trace_of (f a w))) ->
  forall w, Q (result_of (bind m f w)) (trace_of (bind m f w)).
Proof.
  intros Hm Hr Herr Hpre Hf w. rewrite bind_run.
  specialize (Hm w). specialize (Hr w).
  destruct (result_of (m w)) as [a|e]; unfold result_of, trace_of; simpl.
  - apply Hpre; [done|]. apply Hf.
  - apply Herr; [by apply Hr|done].
Qed.

Lemma own_verify l t : raises own_error (verifyLinkPointsTo os proc l t).
Proof. unfold verifyLinkPointsTo. raises_walk. Qed.

Lemma own_isSymlink p : raises own_error (isSymlink os p).
Proof. unfold isSymlink. raises_walk. Qed.

Lemma own_relocate : raises own_error (relocate os proc).
Proof.
  unfold relocate, exists_, isSymlink, mkdir, rename. raises_walk; exact I.
Qed.

Lemma own_preflight_gate : raises own_error (preflight_gate os proc).
Proof.
  unfold preflight_gate, windowsJunctionPreflight. raises_walk; exact I.
Qed.

Lemma own_create_link : raises own_error (create_link os proc).
Proof. unfold create_link. raises_walk; exact I. Qed.

Lemma own_mkdir p : raises own_error (mkdir os p).
Proof. unfold mkdir. raises_walk; exact I. Qed.

(** The installer's failure is reported only for an installer that was run
    and did not exit with 0. *)
Definition installer_blamed (r : result error unit) (tr : list event) : Prop :=
  forall code, r = Err (InstallerFailure code) ->
    In (EvSpawn code) tr /\ code <> Some 0%N.

Lemma installer_blamed_err e t :
  own_error e -> Forall plumbing t -> installer_blamed (Err e) t.
Proof. intros He _ code [= ->]. destruct He. Qed.

Lemma installer_blamed_prefix (P : event -> Prop) t1 r t2 :
  Forall P t1 -> installer_blamed r t2 -> installer_blamed r (t1 ++ t2).
Proof.
  intros _ H code Hr. destruct (H code Hr). split; [|done].
  apply in_app_iff. by right.
Qed.

Ltac blamed_solve :=
  unfold installer_blamed; simpl; intros ? [= <-];
  split; [auto 10|discriminate].

Lemma installer_blamed_install w :
  installer_blamed (result_of (install_if_empty os proc w))
                   (trace_of (install_if_empty os proc w)).
Proof.
  unfold install_if_empty, runNpmInstall, spawn, readdir. unfold_run.
  run_cases; try blamed_solve; intros ? [=].
Qed.

Lemma installer_blamed_fresh w :
  installer_blamed (result_of (fresh_link os proc w))
                   (trace_of (fresh_link os proc w)).
Proof.
  revert w. unfold fresh_link.
  apply (run_bind plumbing own_error);
    [apply plumbing_relocate|apply own_relocate|apply installer_blamed_err
    |apply installer_blamed_prefix|intros _].
  apply (run_bind plumbing own_error);
    [apply plumbing_preflight_gate|apply own_preflight_gate|apply installer_blamed_err
    |apply installer_blamed_prefix|intros _].
  apply (run_bind plumbing own_error);
    [apply plumbing_create_link|apply own_create_link|apply installer_blamed_err
    |apply installer_blamed_prefix|intros _].
  apply (run_bind plumbing own_error);
    [apply plumbing_verify_link| |apply installer_blamed_err
    |apply installer_blamed_prefix|intros _; apply installer_blamed_install].
  unfold verify_link. raises_walk; try apply own_verify; exact I.
Qed.

Lemma installer_blamed_linked w :
  installer_blamed (result_of (already_linked os proc w))
                   (trace_of (already_linked os proc w)).
Proof.
  revert w. unfold already_linked.
  apply (run_bind plumbing own_error);
    [apply plumbing_verify|apply own_verify|apply installer_blamed_err
    |apply installer_blamed_prefix|].
  intros [|] w; simpl.
  - unfold exists_, lstat, readdir, runNpmInstall, spawn. unfold_run.
    run_cases; try blamed_solve; intros ? [=].
  - intros ? [=].
Qed.

Lemma installer_blamed_main w :
  installer_blamed (result_of (main os proc w)) (trace_of (main os proc w)).
Proof.
  revert w. unfold main.
  apply (run_bind plumbing own_error);
    [unfold mkdir; emits_walk; exact I|apply own_mkdir|apply installer_blamed_err
    |apply installer_blamed_prefix|intros _].
  apply (run_bind plumbing own_error);
    [apply plumbing_isSymlink|apply own_isSymlink|apply installer_blamed_err
    |apply installer_blamed_prefix|].
  intros [|]; [apply installer_blamed_linked|apply installer_blamed_fresh].
Qed.

(** C8, as the script has it. The exit status is 0 when help is asked for
    or [main] succeeds, and 1 for every error that [main] ends with; in
    particular it is 1 when the installer, run by this script, exited with
    another code, which only the text of the error shows. *)
Theorem exit_status (w : W) :
  result_of (script os proc w) =
    (if help_asked proc then 0
     else match result_of (main os proc w) with Ok _ => 0 | Err _ => 1 end)%N /\
  (forall code,
     help_asked proc = false ->
     result_of (main os proc w) = Err (InstallerFailure code) ->
     In (EvSpawn code) (trace_of (script os proc w)) /\
     code <> Some 0%N /\
     result_of (script os proc w) = 1%N /\
     In (EvError ("npm install failed (" +:+
                  match code with Some c => decimal c | None => "null" end +:+ ")"))
        (trace_of (script os proc w))).
Proof.
  unfold script, help_asked. split.
  - destruct (help_asked_of (argv proc)); [done|].
    rewrite (run_eta (main os proc w)).
    by destruct (result_of (main os proc w)).
  - intros code -> Hr. pose proof (installer_blamed_main w code Hr) as [Hin Hne].
    rewrite (run_eta (main os proc w)), Hr.
    unfold result_of, trace_of; simpl.
    rewrite !in_app_iff. simpl. auto 10.
Qed.

(** The first thing a run does is to make the cache root. *)
Lemma main_starts_with_mkdir (w : W) :
  exists r rest,
    trace_of (main os proc w) = EvMkdir (storeDir proc) r :: rest /\
    (forall c, r = Err c ->
       rest = [] /\
       result_of (main os proc w) = Err (FsError "mkdir" c (storeDir proc))).
Proof.
  unfold main.
  destruct (mkdir os (storeDir proc) w) as [[r1 w1] t1] eqn:Hmk.
  pose proof Hmk as Hcall. unfold mkdir, call in Hcall.
  destruct (fsp_mkdir os (storeDir proc) w) as [[[]|c] w1'];
    injection Hcall as <- <- <-.
  - rewrite (bind_ok _ _ _ _ _ _ Hmk). unfold trace_of at 1; simpl.
    eexists _, _. split; [reflexivity|]. discriminate.
  - rewrite (bind_err _ _ _ _ _ _ Hmk). unfold trace_of, result_of; simpl.
    eexists _, _. split; [reflexivity|]. by intros ? [= <-].
Qed.

Ltac other_solve :=
  unfold other_than, already_linked_line, linked_line, already_linked_text,
    linked_line_text; simpl; discriminate.

Lemma fresh_never_says_already_linked :
  emits (other_than (already_linked_line proc)) (fresh_link os proc).
Proof.
  unfold fresh_link, relocate, preflight_gate, windowsJunctionPreflight,
    create_link, verify_link, install_if_empty, runNpmInstall, exists_,
    isSymlink, verifyLinkPointsTo, mkdir, lstat, readlink, rename, rm, symlink,
    readdir.
  emits_walk; try other_solve.
  all: intros w; unfold spawn, trace_of;
    destruct (spawn_npm_install os w) as [[[|?]|] ?]; simpl;
    repeat constructor; other_solve.
Qed.

Lemma linked_never_says_linked :
  emits (other_than (linked_line proc)) (already_linked os proc).
Proof.
  unfold already_linked, runNpmInstall, exists_, verifyLinkPointsTo, lstat,
    readlink, readdir.
  emits_walk; try other_solve.
  all: intros w; unfold spawn, trace_of;
    destruct (spawn_npm_install os w) as [[[|?]|] ?]; simpl;
    repeat constructor; other_solve.
Qed.

Lemma mkdir_trace p w r w1 t1 :
  mkdir os p w = (r, w1, t1) -> exists r', t1 = [EvMkdir p r'].
Proof.
  unfold mkdir, call. destruct (fsp_mkdir os p w) as [[[]|c] w'];
    intros [= <- <- <-]; eauto.
Qed.

Lemma isSymlink_run p w r w1 t1 :
  isSymlink os p w = (r, w1, t1) ->
  exists b st, r = Ok b /\ t1 = [EvLstat p st] /\
    (b = true -> st = Ok FtSymlink).
Proof.
  unfold isSymlink, lstat. unfold_run.
  destruct (fsp_lstat os p w) as [[[]|c] w']; simpl;
    intros [= <- <- <-]; eexists _, _; (split; [reflexivity|]);
    (split; [reflexivity|]); done.
Qed.

Lemma Forall_not_In (l : event) t :
  Forall (other_than l) t -> ~ In l t.
Proof.
  intros Ht Hin. rewrite Forall_forall in Ht.
  by apply (Ht l); [apply list_elem_of_In|].
Qed.

(** Which branch a run took, read off the line it printed. *)
Lemma main_branches w :
  (exists r e w1, main os proc w = (Err e, w1, [EvMkdir (storeDir proc) r])) \/
  (exists r w2,
     main os proc w =
       (result_of (already_linked os proc w2), world_of (already_linked os proc w2),
        [EvMkdir (storeDir proc) r] ++ [EvLstat (nmPath proc) (Ok FtSymlink)] ++
        trace_of (already_linked os proc w2))) \/
  (exists r st w2,
     main os proc w =
       (result_of (fresh_link os proc w2), world_of (fresh_link os proc w2),
        [EvMkdir (storeDir proc) r] ++ [EvLstat (nmPath proc) st] ++
        trace_of (fresh_link os proc w2))).
Proof.
  destruct (mkdir os (storeDir proc) w) as [[[[]|e1] w1] t1] eqn:H1.
  - destruct (mkdir_trace _ _ _ _ _ H1) as [r1 ->].
    destruct (isSymlink os (nmPath proc) w1) as [[r2 w2] t2] eqn:H2.
    destruct (isSymlink_run _ _ _ _ _ H2) as (b & st & -> & -> & Hb).
    destruct b.
    + right; left. rewrite (main_linked os proc _ _ _ _ _ H1 H2), (Hb eq_refl).
      by exists r1, w2.
    + right; right. rewrite (main_fresh os proc _ _ _ _ _ H1 H2).
      by exists r1, st, w2.
  - left. destruct (mkdir_trace _ _ _ _ _ H1) as [r1 ->].
    unfold main. rewrite (bind_err _ _ _ _ _ _ H1). by exists r1, e1, w1.
Qed.

Lemma missing_cache_install w c :
  In (already_linked_line proc) (trace_of (already_linked os proc w)) ->
  In (EvLstat (target proc) (Err c)) (trace_of (already_linked os proc w)) ->
  installs (trace_of (already_linked os proc w)) = 1 /\
  (result_of (already_linked os proc w) = Ok tt \/
   exists code, result_of (already_linked os proc w) = Err (InstallerFailure code)).
Proof.
  unfold already_linked, verifyLinkPointsTo, exists_, runNpmInstall, spawn,
    lstat, readlink, readdir, already_linked_line, installs.
  unfold_run. os_case; simpl; [| |os_case; simpl | ].
  all: repeat match goal with
         | |- context [if ?b then _ else _] => destruct b eqn:?; simpl
         end.
  all: run_cases.
  all: intros H1 H2;
    repeat match goal with
           | H : _ \/ _ |- _ => destruct H
           | H : False |- _ => destruct H
           | H : _ = _ |- _ => discriminate H
           end.
  all: eauto.
Qed.

Lemma unreadable_cache_fatal w c :
  In (EvReaddir (target proc) (Err c)) (trace_of (fresh_link os proc w)) ->
  result_of (fresh_link os proc w) = Err (FsError "scandir" c (target proc)) /\
  installs (trace_of (fresh_link os proc w)) = 0.
Proof.
  revert w.
  set (Q := fun (r : result error unit) tr =>
    In (EvReaddir (target proc) (Err c)) tr ->
    r = Err (FsError "scandir" c (target proc)) /\ installs tr = 0).
  assert (Herr : forall e t, True -> Forall plumbing t -> Q (Err e) t).
  { intros e t _ Ht Hin. by apply plumbing_no_readdir in Hin. }
  assert (Hpre : forall t1 r t2, Forall plumbing t1 -> Q r t2 -> Q r (t1 ++ t2)).
  { intros t1 r t2 Ht HQ [Hin|Hin]%in_app_iff.
    - by apply plumbing_no_readdir in Hin.
    - rewrite installs_app, (plumbing_installs _ Ht). by apply HQ. }
  change (forall w, Q (result_of (fresh_link os proc w)) (trace_of (fresh_link os proc w))).
  unfold fresh_link.
  apply (run_bind plumbing (fun _ => True));
    [apply plumbing_relocate|done|exact Herr|exact Hpre|intros _].
  apply (run_bind plumbing (fun _ => True));
    [apply plumbing_preflight_gate|done|exact Herr|exact Hpre|intros _].
  apply (run_bind plumbing (fun _ => True));
    [apply plumbing_create_link|done|exact Herr|exact Hpre|intros _].
  apply (run_bind plumbing (fun _ => True));
    [apply plumbing_verify_link|done|exact Herr|exact Hpre|intros _ w].
  unfold Q, install_if_empty, runNpmInstall, spawn, readdir, installs. unfold_run.
  run_cases; intros H;
    repeat match goal with
           | H : _ \/ _ |- _ => destruct H
           | H : False |- _ => destruct H
           | H : EvReaddir _ _ = EvReaddir _ _ |- _ => injection H as ?; subst
           | H : _ = _ |- _ => discriminate H
           end; done.
Qed.

(** C7, as the script has it. When the slot is already linked and the
    cache target is missing, the installer is started (once), and the run
    ends well or with the installer's failure.  When the run has just made
    the link and listing the cache target fails, the run ends with that
    failure and the installer is not started. *)
Theorem unreadable_cache (w : W) :
  let run := main os proc w in
  (In (already_linked_line proc) (trace_of run) ->
   forall c, In (EvLstat (target proc) (Err c)) (trace_of run) ->
     installs (trace_of run) = 1 /\
     (result_of run = Ok tt \/
      exists code, result_of run = Err (InstallerFailure code))) /\
  (In (linked_line proc) (trace_of run) ->
   forall c, In (EvReaddir (target proc) (Err c)) (trace_of run) ->
     result_of run = Err (FsError "scandir" c (target proc)) /\
     installs (trace_of run) = 0).
Proof.
  simpl.
  destruct (main_branches w) as
    [(r & e & w1 & ->)|[(r & w2 & ->)|(r & st & w2 & ->)]];
    unfold trace_of at 1 2 3 4 5 6, result_of at 1 2 3; simpl.
  - split; intros [H|[]]; discriminate H.
  - split.
    + intros [H|[H|Hal]]; [discriminate H|discriminate H|].
      intros c [H|[H|Hc]]; [discriminate H|discriminate H|].
      unfold installs; simpl. exact (missing_cache_install w2 c Hal Hc).
    + intros [H|[H|Hl]]; [discriminate H|discriminate H|].
      by apply (Forall_not_In _ _ (linked_never_says_linked w2)) in Hl.
  - split.
    + intros [H|[H|Hal]]; [discriminate H|discriminate H|].
      by apply (Forall_not_In _ _ (fresh_never_says_already_linked w2)) in Hal.
    + intros _ c [H|[H|Hc]]; [discriminate H|discriminate H|].
      unfold installs; simpl. exact (unreadable_cache_fatal w2 c Hc).
Qed.

End WholeRun.

(** ** The cache target, once the run is [Linked] *)

Section Examined.

Context {W : Type}.
Variable os : OS W.
Variable proc : process.



















End Examined.

(** ** Runs told call by call *)

Section CallByCall.

Context {W : Type}.
Variable os : OS W.
Variable proc : process.

Lemma slot_look_isSymlink : emits (slot_look proc) (isSymlink os (nmPath proc)).
Proof. unfold isSymlink, lstat. emits_walk; reflexivity. Qed.

Lemma slot_look_exists : emits (slot_look proc) (exists_ os (nmPath proc)).
Proof. unfold exists_, lstat. emits_walk; reflexivity. Qed.

Lemma slot_look_verify :
  emits (slot_look proc) (verifyLinkPointsTo os proc (nmPath proc) (target proc)).
Proof. unfold verifyLinkPointsTo, lstat, readlink. emits_walk; reflexivity. Qed.

Lemma slot_look_installs t : Forall (slot_look proc) t -> installs t = 0.
Proof.
  induction 1 as [|e t He _ IH]; [done|].
  unfold installs in *. destruct e; simpl in *; done.
Qed.

(** C1, as the script has it. When making the cache root succeeds and the
    slot is a link that the script's check does not accept, the run ends
    with [LinkMismatch] and the installer is not started; after the call that
    makes the cache root the run only looks at the slot, with [lstat] and
    [readlink]: where looking changes nothing, the world the run ends in is
    the one in which the cache root was made. *)
Theorem stale_link_fails_closed w0 w1 t1 w2 t2 w3 t3 :
  mkdir os (storeDir proc) w0 = (Ok tt, w1, t1) ->
  isSymlink os (nmPath proc) w1 = (Ok true, w2, t2) ->
  verifyLinkPointsTo os proc (nmPath proc) (target proc) w2 = (Ok false, w3, t3) ->
  main os proc w0 = (Err (LinkMismatch (target proc)), w3, t1 ++ t2 ++ t3) /\
  t1 = [EvMkdir (storeDir proc) (Ok tt)] /\
  Forall (slot_look proc) (t2 ++ t3) /\
  installs (t1 ++ t2 ++ t3) = 0 /\
  ((forall p w, snd (fsp_lstat os p w) = w) ->
   (forall p w, snd (fsp_readlink os p w) = w) ->
   w1 = snd (fsp_mkdir os (storeDir proc) w0) /\ w3 = w1).
Proof.
  intros H1 H2 H3.
  assert (Forall (slot_look proc) (t2 ++ t3)) as Hlook.
  { apply Forall_app. split.
    - pose proof (slot_look_isSymlink w1) as He. by rewrite H2 in He.
    - pose proof (slot_look_verify w2) as He. by rewrite H3 in He. }
  assert (t1 = [EvMkdir (storeDir proc) (Ok tt)] /\
          w1 = snd (fsp_mkdir os (storeDir proc) w0)) as [Ht1 Hw1].
  { revert H1. unfold mkdir, call.
    destruct (fsp_mkdir os (storeDir proc) w0) as [[[]|c] w']; by intros [= <- <-]. }
  split; [|split; [exact Ht1|split; [exact Hlook|split]]].
  - assert (already_linked os proc w2
            = (Err (LinkMismatch (target proc)), w3, t3)) as Hal.
    { unfold already_linked. rewrite (bind_ok _ _ _ _ _ _ H3). simpl.
      by rewrite app_nil_r. }
    by rewrite (main_linked _ _ _ _ _ _ _ H1 H2), Hal.
  - rewrite installs_app, (slot_look_installs _ Hlook), Ht1. reflexivity.
  - intros Hl Hr. split; [exact Hw1|].
    assert (keeps (fun w => w) (isSymlink os (nmPath proc))) as K2
      by (unfold isSymlink, lstat; keeps_walk; apply Hl).
    assert (keeps (fun w => w)
              (verifyLinkPointsTo os proc (nmPath proc) (target proc))) as K3
      by (unfold verifyLinkPointsTo, lstat, readlink; keeps_walk;
          first [apply Hl|apply Hr]).
    specialize (K2 w1). specialize (K3 w2). rewrite H2 in K2. rewrite H3 in K3.
    unfold world_of in *. simpl in *. congruence.
Qed.

(** The relocation of something that is at the slot and is not a link, call
    by call: the cache target is made, then the slot is renamed onto it, and
    only when that is accepted is the slot removed. *)
Lemma relocate_moves w2 w3 t3 w4 t4 w5 rn w6 :
  exists_ os (nmPath proc) w2 = (Ok true, w3, t3) ->
  isSymlink os (nmPath proc) w3 = (Ok false, w4, t4) ->
  fsp_mkdir os (target proc) w4 = (Ok tt, w5) ->
  fsp_rename os (nmPath proc) (target proc) w5 = (rn, w6) ->
  relocate os proc w2 =
    match rn with
    | Ok _ =>
        (Ok tt, snd (fsp_rm os (nmPath proc) w6),
         t3 ++ t4 ++
         [EvMkdir (target proc) (Ok tt);
          EvRename (nmPath proc) (target proc) (Ok tt);
          EvLog ("Moved node_modules to " +:+ target proc);
          EvRm (nmPath proc) (fst (fsp_rm os (nmPath proc) w6))])
    | Err c =>
        (Err (FsError "rename" c (nmPath proc)), w6,
         t3 ++ t4 ++
         [EvMkdir (target proc) (Ok tt);
          EvRename (nmPath proc) (target proc) (Err c)])
    end.
Proof.
  intros H3 H4 H5 H6. unfold relocate.
  rewrite (bind_ok _ _ _ _ _ _ H3). simpl.
  rewrite bind_assoc, (bind_ok _ _ _ _ _ _ H4). simpl.
  unfold mkdir, rename, rm. unfold_run. simpl. rewrite H5. simpl. rewrite H6.
  destruct rn as [[]|c]; simpl.
  - by destruct (fsp_rm os (nmPath proc) w6) as [[[]|c] w7].
  - reflexivity.
Qed.

Lemma tmpLink_not_slot : tmpLink proc <> nmPath proc.
Proof.
  intros E. apply (f_equal (fun p => path.resolve_segs "/" [p])) in E.
  unfold tmpLink, nmPath in E.
  rewrite !resolve_segs_join in E by reflexivity.
  by apply app_inj_tail in E as [_ ?].
Qed.

Lemma no_link_mkdir p : emits (no_link_at (nmPath proc)) (mkdir os p).
Proof. unfold mkdir. emits_walk; exact I. Qed.

Lemma no_link_isSymlink p : emits (no_link_at (nmPath proc)) (isSymlink os p).
Proof. unfold isSymlink, lstat. emits_walk; exact I. Qed.

Lemma no_link_exists p : emits (no_link_at (nmPath proc)) (exists_ os p).
Proof. unfold exists_, lstat. emits_walk; exact I. Qed.

Lemma no_link_preflight :
  emits (no_link_at (nmPath proc)) (windowsJunctionPreflight os proc).
Proof.
  unfold windowsJunctionPreflight, verifyLinkPointsTo, mkdir, symlink, rm,
    lstat, readlink.
  emits_walk; try exact I. apply tmpLink_not_slot.
Qed.

Lemma no_link_relocate : emits (no_link_at (nmPath proc)) (relocate os proc).
Proof.
  unfold relocate, exists_, isSymlink, mkdir, rename, rm, lstat.
  emits_walk; exact I.
Qed.

(** C4, as the script has it. On Windows, when the junction preflight
    fails the run ends with [LinkUnsupported] and makes no link at the slot.
    The preflight runs on the world that the relocation step has left, whose
    last call asked for the slot to be removed; and where something that is
    not a link was at the slot, the cache target was made and the rename
    accepted, the relocation step has renamed the slot onto the cache target
    before that. *)
Theorem preflight_after_relocation w0 w1 t1 w2 t2 w3 t3 w4 t4 :
  isWin proc = true ->
  mkdir os (storeDir proc) w0 = (Ok tt, w1, t1) ->
  isSymlink os (nmPath proc) w1 = (Ok false, w2, t2) ->
  relocate os proc w2 = (Ok tt, w3, t3) ->
  windowsJunctionPreflight os proc w3 = (Ok false, w4, t4) ->
  main os proc w0 = (Err LinkUnsupported, w4, t1 ++ t2 ++ t3 ++ t4) /\
  Forall (no_link_at (nmPath proc)) (t1 ++ t2 ++ t3 ++ t4) /\
  (exists t3' w3' r,
     t3 = t3' ++ [EvRm (nmPath proc) r] /\
     fsp_rm os (nmPath proc) w3' = (r, w3)) /\
  (forall wa ta wb tb wc wd,
     exists_ os (nmPath proc) w2 = (Ok true, wa, ta) ->
     isSymlink os (nmPath proc) wa = (Ok false, wb, tb) ->
     fsp_mkdir os (target proc) wb = (Ok tt, wc) ->
     fsp_rename os (nmPath proc) (target proc) wc = (Ok tt, wd) ->
     w3 = snd (fsp_rm os (nmPath proc) wd) /\
     t3 = ta ++ tb ++
          [EvMkdir (target proc) (Ok tt);
           EvRename (nmPath proc) (target proc) (Ok tt);
           EvLog ("Moved node_modules to " +:+ target proc);
           EvRm (nmPath proc) (fst (fsp_rm os (nmPath proc) wd))]).
Proof.
  intros Hwin H1 H2 H3 H4.
  split; [|split; [|split]].
  - rewrite (main_fresh _ _ _ _ _ _ _ H1 H2). unfold fresh_link.
    rewrite (bind_ok _ _ _ _ _ _ H3).
    unfold preflight_gate. rewrite Hwin.
    rewrite bind_assoc, (bind_ok _ _ _ _ _ _ H4). simpl.
    unfold_run. simpl. by rewrite !app_nil_r.
  - pose proof (no_link_mkdir (storeDir proc) w0) as E1. rewrite H1 in E1.
    pose proof (no_link_isSymlink (nmPath proc) w1) as E2. rewrite H2 in E2.
    pose proof (no_link_relocate w2) as E3. rewrite H3 in E3.
    pose proof (no_link_preflight w3) as E4. rewrite H4 in E4.
    by repeat (apply Forall_app; split).
  - clear H4. unfold relocate in H3.
    rewrite <- !bind_assoc in H3. rewrite bind_run in H3.
    destruct (result_of _) as [a|e] eqn:Hr in H3; [|done].
    match type of H3 with
    | context [world_of ?x] => set (wa := world_of x) in *; set (ta := trace_of x) in *
    end.
    unfold attempt, rm, call, result_of, world_of, trace_of in H3.
    destruct (fsp_rm os (nmPath proc) wa) as [r w5] eqn:Hrm.
    exists ta, wa, r.
    destruct r as [[]|c]; simpl in H3; injection H3 as <- <-; done.
  - intros wa ta wb tb wc wd Ha Hb Hc Hd.
    pose proof (relocate_moves _ _ _ _ _ _ _ _ Ha Hb Hc Hd) as Hrel.
    simpl in Hrel. rewrite H3 in Hrel. by injection Hrel as -> ->.
Qed.

Lemma create_link_run w :
  exists made r w',
    create_link os proc w =
      (r, w', [EvSymlink (target proc) (nmPath proc) (linkType_of_platform proc) made]).
Proof.
  unfold create_link, symlink. unfold_run.
  destruct (fsp_symlink os (target proc) (nmPath proc)
              (linkType_of_platform proc) w) as [[[]|c] w']; simpl; eauto.
Qed.

(** C5, as the script has it. With something at the slot that is not a
    link, the run makes the cache target if need be and asks for the slot to
    be renamed onto it; up to there it has only looked at the slot, it has
    not listed the cache target, and it merges nothing.  When the operating
    system refuses the rename the run ends with that refusal, the rename
    being its last call; when the rename is accepted the run removes the
    slot and, once past the preflight, goes on to make the link. *)
Theorem nonempty_cache_blocks_move w0 w1 t1 w2 t2 w3 t3 w4 t4 w5 rn w6 :
  mkdir os (storeDir proc) w0 = (Ok tt, w1, t1) ->
  isSymlink os (nmPath proc) w1 = (Ok false, w2, t2) ->
  exists_ os (nmPath proc) w2 = (Ok true, w3, t3) ->
  isSymlink os (nmPath proc) w3 = (Ok false, w4, t4) ->
  fsp_mkdir os (target proc) w4 = (Ok tt, w5) ->
  fsp_rename os (nmPath proc) (target proc) w5 = (rn, w6) ->
  Forall (slot_look proc) (t2 ++ t3 ++ t4) /\
  (forall c, rn = Err c ->
     main os proc w0 =
       (Err (FsError "rename" c (nmPath proc)), w6,
        t1 ++ t2 ++ t3 ++ t4 ++
        [EvMkdir (target proc) (Ok tt);
         EvRename (nmPath proc) (target proc) (Err c)])) /\
  (rn = Ok tt ->
   forall w8 t8,
     preflight_gate os proc (snd (fsp_rm os (nmPath proc) w6)) = (Ok tt, w8, t8) ->
     exists made rest,
       trace_of (main os proc w0) =
         t1 ++ t2 ++ t3 ++ t4 ++
         [EvMkdir (target proc) (Ok tt);
          EvRename (nmPath proc) (target proc) (Ok tt);
          EvLog ("Moved node_modules to " +:+ target proc);
          EvRm (nmPath proc) (fst (fsp_rm os (nmPath proc) w6))] ++ t8 ++
         EvSymlink (target proc) (nmPath proc) (linkType_of_platform proc) made
         :: rest).
Proof.
  intros H1 H2 H3 H4 H5 H6.
  pose proof (relocate_moves _ _ _ _ _ _ _ _ H3 H4 H5 H6) as Hrel.
  split; [|split].
  - pose proof (slot_look_isSymlink w1) as E2. rewrite H2 in E2.
    pose proof (slot_look_exists w2) as E3. rewrite H3 in E3.
    pose proof (slot_look_isSymlink w3) as E4. rewrite H4 in E4.
    by repeat (apply Forall_app; split).
  - intros c ->. rewrite (main_fresh _ _ _ _ _ _ _ H1 H2). unfold fresh_link.
    rewrite (bind_err _ _ _ _ _ _ Hrel). reflexivity.
  - intros -> w8 t8 H8. rewrite (main_fresh _ _ _ _ _ _ _ H1 H2). unfold fresh_link.
    rewrite (bind_ok _ _ _ _ _ _ Hrel), (bind_ok _ _ _ _ _ _ H8).
    destruct (create_link_run w8) as (made & r9 & w9 & Hc).
    exists made.
    destruct r9 as [[]|e].
    + rewrite (bind_ok _ _ _ _ _ _ Hc). eexists.
      unfold trace_of. simpl. by rewrite <- !app_assoc.
    + rewrite (bind_err _ _ _ _ _ _ Hc). exists [].
      unfold trace_of. simpl. by rewrite <- !app_assoc.
Qed.

End CallByCall.


(** ** The script on the in-memory file system *)

Arguments nmPath : simpl never.
Arguments target : simpl never.
Arguments storeDir : simpl never.
Arguments memfs.phys : simpl never.
Arguments normalizeForCompare : simpl never.
Arguments path.resolve : simpl never.
Arguments path.dirname : simpl never.
Arguments already_linked_text : simpl never.
Arguments linked_line_text : simpl never.

Section OnMemfs.

Variable proc : process.
Variable npm : node -> option N * node.

Local Abbreviation phys := (memfs.phys (cwd proc)).
Local Abbreviation os := (memfs.os (cwd proc) npm).

Lemma phys_nmPath : phys (nmPath proc) = phys (projectDir proc) ++ ["node_modules"].
Proof. by apply resolve_segs_join. Qed.

Lemma phys_target : phys (target proc) = phys (storeDir proc) ++ [hash proc].
Proof. apply resolve_segs_join, sha1_hex_plain. Qed.

Lemma slot_not_root : phys (nmPath proc) <> [].
Proof. rewrite phys_nmPath. by destruct (phys (projectDir proc)). Qed.

Lemma slot_not_cache : phys (nmPath proc) <> phys (target proc).
Proof.
  rewrite phys_nmPath, phys_target. intros [_ E]%app_inj_tail.
  by apply (hash_not_node_modules proc).
Qed.

Lemma storeDir_above_target : phys (storeDir proc) `prefix_of` phys (target proc).
Proof. rewrite phys_target. by apply prefix_app_r. Qed.

Lemma mkdir_memfs p w w1 t1 :
  mkdir os p w = (Ok tt, w1, t1) -> memfs.mkdirp (phys p) w = Ok w1.
Proof.
  unfold mkdir, call. simpl. unfold memfs.mkdir.
  destruct (memfs.mkdirp (phys p) w); [by intros [= <- _]|discriminate].
Qed.

Lemma isSymlink_memfs p w b w1 t1 :
  isSymlink os p w = (Ok b, w1, t1) ->
  w1 = w /\
  b = match memfs.get (phys p) w with Some (Link _) => true | _ => false end.
Proof.
  unfold isSymlink, lstat. unfold_run. simpl. unfold memfs.lstat.
  destruct (memfs.get (phys p) w) as [[| |]|]; simpl; by intros [= <- <- _].
Qed.

(** What the relocation step does to a real directory at the slot. *)
Lemma relocate_memfs w w' t T :
  memfs.get (phys (nmPath proc)) w = Some (Dir T) ->
  relocate os proc w = (Ok tt, w', t) ->
  exists w2 w3,
    memfs.mkdirp (phys (target proc)) w = Ok w2 /\
    memfs.rename_tree (phys (nmPath proc)) (phys (target proc)) w2 = Ok w3 /\
    w' = memfs.remove (phys (nmPath proc)) w3.
Proof.
  intros Hslot. unfold relocate, exists_, isSymlink, mkdir, rename, rm, lstat.
  unfold_run. simpl. unfold memfs.lstat, memfs.mkdir, memfs.rename, memfs.rm.
  repeat (rewrite Hslot; simpl).
  destruct (memfs.mkdirp (phys (target proc)) w) as [w2|e] eqn:Hmk; simpl;
    [|discriminate].
  destruct (memfs.rename_tree _ _ w2) as [w3|e] eqn:Hmv; simpl; [|discriminate].
  destruct (phys (nmPath proc)) as [|x a]; intros [= <- _]; by exists w2, w3.
Qed.

Lemma create_link_memfs w w' t :
  create_link os proc w = (Ok tt, w', t) ->
  memfs.get (phys (nmPath proc)) w = None /\
  memfs.put (phys (nmPath proc)) (Link (target proc)) w = Some w'.
Proof.
  unfold create_link, symlink. unfold_run. simpl. unfold memfs.symlink.
  destruct (memfs.get (phys (nmPath proc)) w); simpl; [discriminate|].
  destruct (memfs.put _ _ w); simpl; [|discriminate]. by intros [= <- _].
Qed.

Lemma verify_link_memfs w w' t raw :
  memfs.get (phys (nmPath proc)) w = Some (Link raw) ->
  verify_link os proc w = (Ok tt, w', t) ->
  w' = w /\ resolves_to_target proc raw = true.
Proof.
  intros Hslot. unfold verify_link, verifyLinkPointsTo, lstat, readlink, rm.
  unfold_run. simpl. unfold memfs.lstat, memfs.readlink, memfs.rm.
  repeat (rewrite Hslot; simpl). unfold resolves_to_target.
  destruct (String.eqb raw ""); simpl.
  - destruct (phys (nmPath proc)); simpl; discriminate.
  - destruct (String.eqb _ _); simpl; [by intros [= <- _]|].
    destruct (phys (nmPath proc)); simpl; discriminate.
Qed.

Lemma phys_tmpTarget : phys (tmpTarget proc) = phys (tmpRoot proc) ++ ["tgt"].
Proof. by apply resolve_segs_join. Qed.

Lemma phys_tmpLink : phys (tmpLink proc) = phys (tmpRoot proc) ++ ["lnk"].
Proof. by apply resolve_segs_join. Qed.

Lemma memfs_mkdir_frame p w q :
  ~ q `prefix_of` phys p -> memfs.get q (snd (memfs.mkdir (cwd proc) p w)) = memfs.get q w.
Proof.
  intros Hq. unfold memfs.mkdir.
  destruct (memfs.mkdirp (phys p) w) eqn:Hmk; [|done]. by eapply mkdirp_frame.
Qed.

Lemma memfs_symlink_frame tgt p ty w q :
  apart (phys p) q ->
  memfs.get q (snd (memfs.symlink (cwd proc) tgt p ty w)) = memfs.get q w.
Proof.
  intros [H1 H2]. unfold memfs.symlink.
  destruct (memfs.get (phys p) w); [done|].
  destruct (memfs.put (phys p) (Link tgt) w) eqn:Hput; [|done].
  by eapply put_frame.
Qed.

Lemma memfs_rm_frame p w q :
  apart (phys p) q -> memfs.get q (snd (memfs.rm (cwd proc) p w)) = memfs.get q w.
Proof. intros [H1 H2]. by apply remove_frame. Qed.

Lemma memfs_lstat_world p w : snd (memfs.lstat (cwd proc) p w) = w.
Proof. unfold memfs.lstat. by destruct (memfs.get (phys p) w). Qed.

Lemma memfs_readlink_world p w : snd (memfs.readlink (cwd proc) p w) = w.
Proof. unfold memfs.readlink. by destruct (memfs.get (phys p) w) as [[| |]|]. Qed.

Lemma keeps_verify {X} (obs : node -> X) l t :
  keeps obs (verifyLinkPointsTo os proc l t).
Proof.
  unfold verifyLinkPointsTo, lstat, readlink. keeps_walk; simpl;
    by rewrite ?memfs_lstat_world, ?memfs_readlink_world.
Qed.

(** The junction preflight leaves alone whatever is apart from its
    throwaway directory. *)
Lemma preflight_memfs_frame q :
  apart (phys (tmpRoot proc)) q ->
  keeps (memfs.get q) (windowsJunctionPreflight os proc).
Proof.
  intros Hapart.
  pose proof (apart_snoc _ _ "tgt" Hapart) as Ht.
  pose proof (apart_snoc _ _ "lnk" Hapart) as Hl.
  rewrite <- phys_tmpTarget in Ht. rewrite <- phys_tmpLink in Hl.
  unfold windowsJunctionPreflight, mkdir, symlink, rm.
  keeps_walk; try apply keeps_verify; simpl.
  - apply memfs_mkdir_frame, Ht.
  - by apply memfs_symlink_frame.
  - by apply memfs_rm_frame.
  - by apply memfs_rm_frame.
  - by apply memfs_rm_frame.
Qed.

Lemma preflight_gate_memfs w w' t q :
  (isWin proc = true -> apart (phys (tmpRoot proc)) q) ->
  preflight_gate os proc w = (Ok tt, w', t) ->
  memfs.get q w' = memfs.get q w.
Proof.
  intros Hq. unfold preflight_gate. destruct (isWin proc).
  - intros H. apply bind_ok_inv in H as (ok & w1 & t1 & t2 & Hpre & Hrest & _).
    pose proof (preflight_memfs_frame q (Hq eq_refl) w) as Hk.
    rewrite Hpre in Hk. unfold world_of in Hk; simpl in Hk.
    destruct ok; simpl in Hrest; [|discriminate].
    by injection Hrest as <- _.
  - by intros [= <- _].
Qed.

Lemma install_memfs w w' t T :
  memfs.get (phys (target proc)) w = Some (Dir T) ->
  install_if_empty os proc w = (Ok tt, w', t) ->
  In (EvReaddir (target proc) (Ok (memfs.names T))) t /\
  (T <> ∅ -> w' = w) /\
  (T = ∅ -> npm w = (Some 0%N, w')).
Proof.
  intros Hcache. unfold install_if_empty, runNpmInstall, spawn, readdir.
  unfold_run. simpl. unfold memfs.readdir. rewrite Hcache. simpl.
  destruct (Nat.eqb (List.length (memfs.names T)) 0) eqn:Hlen.
  - apply Nat.eqb_eq, names_empty in Hlen. simpl.
    destruct (npm w) as [[[|c]|] w2]; simpl; try discriminate.
    intros [= <- <-]. split; [by left|]. split; [done|]. by intros _.
  - apply Nat.eqb_neq in Hlen. simpl. intros [= <- <-].
    split; [by left|]. split; [done|]. intros ->. destruct Hlen. by apply names_empty.
Qed.

(** On this file system, and on its stand-ins that only meddle with links,
    a slot that has been removed is absent. *)
Lemma removed_slot_is_absent (wrong : string) (w : node) :
  fst (fsp_lstat (misdirecting os wrong) (nmPath proc)
         (snd (fsp_rm (misdirecting os wrong) (nmPath proc) w))) = Err ENOENT.
Proof.
  simpl. unfold memfs.lstat, memfs.rm. simpl.
  by rewrite (remove_gone _ _ _ slot_not_root).
Qed.

Lemma memfs_mkdir_makes_dir p root root1 t :
  mkdir os p root = (Ok tt, root1, t) ->
  exists es, memfs.get (phys p) root1 = Some (Dir es).
Proof. intros H. apply mkdir_memfs in H. by eapply mkdirp_is_dir. Qed.

(** C2. From a real directory at the slot, a run
    that succeeds reaches a tree in which the cache target holds exactly what
    the slot held and the slot is a link that leads to the cache target.
    When the directory had an entry, that tree is the final one and the
    installer was not started; when it was empty, the installer was started
    once on that tree and the final tree is what the installer left.  (On
    Windows the throwaway directory of the preflight must be apart from the
    slot and the cache target.) *)
Theorem relocation_keeps_tree (root root' : node) (tr : list event)
  (T : gmap string node) :
  memfs.get (phys (nmPath proc)) root = Some (Dir T) ->
  (isWin proc = true ->
   apart (phys (tmpRoot proc)) (phys (nmPath proc)) /\
   apart (phys (tmpRoot proc)) (phys (target proc))) ->
  main os proc root = (Ok tt, root', tr) ->
  exists linked,
    memfs.get (phys (target proc)) linked = Some (Dir T) /\
    memfs.get (phys (nmPath proc)) linked = Some (Link (target proc)) /\
    resolves_to_target proc (target proc) = true /\
    (T <> ∅ -> root' = linked /\ installs tr = 0) /\
    (T = ∅ -> npm linked = (Some 0%N, root') /\ installs tr = 1).
Proof.
  intros Hslot Htmp Hmain.
  unfold main in Hmain.
  apply bind_ok_inv in Hmain as ([] & w1 & t1 & t1' & Hmk & Hmain & ->).
  assert (Hquiet1 : installs t1 = 0).
  { apply plumbing_installs.
    assert (emits plumbing (mkdir os (storeDir proc))) as He
      by (unfold mkdir; emits_walk; exact I).
    specialize (He root). by rewrite Hmk in He. }
  apply mkdir_memfs in Hmk.
  destruct (mkdirp_keeps_dir _ _ _ _ _ Hmk Hslot) as [T1 Hslot1].
  apply bind_ok_inv in Hmain as (linked & w2 & t2 & t2' & Hsym & Hmain & ->).
  assert (Hquiet2 : installs t2 = 0).
  { apply plumbing_installs.
    pose proof (plumbing_isSymlink os (nmPath proc) w1) as He.
    by rewrite Hsym in He. }
  apply isSymlink_memfs in Hsym as [-> ->]. rewrite Hslot1 in Hmain.
  pose proof (gated_fresh_link os proc w1) as Hgate.
  rewrite Hmain in Hgate. unfold trace_of in Hgate; simpl in Hgate.
  destruct Hgate as (_ & Hgate & _).
  unfold fresh_link in Hmain.
  apply bind_ok_inv in Hmain as ([] & w3 & t3 & t3' & Hrel & Hmain & ->).
  apply bind_ok_inv in Hmain as ([] & w4 & t4 & t4' & Hpre & Hmain & ->).
  apply bind_ok_inv in Hmain as ([] & w5 & t5 & t5' & Hlink & Hmain & ->).
  apply bind_ok_inv in Hmain as ([] & w6 & t6 & t6' & Hver & Hinst & ->).
  destruct (relocate_memfs _ _ _ _ Hslot1 Hrel) as (w2' & w3r & Hmk2 & Hmv & ->).
  destruct (rename_tree_ok _ _ _ _ Hmv slot_not_cache)
    as (moved & Hmoved & Hab & Hput & Hdst).
  destruct (mkdirp_is_dir _ _ _ Hmk2) as [es2 Hb2].
  destruct (Hdst _ Hb2) as [-> _].
  assert (Hac : ~ phys (nmPath proc) `prefix_of` phys (storeDir proc)).
  { intros H. apply Hab. etrans; [exact H|apply storeDir_above_target]. }
  rewrite (mkdirp_frame _ _ _ _ Hmk Hac), Hslot in Hslot1.
  injection Hslot1 as <-.
  assert (Ha2 : memfs.get (phys (nmPath proc)) w2' = Some (Dir T)).
  { rewrite (mkdirp_frame _ _ _ _ Hmk2 Hab), (mkdirp_frame _ _ _ _ Hmk Hac). done. }
  rewrite Ha2 in Hmoved. injection Hmoved as <-.
  assert (Hba : ~ phys (target proc) `prefix_of` phys (nmPath proc)).
  { intros [k Hk]. destruct k as [|x k].
    - rewrite app_nil_r in Hk. by apply slot_not_cache.
    - rewrite Hk in Ha2.
      pose proof (get_below_dir _ _ _ _ _ Hb2 Ha2) as Hbelow.
      by rewrite get_empty_dir in Hbelow. }
  assert (Hb3 : memfs.get (phys (target proc))
                  (memfs.remove (phys (nmPath proc)) w3r) = Some (Dir T)).
  { rewrite remove_frame by done. by eapply put_get. }
  assert (Ha3 : memfs.get (phys (nmPath proc))
                  (memfs.remove (phys (nmPath proc)) w3r) = None).
  { apply remove_gone; [apply slot_not_root|done]. }
  assert (Hb4 : memfs.get (phys (target proc)) w4 = Some (Dir T)).
  { rewrite (preflight_gate_memfs _ _ _ _ (fun H => proj2 (Htmp H)) Hpre). done. }
  apply create_link_memfs in Hlink as [_ Hlink].
  assert (Ha5 : memfs.get (phys (nmPath proc)) w5 = Some (Link (target proc)))
    by (by eapply put_get).
  assert (Hb5 : memfs.get (phys (target proc)) w5 = Some (Dir T)).
  { rewrite (put_frame _ _ _ _ _ Hlink) by done. done. }
  destruct (verify_link_memfs _ _ _ _ Ha5 Hver) as [-> Hres].
  destruct (install_memfs _ _ _ _ Hb5 Hinst) as (Hin & Hfull & Hempty).
  assert (Hinstalls : installs (t1 ++ t2 ++ t3 ++ t4 ++ t5 ++ t6 ++ t6') =
            if Nat.eqb (List.length (memfs.names T)) 0 then 1 else 0).
  { rewrite (installs_app t1), (installs_app t2), Hquiet1, Hquiet2. simpl.
    apply Hgate. rewrite !in_app_iff. auto 10. }
  exists w5. repeat split; try done.
  - by apply Hfull.
  - rewrite Hinstalls.
    destruct (Nat.eqb_spec (List.length (memfs.names T)) 0) as [E|_]; [|done].
    by apply names_empty in E.
  - by apply Hempty.
  - rewrite Hinstalls. subst T. by rewrite (proj2 (names_empty ∅)).
Qed.

End OnMemfs.

(** ** The cache locator *)

(** C9. With the platform (its name, the home directory and LOCALAPPDATA)
    and the override held fixed, the cache target is a function of the
    project path alone, and two project paths whose SHA-1 digests differ get
    different cache targets. *)
Theorem cache_target_determined (p1 p2 : process) :
  platform p1 = platform p2 ->
  env_EXTERNAL_NODE_MODULES_DIR p1 = env_EXTERNAL_NODE_MODULES_DIR p2 ->
  env_LOCALAPPDATA p1 = env_LOCALAPPDATA p2 ->
  homedir p1 = homedir p2 ->
  (cwd p1 = cwd p2 -> target p1 = target p2) /\
  (crypto.sha1_hex (cwd p1) <> crypto.sha1_hex (cwd p2) -> target p1 <> target p2).
Proof.
  intros Hplat Hover Hlocal Hhome.
  assert (Hstore : storeDir p1 = storeDir p2).
  { unfold storeDir, defaultStoreDir, isWin.
    by rewrite Hplat, Hover, Hlocal, Hhome. }
  unfold target, hash, projectDir. rewrite Hstore. split.
  - by intros ->.
  - intros Hne Heq. apply Hne.
    apply (f_equal (fun p => path.resolve_segs "/" [p])) in Heq.
    rewrite !resolve_segs_join in Heq by apply sha1_hex_plain.
    by apply app_inj_tail in Heq as [_ ?].
Qed.

Lemma cache_target_determined_witness :
  platform linux_app = platform (in_directory "/work/other" linux_app) /\
  crypto.sha1_hex "/work/app" <> crypto.sha1_hex "/work/other" /\
  target linux_app <> target (in_directory "/work/other" linux_app).
Proof.
  split; [reflexivity|].
  assert (crypto.sha1_hex "/work/app" <> crypto.sha1_hex "/work/other") as Hne
    by (vm_compute; discriminate).
  split; [exact Hne|].
  apply (cache_target_determined linux_app (in_directory "/work/other" linux_app));
    [reflexivity|reflexivity|reflexivity|reflexivity|exact Hne].
Defined.

(** ** Runs on example worlds *)

(** C10. Every run starts by making the cache root, before it looks at the
    slot, and stops there when that fails; a run for help touches nothing;
    on the in-memory file system the cache root is a directory afterwards;
    and a run that ends with [LinkMismatch], the slot as it was, has
    nevertheless made the cache root. *)
Theorem cache_root_first :
  (forall W (os : OS W) proc w,
     exists r rest,
       trace_of (main os proc w) = EvMkdir (storeDir proc) r :: rest /\
       (forall c, r = Err c ->
          rest = [] /\
          result_of (main os proc w) = Err (FsError "mkdir" c (storeDir proc)))) /\
  (forall W (os : OS W) proc w,
     if help_asked proc
     then script os proc w = (0%N, w, [EvLog HELP_TEXT; EvExit 0%N])
     else exists r rest,
       trace_of (script os proc w) = EvMkdir (storeDir proc) r :: rest) /\
  (forall proc npm root root1 t,
     mkdir (memfs.os (cwd proc) npm) (storeDir proc) root = (Ok tt, root1, t) ->
     exists es,
       memfs.get (memfs.phys (cwd proc) (storeDir proc)) root1 = Some (Dir es)) /\
  (let run := main linux_os linux_app stale_root in
   result_of run = Err (LinkMismatch (target linux_app)) /\
   memfs.get slot_path (world_of run) = memfs.get slot_path stale_root /\
   memfs.get cache_root_path stale_root = None /\
   memfs.get cache_root_path (world_of run) = Some (Dir ∅)).
Proof.
  split; [intros; apply main_starts_with_mkdir|].
  split; [|split].
  - intros W os proc w. unfold script, help_asked.
    destruct (help_asked_of (argv proc)); [reflexivity|].
    destruct (main_starts_with_mkdir os proc w) as (r & rest & Htr & _).
    rewrite (run_eta (main os proc w)), Htr.
    destruct (result_of (main os proc w)); unfold trace_of; simpl; eauto.
  - intros proc npm root root1 t. apply memfs_mkdir_makes_dir.
  - vm_compute. repeat split; reflexivity.
Qed.

(** C1: a stale link whose directory holds the cache root is changed by
    the run, and a run that cannot make the cache root does not get as far
    as reporting the mismatch. *)
Lemma stale_link_fails_closed_counterexample :
  (let proc := with_cache_root "/elsewhere/cache" linux_app in
   let run := main linux_os proc stale_root in
   memfs.get slot_path stale_root = Some (Link "/elsewhere") /\
   result_of run = Err (LinkMismatch (target proc)) /\
   memfs.get ["elsewhere"] (world_of run) <> memfs.get ["elsewhere"] stale_root /\
   memfs.get ["elsewhere"; "cache"] stale_root = None /\
   memfs.get ["elsewhere"; "cache"] (world_of run) = Some (Dir ∅)) /\
  (let proc := with_cache_root "/work/app/package.json" linux_app in
   let run := main linux_os proc stale_root in
   result_of run = Err (FsError "mkdir" EEXIST "/work/app/package.json") /\
   result_of run <> Err (LinkMismatch (target proc))).
Proof.
  split.
  - vm_compute. repeat split; try reflexivity. discriminate.
  - vm_compute. split; [reflexivity|discriminate].
Qed.

Lemma stale_link_fails_closed_witness :
  memfs.get slot_path stale_root = Some (Link "/elsewhere") /\
  main linux_os linux_app stale_root =
    (Err (LinkMismatch (target linux_app)), stale_root_with_cache,
     [EvMkdir (storeDir linux_app) (Ok tt);
      EvLstat (nmPath linux_app) (Ok FtSymlink);
      EvLstat (nmPath linux_app) (Ok FtSymlink);
      EvReadlink (nmPath linux_app) (Ok "/elsewhere")]) /\
  stale_root_with_cache = snd (fsp_mkdir linux_os (storeDir linux_app) stale_root).
Proof.
  destruct (stale_link_fails_closed linux_os linux_app stale_root
              stale_root_with_cache [EvMkdir (storeDir linux_app) (Ok tt)]
              stale_root_with_cache [EvLstat (nmPath linux_app) (Ok FtSymlink)]
              stale_root_with_cache
              [EvLstat (nmPath linux_app) (Ok FtSymlink);
               EvReadlink (nmPath linux_app) (Ok "/elsewhere")])
    as (Hrun & _ & _ & _ & Hlaw).
  - vm_compute. reflexivity.
  - vm_compute. reflexivity.
  - vm_compute. reflexivity.
  - split; [vm_compute; reflexivity|]. split; [exact Hrun|].
    apply Hlaw.
    + intros p w. exact (memfs_lstat_world linux_app p w).
    + intros p w. exact (memfs_readlink_world linux_app p w).
Defined.

(** Finds an event in a trace that is written out. *)
Ltac in_trace := vm_compute; repeat (first [left; reflexivity | right]).

Lemma relocation_keeps_tree_witness :
  (memfs.get (memfs.phys (cwd linux_app) (nmPath linux_app)) real_root
   = Some (dir left_pad) /\
   exists linked,
     memfs.get (memfs.phys (cwd linux_app) (target linux_app)) linked
     = Some (dir left_pad) /\
     memfs.get (memfs.phys (cwd linux_app) (nmPath linux_app)) linked
     = Some (Link (target linux_app)) /\
     world_of (main linux_os linux_app real_root) = linked) /\
  (memfs.get (memfs.phys (cwd windows_app) (nmPath windows_app)) real_root
   = Some (dir left_pad) /\
   exists linked,
     memfs.get (memfs.phys (cwd windows_app) (target windows_app)) linked
     = Some (dir left_pad) /\
     memfs.get (memfs.phys (cwd windows_app) (nmPath windows_app)) linked
     = Some (Link (target windows_app)) /\
     world_of (main windows_os windows_app real_root) = linked).
Proof.
  assert (list_to_map left_pad <> (∅ : gmap string node)) as Hfull.
  { intros E.
    apply (f_equal (fun m : gmap string node => m !! "left-pad")) in E.
    vm_compute in E. discriminate E. }
  split.
  - split; [vm_compute; reflexivity|].
    destruct (relocation_keeps_tree linux_app (npm_idle (Some 0%N)) real_root
                (world_of (main linux_os linux_app real_root))
                (trace_of (main linux_os linux_app real_root))
                (list_to_map left_pad))
      as (linked & Hcache & Hslot & _ & Hrest & _).
    + vm_compute. reflexivity.
    + intros E. discriminate E.
    + vm_compute. reflexivity.
    + exists linked. split; [exact Hcache|]. split; [exact Hslot|].
      exact (proj1 (Hrest Hfull)).
  - split; [vm_compute; reflexivity|].
    destruct (relocation_keeps_tree windows_app (npm_idle (Some 0%N)) real_root
                (world_of (main windows_os windows_app real_root))
                (trace_of (main windows_os windows_app real_root))
                (list_to_map left_pad))
      as (linked & Hcache & Hslot & _ & Hrest & _).
    + vm_compute. reflexivity.
    + intros _. repeat split; vm_compute; intros [k Hk]; discriminate Hk.
    + vm_compute. reflexivity.
    + exists linked. split; [exact Hcache|]. split; [exact Hslot|].
      exact (proj1 (Hrest Hfull)).
Defined.

(** C5: with entries already in the cache target the move is refused and
    the run fails; no link is made. *)
Lemma nonempty_cache_blocks_move_counterexample :
  let run := main linux_os linux_app full_cache_root in
  memfs.get slot_path full_cache_root = Some (dir left_pad) /\
  memfs.get cache_path full_cache_root = Some (dir [("old", File "kept")]) /\
  result_of run = Err (FsError "rename" ENOTEMPTY (nmPath linux_app)) /\
  world_of run = full_cache_root /\
  trace_of run =
    [EvMkdir (storeDir linux_app) (Ok tt);
     EvLstat (nmPath linux_app) (Ok FtDir);
     EvLstat (nmPath linux_app) (Ok FtDir);
     EvLstat (nmPath linux_app) (Ok FtDir);
     EvMkdir (target linux_app) (Ok tt);
     EvRename (nmPath linux_app) (target linux_app) (Err ENOTEMPTY)].
Proof. vm_compute. repeat split; reflexivity. Qed.

Lemma nonempty_cache_blocks_move_witness :
  memfs.get (memfs.phys (cwd linux_app) (target linux_app)) full_cache_root
  = Some (dir [("old", File "kept")]) /\
  main linux_os linux_app full_cache_root =
    (Err (FsError "rename" ENOTEMPTY (nmPath linux_app)), full_cache_root,
     [EvMkdir (storeDir linux_app) (Ok tt);
      EvLstat (nmPath linux_app) (Ok FtDir);
      EvLstat (nmPath linux_app) (Ok FtDir);
      EvLstat (nmPath linux_app) (Ok FtDir);
      EvMkdir (target linux_app) (Ok tt);
      EvRename (nmPath linux_app) (target linux_app) (Err ENOTEMPTY)]).
Proof.
  split; [vm_compute; reflexivity|].
  destruct (nonempty_cache_blocks_move linux_os linux_app full_cache_root
              full_cache_root [EvMkdir (storeDir linux_app) (Ok tt)]
              full_cache_root [EvLstat (nmPath linux_app) (Ok FtDir)]
              full_cache_root [EvLstat (nmPath linux_app) (Ok FtDir)]
              full_cache_root [EvLstat (nmPath linux_app) (Ok FtDir)]
              full_cache_root (Err ENOTEMPTY) full_cache_root)
    as (_ & Hrefused & _).
  - vm_compute. reflexivity.
  - vm_compute. reflexivity.
  - vm_compute. reflexivity.
  - vm_compute. reflexivity.
  - vm_compute. reflexivity.
  - vm_compute. reflexivity.
  - exact (Hrefused ENOTEMPTY eq_refl).
Defined.

(** C3 at work: an operating system that misdirects every link. *)
Lemma verification_gate_witness :
  let os := misdirecting linux_os "/elsewhere" in
  let run := main os linux_app bare_root in
  In (EvSymlink (target linux_app) (nmPath linux_app) DirLink (Ok tt)) (trace_of run) /\
  result_of run = Err (LinkVerificationFailed (target linux_app)) /\
  fst (fsp_lstat os (nmPath linux_app) (world_of run)) = Err ENOENT.
Proof.
  intros os run.
  set (s1 := mkdir os (storeDir linux_app) bare_root).
  set (s2 := isSymlink os (nmPath linux_app) (world_of s1)).
  set (s3 := bind (relocate os linux_app)
               (fun _ => bind (preflight_gate os linux_app)
                           (fun _ => create_link os linux_app)) (world_of s2)).
  set (s4 := verifyLinkPointsTo os linux_app (nmPath linux_app) (target linux_app)
               (world_of s3)).
  destruct (verification_gate os linux_app bare_root
              (world_of s1) (trace_of s1) (world_of s2) (trace_of s2)
              (world_of s3) (trace_of s3) (world_of s4) (trace_of s4))
    as [Hrun Habsent].
  - vm_compute. reflexivity.
  - vm_compute. reflexivity.
  - vm_compute. reflexivity.
  - vm_compute. reflexivity.
  - split; [in_trace|]. split.
    + subst run. by rewrite Hrun.
    + apply Habsent. intros w.
      exact (removed_slot_is_absent linux_app (npm_idle (Some 0%N)) "/elsewhere" w).
Defined.

(** C4: on Windows without the right to make links, the preflight fails
    after the dependency directory has been moved and the slot removed. *)
Lemma preflight_after_relocation_counterexample :
  let run := main (without_links windows_os) windows_app real_root in
  isWin windows_app = true /\
  memfs.get slot_path real_root = Some (dir left_pad) /\
  result_of run = Err LinkUnsupported /\
  memfs.get slot_path (world_of run) = None /\
  memfs.get windows_cache_path (world_of run) = Some (dir left_pad) /\
  In (EvRename (nmPath windows_app) (target windows_app) (Ok tt)) (trace_of run) /\
  In (EvRm (nmPath windows_app) (Ok tt)) (trace_of run).
Proof.
  intros run. split; [reflexivity|].
  split; [vm_compute; reflexivity|]. split; [vm_compute; reflexivity|].
  split; [vm_compute; reflexivity|]. split; [vm_compute; reflexivity|].
  split; in_trace.
Qed.

Lemma preflight_after_relocation_witness :
  let os := without_links windows_os in
  let run := main os windows_app real_root in
  result_of run = Err LinkUnsupported /\
  Forall (no_link_at (nmPath windows_app)) (trace_of run) /\
  In (EvRename (nmPath windows_app) (target windows_app) (Ok tt)) (trace_of run).
Proof.
  intros os run.
  set (s1 := mkdir os (storeDir windows_app) real_root).
  set (s2 := isSymlink os (nmPath windows_app) (world_of s1)).
  set (s3 := relocate os windows_app (world_of s2)).
  set (s4 := windowsJunctionPreflight os windows_app (world_of s3)).
  destruct (preflight_after_relocation os windows_app real_root
              (world_of s1) (trace_of s1) (world_of s2) (trace_of s2)
              (world_of s3) (trace_of s3) (world_of s4) (trace_of s4))
    as (Hrun & Hno & _ & Hmoved).
  - reflexivity.
  - vm_compute. reflexivity.
  - vm_compute. reflexivity.
  - vm_compute. reflexivity.
  - vm_compute. reflexivity.
  - set (sa := exists_ os (nmPath windows_app) (world_of s2)).
    set (sb := isSymlink os (nmPath windows_app) (world_of sa)).
    set (sc := fsp_mkdir os (target windows_app) (world_of sb)).
    set (sd := fsp_rename os (nmPath windows_app) (target windows_app) (snd sc)).
    destruct (Hmoved (world_of sa) (trace_of sa) (world_of sb) (trace_of sb)
                (snd sc) (snd sd)) as [_ Ht3].
    + vm_compute. reflexivity.
    + vm_compute. reflexivity.
    + vm_compute. reflexivity.
    + vm_compute. reflexivity.
    + subst run. rewrite Hrun.
      split; [reflexivity|]. split; [exact Hno|].
      change (In (EvRename (nmPath windows_app) (target windows_app) (Ok tt))
                (trace_of s1 ++ trace_of s2 ++ trace_of s3 ++ trace_of s4)).
      rewrite Ht3.
      apply in_or_app; right. apply in_or_app; right. apply in_or_app; left.
      apply in_or_app; right. apply in_or_app; right.
      right. left. reflexivity.
Defined.

(** C7: a cache target that cannot be listed ends the run; the installer
    is not started. *)
Lemma unreadable_cache_counterexample :
  let run := main (unreadable linux_os) linux_app bare_root in
  In (linked_line linux_app) (trace_of run) /\
  In (EvReaddir (target linux_app) (Err EACCES)) (trace_of run) /\
  result_of run = Err (FsError "scandir" EACCES (target linux_app)) /\
  installs (trace_of run) = 0.
Proof.
  intros run. split; [in_trace|]. split; [in_trace|].
  split; vm_compute; reflexivity.
Qed.

(** C8: the installer exits with 2, the script with 1, and so does the
    wrapper around it. *)
Lemma exit_status_counterexample :
  let out := script linux_os_failing linux_app bare_root in
  In (EvSpawn (Some 2%N)) (trace_of out) /\
  In (EvError "npm install failed (2)") (trace_of out) /\
  result_of out = 1%N /\
  result_of out <> 2%N /\
  result_of (npm_setup linux_os_failing linux_app bare_root) = 1%N.
Proof.
  intros out. split; [in_trace|]. split; [in_trace|].
  split; [vm_compute; reflexivity|]. split; vm_compute; [discriminate|reflexivity].
Qed.

(** The wrapper passes on the status of the linker, and otherwise the exit
    code of the [npm install] that it runs itself. *)
Lemma npm_setup_status {W} (os : OS W) (proc : process) (w : W) :
  result_of (npm_setup os proc w) =
    match result_of (script os (as_child proc) w) with
    | 0%N =>
        match fst (spawn_npm_install os (world_of (script os (as_child proc) w))) with
        | Some c => c
        | None => 1%N
        end
    | c => c
    end.
Proof.
  unfold npm_setup.
  destruct (script os (as_child proc) w) as [[[|c] w1] tr1];
    unfold result_of, world_of; simpl; [|reflexivity].
  by destruct (spawn_npm_install os w1) as [[[|c]|] w2].
Qed.

(** The two scenarios of the specification: a first run on a project
    without dependencies, and a second run right after. *)
Example scenario_first_run :
  script linux_os_installing linux_app bare_root =
    (0%N,
     world_of (script linux_os_installing linux_app bare_root),
     [EvMkdir (storeDir linux_app) (Ok tt);
      EvLstat (nmPath linux_app) (Err ENOENT);
      EvLstat (nmPath linux_app) (Err ENOENT);
      EvMkdir (target linux_app) (Ok tt);
      EvRm (nmPath linux_app) (Ok tt);
      EvSymlink (target linux_app) (nmPath linux_app) DirLink (Ok tt);
      EvLstat (nmPath linux_app) (Ok FtSymlink);
      EvReadlink (nmPath linux_app) (Ok (target linux_app));
      linked_line linux_app;
      EvReaddir (target linux_app) (Ok []);
      EvLog "Installing dependencies...";
      EvSpawn (Some 0%N)]) /\
  target linux_app = "/home/u/.cache/node_modules_store/" +:+ app_digest /\
  memfs.get slot_path (world_of (script linux_os_installing linux_app bare_root))
  = Some (Link (target linux_app)).
Proof. vm_compute. repeat split; reflexivity. Qed.

Example scenario_second_run :
  let once := world_of (script linux_os_installing linux_app bare_root) in
  script linux_os_installing linux_app once =
    (0%N, once,
     [EvMkdir (storeDir linux_app) (Ok tt);
      EvLstat (nmPath linux_app) (Ok FtSymlink);
      EvLstat (nmPath linux_app) (Ok FtSymlink);
      EvReadlink (nmPath linux_app) (Ok (target linux_app));
      already_linked_line linux_app;
      EvLstat (target linux_app) (Ok FtDir);
      EvReaddir (target linux_app) (Ok ["left-pad"])]).
Proof. vm_compute. reflexivity. Qed.


Lemma unreadable_cache_witness :
  (let run := main linux_os linux_app purged_root in
   In (EvLstat (target linux_app) (Err ENOENT)) (trace_of run) /\
   installs (trace_of run) = 1) /\
  (let run := main (unreadable linux_os) linux_app bare_root in
   In (EvReaddir (target linux_app) (Err EACCES)) (trace_of run) /\
   result_of run = Err (FsError "scandir" EACCES (target linux_app)) /\
   installs (trace_of run) = 0).
Proof.
  split.
  - intros run.
    assert (In (EvLstat (target linux_app) (Err ENOENT)) (trace_of run)) as Hin
      by in_trace.
    split; [exact Hin|].
    destruct (unreadable_cache linux_os linux_app purged_root) as [Hmissing _].
    apply (Hmissing ltac:(in_trace) ENOENT Hin).
  - intros run.
    assert (In (EvReaddir (target linux_app) (Err EACCES)) (trace_of run)) as Hin
      by in_trace.
    split; [exact Hin|].
    destruct (unreadable_cache (unreadable linux_os) linux_app bare_root)
      as [_ Hfatal].
    apply (Hfatal ltac:(in_trace) EACCES Hin).
Defined.

Lemma exit_status_witness :
  let out := script linux_os_failing linux_app bare_root in
  result_of (main linux_os_failing linux_app bare_root)
  = Err (InstallerFailure (Some 2%N)) /\
  In (EvSpawn (Some 2%N)) (trace_of out) /\
  result_of out = 1%N.
Proof.
  intros out.
  assert (result_of (main linux_os_failing linux_app bare_root)
          = Err (InstallerFailure (Some 2%N))) as Hr by (vm_compute; reflexivity).
  split; [exact Hr|].
  destruct (exit_status linux_os_failing linux_app bare_root) as [_ Hinst].
  destruct (Hinst (Some 2%N) eq_refl Hr) as (Hin & _ & Hstatus & _).
  by split.
Defined.

Lemma cache_root_first_witness :
  let proc := with_cache_root "/work/app/package.json" linux_app in
  let run := main linux_os proc stale_root in
  trace_of run = [EvMkdir "/work/app/package.json" (Err EEXIST)] /\
  result_of run = Err (FsError "mkdir" EEXIST "/work/app/package.json").
Proof.
  intros proc run.
  destruct cache_root_first as [Hfirst _].
  destruct (Hfirst node linux_os proc stale_root) as (r & rest & Htr & Hfail).
  assert (r = Err EEXIST) as ->.
  { assert (trace_of run = [EvMkdir "/work/app/package.json" (Err EEXIST)]) as E
      by (vm_compute; reflexivity).
    subst run. rewrite E in Htr. by injection Htr. }
  destruct (Hfail EEXIST eq_refl) as [-> Hres].
  split; [exact Htr|exact Hres].
Defined.
(** * Further properties of the scripts *)

Section Looking.

Context {W : Type}.
Variable os : OS W.
Variable proc : process.

Lemma emits_spawn (P : event -> Prop) :
  (forall c, P (EvSpawn c)) -> emits P (spawn os).
Proof.
  intros H w. unfold spawn, trace_of.
  destruct (spawn_npm_install os w) as [[[|c]|] w']; simpl;
    repeat constructor; apply H.
Qed.

Lemma raises_spawn (E : error -> Prop) :
  (forall c, E (InstallerFailure c)) -> raises E (spawn os).
Proof.
  intros H w e. unfold spawn, result_of.
  destruct (spawn_npm_install os w) as [[[|c]|] w']; simpl; try discriminate;
    intros [= <-]; apply H.
Qed.

(** What a [true] of [verifyLinkPointsTo] rests on. *)
Lemma verify_run l want w :
  exists b,
    result_of (verifyLinkPointsTo os proc l want w) = Ok b /\
    (b = true ->
     exists raw,
       In (EvLstat l (Ok FtSymlink)) (trace_of (verifyLinkPointsTo os proc l want w)) /\
       In (EvReadlink l (Ok raw)) (trace_of (verifyLinkPointsTo os proc l want w)) /\
       String.eqb raw "" = false /\
       String.eqb
         (normalizeForCompare proc (path.resolve (cwd proc) [path.dirname l; raw]))
         (normalizeForCompare proc want) = true).
Proof.
  unfold verifyLinkPointsTo, lstat, readlink. unfold_run.
  destruct (fsp_lstat os l w) as [[[]|c] w1]; simpl;
    try (exists false; split; [reflexivity|discriminate]).
  destruct (fsp_readlink os l w1) as [[raw|c] w2]; simpl;
    try (exists false; split; [reflexivity|discriminate]).
  destruct (String.eqb raw "") eqn:Hraw; simpl;
    try (exists false; split; [reflexivity|discriminate]).
  eexists. split; [reflexivity|]. intros Hb. exists raw.
  repeat split; auto.
Qed.

(** X1. [verifyLinkPointsTo] never rejects and only looks, and what it
    does is fixed by two answers of the operating system. It makes one
    [lstat] of the link path. Unless that says symbolic link, this is its
    only call and it answers [false]. When it says symbolic link, one
    [readlink] of the link path follows, and the answer is [true] exactly
    when [readlink] gave a non-empty text and that text, resolved against the
    link's directory, compares equal to the wanted target. The world it
    ends in is the one its last call left. *)
Theorem verifyLinkPointsTo_answer (l want : string) (w : W) :
  let run := verifyLinkPointsTo os proc l want w in
  let st := fsp_lstat os l w in
  let rl := fsp_readlink os l (snd st) in
  exists b,
    result_of run = Ok b /\
    (fst st = Ok FtSymlink ->
     trace_of run = [EvLstat l (Ok FtSymlink); EvReadlink l (fst rl)] /\
     world_of run = snd rl /\
     (b = true <->
      exists raw,
        fst rl = Ok raw /\ raw <> "" /\
        normalizeForCompare proc (path.resolve (cwd proc) [path.dirname l; raw]) =
        normalizeForCompare proc want)) /\
    (fst st <> Ok FtSymlink ->
     trace_of run = [EvLstat l (fst st)] /\
     world_of run = snd st /\
     b = false).
Proof.
  simpl. unfold verifyLinkPointsTo, lstat, readlink. unfold_run.
  destruct (fsp_lstat os l w) as [[[]|c] w1]; simpl;
    try (exists false; split; [reflexivity|]; split;
         [discriminate|intros _; repeat split; reflexivity]).
  destruct (fsp_readlink os l w1) as [[raw|c] w2]; simpl.
  - destruct (String.eqb_spec raw "") as [->|Hraw]; simpl.
    + exists false. split; [reflexivity|]. split; [|by intros H].
      intros _. split; [reflexivity|]. split; [reflexivity|].
      split; [discriminate|]. intros (raw' & [= <-] & Hne & _). by destruct Hne.
    + eexists. split; [reflexivity|]. split; [|by intros H].
      intros _. split; [reflexivity|]. split; [reflexivity|]. split.
      * intros Hb. exists raw. split; [reflexivity|]. split; [exact Hraw|].
        by apply String.eqb_eq.
      * intros (raw' & [= <-] & _ & E). by apply String.eqb_eq.
  - exists false. split; [reflexivity|]. split; [|by intros H].
    intros _. split; [reflexivity|]. split; [reflexivity|].
    split; [discriminate|]. intros (raw' & E & _). discriminate E.
Qed.

End Looking.

Section Preflight.

Context {W : Type}.
Variable os : OS W.
Variable proc : process.

(** The [finally] block of the preflight: three removals, each with its
    failure ignored. *)
Lemma tidy_up_run {A} (m : M W A) (w : W) :
  exists r1 r2 r3,
    result_of
      (try_finally m
         (bind (attempt (rm os (tmpLink proc)))
            (fun _ => bind (attempt (rm os (tmpTarget proc)))
               (fun _ => attempt (rm os (tmpRoot proc))))) w)
    = result_of (m w) /\
    trace_of
      (try_finally m
         (bind (attempt (rm os (tmpLink proc)))
            (fun _ => bind (attempt (rm os (tmpTarget proc)))
               (fun _ => attempt (rm os (tmpRoot proc))))) w)
    = trace_of (m w) ++
      [EvRm (tmpLink proc) r1; EvRm (tmpTarget proc) r2; EvRm (tmpRoot proc) r3].
Proof.
  unfold rm. unfold_run.
  destruct (m w) as [[r w1] t1]; simpl.
  destruct (fsp_rm os (tmpLink proc) w1) as [r1 w2] eqn:H1.
  destruct (fsp_rm os (tmpTarget proc) w2) as [r2 w3] eqn:H2.
  destruct (fsp_rm os (tmpRoot proc) w3) as [r3 w4] eqn:H3.
  exists r1, r2, r3.
  destruct r1 as [[]|?]; simpl; rewrite H2;
    destruct r2 as [[]|?]; simpl; rewrite H3;
    destruct r3 as [[]|?]; simpl; split; reflexivity.
Qed.

End Preflight.

Section PreflightAnswer.

Context {W : Type}.
Variable os : OS W.
Variable proc : process.

(** X2. The junction preflight never rejects and always tidies up: its last
    three calls remove the throwaway link, the throwaway target and the
    throwaway directory, however the probe went. It answers [true] only
    after the throwaway target was made, the junction to it was made, and
    the junction was read back. Where links cannot be made it answers
    [false]. *)
Theorem preflight_answer (w : W) :
  (exists b t r1 r2 r3,
     result_of (windowsJunctionPreflight os proc w) = Ok b /\
     trace_of (windowsJunctionPreflight os proc w) =
       t ++ [EvRm (tmpLink proc) r1; EvRm (tmpTarget proc) r2;
             EvRm (tmpRoot proc) r3] /\
     (b = true ->
      exists raw,
        t = [EvMkdir (tmpTarget proc) (Ok tt);
             EvSymlink (tmpTarget proc) (tmpLink proc) Junction (Ok tt);
             EvLstat (tmpLink proc) (Ok FtSymlink);
             EvReadlink (tmpLink proc) (Ok raw)])) /\
  result_of (windowsJunctionPreflight (without_links os) proc w) = Ok false.
Proof.
  split.
  - unfold windowsJunctionPreflight.
    match goal with
    | |- context [try_finally ?m _ w] =>
        destruct (tidy_up_run os proc m w) as (r1 & r2 & r3 & Hr & Ht);
        assert (exists b, result_of (m w) = Ok b /\
                  (b = true -> exists raw,
                     trace_of (m w) =
                       [EvMkdir (tmpTarget proc) (Ok tt);
                        EvSymlink (tmpTarget proc) (tmpLink proc) Junction (Ok tt);
                        EvLstat (tmpLink proc) (Ok FtSymlink);
                        EvReadlink (tmpLink proc) (Ok raw)])) as (b & Hb & Hev)
    end.
    { clear Hr Ht.
      unfold verifyLinkPointsTo, mkdir, symlink, lstat, readlink. unfold_run.
      destruct (fsp_mkdir os (tmpTarget proc) w) as [[[]|c1] w1]; simpl;
        [|exists false; split; [reflexivity|discriminate]].
      destruct (fsp_symlink os (tmpTarget proc) (tmpLink proc) Junction w1)
        as [[[]|c2] w2]; simpl;
        [|exists false; split; [reflexivity|discriminate]].
      destruct (fsp_lstat os (tmpLink proc) w2) as [[[]|c3] w3]; simpl;
        try (exists false; split; [reflexivity|discriminate]).
      destruct (fsp_readlink os (tmpLink proc) w3) as [[raw|c4] w4]; simpl;
        [|exists false; split; [reflexivity|discriminate]].
      destruct (String.eqb raw ""); simpl;
        [exists false; split; [reflexivity|discriminate]|].
      eexists. split; [reflexivity|]. intros _. by exists raw. }
    exists b. eexists. exists r1, r2, r3.
    split; [by rewrite Hr|]. split; [exact Ht|exact Hev].
  - unfold windowsJunctionPreflight.
    match goal with
    | |- context [try_finally ?m _ w] =>
        destruct (tidy_up_run (without_links os) proc m w) as (r1 & r2 & r3 & Hr & _)
    end.
    rewrite Hr. unfold mkdir, symlink. unfold_run. simpl.
    by destruct (fsp_mkdir os (tmpTarget proc) w) as [[[]|c1] w1].
Qed.

End PreflightAnswer.

Section Reach.

Context {W : Type}.
Variable os : OS W.
Variable proc : process.

Lemma within_reach_verify_slot :
  emits (within_reach proc) (verifyLinkPointsTo os proc (nmPath proc) (target proc)).
Proof.
  unfold verifyLinkPointsTo, lstat, readlink. emits_walk; cbn; auto.
Qed.

Lemma within_reach_install : emits (within_reach proc) (runNpmInstall os).
Proof.
  unfold runNpmInstall. emits_walk; [exact I|].
  apply emits_spawn. intros c. exact I.
Qed.

Lemma within_reach_preflight :
  isWin proc = true -> emits (within_reach proc) (windowsJunctionPreflight os proc).
Proof.
  intros Hwin.
  unfold windowsJunctionPreflight, verifyLinkPointsTo, mkdir, symlink, lstat,
    readlink, rm.
  emits_walk; cbn; auto 8.
Qed.

(** X3. Whatever the operating system answers, [main] touches only the
    cache root, the cache target and the slot; on Windows also the three
    throwaway paths of the preflight, and nowhere else. It renames only the
    slot onto the cache target, lists only the cache target, and the only
    link it makes outside the preflight is the slot's, to the cache target,
    of the platform's kind. *)
Theorem main_within_reach : emits (within_reach proc) (main os proc).
Proof.
  unfold main, already_linked, fresh_link, relocate, preflight_gate,
    create_link, verify_link, install_if_empty.
  destruct (isWin proc) eqn:Hwin.
  all: emits_walk.
  all: try apply within_reach_verify_slot.
  all: try apply within_reach_install.
  all: try (apply within_reach_preflight; exact Hwin).
  all: unfold exists_, isSymlink, mkdir, rename, rm, symlink, lstat, readdir.
  all: emits_walk; cbn; auto 8.
Qed.

End Reach.

Section ReadBack.

Context {W : Type}.
Variable os : OS W.
Variable proc : process.

Lemma read_back_app_l t1 t2 :
  link_read_back proc t1 -> link_read_back proc (t1 ++ t2).
Proof.
  intros (raw & H1 & H2 & H3). exists raw.
  repeat split; [apply in_or_app; by left..|done].
Qed.

Lemma read_back_app_r t1 t2 :
  link_read_back proc t2 -> link_read_back proc (t1 ++ t2).
Proof.
  intros (raw & H1 & H2 & H3). exists raw.
  repeat split; [apply in_or_app; by right..|done].
Qed.

Lemma past_plumbing_err e t :
  Forall plumbing t -> past_plumbing (Err e) t -> link_read_back proc t.
Proof.
  intros Ht [Hr|(ev & Hin & Hev)]; [discriminate|].
  destruct Hev. rewrite List.Forall_forall in Ht. by apply Ht.
Qed.

Lemma past_plumbing_prefix t1 r t2 :
  Forall plumbing t1 ->
  (past_plumbing r t2 -> link_read_back proc t2) ->
  past_plumbing r (t1 ++ t2) -> link_read_back proc (t1 ++ t2).
Proof.
  intros Ht1 H2 [Hr|(ev & Hin & Hev)]; apply read_back_app_r, H2.
  - by left.
  - right. exists ev. split; [|done].
    apply in_app_or in Hin as [Hin|Hin]; [|done].
    destruct Hev. rewrite List.Forall_forall in Ht1. by apply Ht1.
Qed.

(** After the comparison: either it said no and the rest stops within the
    plumbing, or it said yes on the evidence of a link read back. *)
Lemma read_back_after_verify (k : bool -> M W unit) w :
  (forall w', exists e, result_of (k false w') = Err e /\
                        Forall plumbing (trace_of (k false w'))) ->
  past_plumbing
    (result_of (bind (verifyLinkPointsTo os proc (nmPath proc) (target proc)) k w))
    (trace_of (bind (verifyLinkPointsTo os proc (nmPath proc) (target proc)) k w)) ->
  link_read_back proc
    (trace_of (bind (verifyLinkPointsTo os proc (nmPath proc) (target proc)) k w)).
Proof.
  intros Hfalse.
  destruct (verify_run os proc (nmPath proc) (target proc) w) as (b & Hres & Hev).
  pose proof (plumbing_verify os proc (nmPath proc) (target proc) w) as Hpl.
  rewrite bind_run, Hres. unfold result_of at 1, trace_of at 1. simpl.
  destruct b.
  - intros _. apply read_back_app_l.
    destruct (Hev eq_refl) as (raw & H1 & H2 & H3 & H4).
    exists raw. repeat split; [done..|].
    unfold resolves_to_target. by rewrite H3, H4.
  - destruct (Hfalse (world_of (verifyLinkPointsTo os proc (nmPath proc) (target proc) w)))
      as (e & He & Hk).
    rewrite He. apply past_plumbing_err. by apply Forall_app.
Qed.

(** X4. Whatever the operating system answers, on either branch: [main]
    lists the cache, starts the installer or ends well only after it has
    seen a symbolic link at the slot and read from it a text that leads to
    the cache target. *)
Theorem nothing_before_read_back (w : W) :
  past_plumbing (result_of (main os proc w)) (trace_of (main os proc w)) ->
  link_read_back proc (trace_of (main os proc w)).
Proof.
  revert w. unfold main.
  apply (run_bind plumbing own_error
           (fun r t => past_plumbing r t -> link_read_back proc t)).
  { unfold mkdir. emits_walk; exact I. }
  { apply own_mkdir. }
  { intros e t _. apply past_plumbing_err. }
  { apply past_plumbing_prefix. }
  intros _.
  apply (run_bind plumbing own_error
           (fun r t => past_plumbing r t -> link_read_back proc t)).
  { apply plumbing_isSymlink. }
  { apply own_isSymlink. }
  { intros e t _. apply past_plumbing_err. }
  { apply past_plumbing_prefix. }
  intros [|] w.
  - unfold already_linked. apply read_back_after_verify.
    intros w'. eexists. split; [reflexivity|constructor].
  - unfold fresh_link. revert w.
    apply (run_bind plumbing own_error
             (fun r t => past_plumbing r t -> link_read_back proc t)).
    { apply plumbing_relocate. }
    { apply own_relocate. }
    { intros e t _. apply past_plumbing_err. }
    { apply past_plumbing_prefix. }
    intros _.
    apply (run_bind plumbing own_error
             (fun r t => past_plumbing r t -> link_read_back proc t)).
    { apply plumbing_preflight_gate. }
    { apply own_preflight_gate. }
    { intros e t _. apply past_plumbing_err. }
    { apply past_plumbing_prefix. }
    intros _.
    apply (run_bind plumbing own_error
             (fun r t => past_plumbing r t -> link_read_back proc t)).
    { apply plumbing_create_link. }
    { apply own_create_link. }
    { intros e t _. apply past_plumbing_err. }
    { apply past_plumbing_prefix. }
    intros _ w. unfold verify_link. rewrite bind_assoc.
    apply read_back_after_verify.
    intros w'. unfold rm. unfold_run. simpl.
    destruct (fsp_rm os (nmPath proc) w') as [[[]|c] w'']; simpl;
      eexists; (split; [reflexivity|repeat constructor]).
Qed.

(** X5. Whatever the operating system answers: when the slot's link cannot
    be made, the run ends with [LinkCreationFailed] carrying the system's
    error, in the world the failed call left. Nothing is undone: the
    relocation has already emptied the slot, whose removal was the last
    call before the preflight, and the installer is not started. *)
Theorem link_creation_failure w0 w1 t1 w2 t2 w3 t3 w4 t4 w5 c :
  mkdir os (storeDir proc) w0 = (Ok tt, w1, t1) ->
  isSymlink os (nmPath proc) w1 = (Ok false, w2, t2) ->
  relocate os proc w2 = (Ok tt, w3, t3) ->
  preflight_gate os proc w3 = (Ok tt, w4, t4) ->
  fsp_symlink os (target proc) (nmPath proc) (linkType_of_platform proc) w4
    = (Err c, w5) ->
  main os proc w0 =
    (Err (LinkCreationFailed (FsError "symlink" c (target proc))), w5,
     t1 ++ t2 ++ t3 ++ t4 ++
     [EvSymlink (target proc) (nmPath proc) (linkType_of_platform proc) (Err c)]) /\
  installs (trace_of (main os proc w0)) = 0 /\
  exists t3' w3' r,
    t3 = t3' ++ [EvRm (nmPath proc) r] /\
    fsp_rm os (nmPath proc) w3' = (r, w3).
Proof.
  intros H1 H2 H3 H4 H5.
  assert (main os proc w0 =
    (Err (LinkCreationFailed (FsError "symlink" c (target proc))), w5,
     t1 ++ t2 ++ t3 ++ t4 ++
     [EvSymlink (target proc) (nmPath proc) (linkType_of_platform proc) (Err c)]))
    as Hmain.
  { rewrite (main_fresh _ _ _ _ _ _ _ H1 H2). unfold fresh_link.
    rewrite (bind_ok _ _ _ _ _ _ H3). unfold result_of, world_of, trace_of. simpl.
    rewrite (bind_ok _ _ _ _ _ _ H4). unfold result_of, world_of, trace_of. simpl.
    unfold create_link, symlink. unfold_run. rewrite H5. reflexivity. }
  split; [exact Hmain|]. split.
  - rewrite Hmain. unfold trace_of. simpl.
    rewrite !installs_app.
    assert (Forall plumbing t1) as P1.
    { destruct (mkdir_trace _ _ _ _ _ _ H1) as [r' ->]. repeat constructor. }
    assert (Forall plumbing t2) as P2.
    { pose proof (plumbing_isSymlink os (nmPath proc) w1) as P. by rewrite H2 in P. }
    assert (Forall plumbing t3) as P3.
    { pose proof (plumbing_relocate os proc w2) as P. by rewrite H3 in P. }
    assert (Forall plumbing t4) as P4.
    { pose proof (plumbing_preflight_gate os proc w3) as P. by rewrite H4 in P. }
    rewrite (plumbing_installs _ P1), (plumbing_installs _ P2), (plumbing_installs _ P3),
      (plumbing_installs _ P4). reflexivity.
  - clear H4 H5 Hmain. unfold relocate in H3.
    rewrite <- !bind_assoc in H3. rewrite bind_run in H3.
    destruct (result_of _) as [a|e] eqn:Hr in H3; [|done].
    match type of H3 with
    | context [world_of ?x] => set (wa := world_of x) in *; set (ta := trace_of x) in *
    end.
    unfold attempt, rm, call, result_of, world_of, trace_of in H3.
    destruct (fsp_rm os (nmPath proc) wa) as [r w6] eqn:Hrm.
    exists ta, wa, r.
    destruct r as [[]|c']; simpl in H3; injection H3 as <- <-; done.
Qed.

End ReadBack.

(** ** The earlier script *)

Ltac another_line :=
  unfold other_than, already_linked_line, linked_line, already_linked_text,
    linked_line_text; simpl; discriminate.

Section Legacy.

Context {W : Type}.
Variable os : OS W.
Variable proc : process.

Lemma legacy_main_fresh w0 w1 t1 w2 t2 :
  mkdir os (storeDir proc) w0 = (Ok tt, w1, t1) ->
  isSymlink os (nmPath proc) w1 = (Ok false, w2, t2) ->
  legacy.main os proc w0 =
  (result_of (legacy.fresh_link os proc w2), world_of (legacy.fresh_link os proc w2),
   t1 ++ t2 ++ trace_of (legacy.fresh_link os proc w2)).
Proof.
  intros H1 H2. unfold legacy.main.
  rewrite (bind_ok _ _ _ _ _ _ H1), (bind_ok _ _ _ _ _ _ H2). reflexivity.
Qed.

Lemma legacy_main_linked w0 w1 t1 w2 t2 :
  mkdir os (storeDir proc) w0 = (Ok tt, w1, t1) ->
  isSymlink os (nmPath proc) w1 = (Ok true, w2, t2) ->
  legacy.main os proc w0 =
  (result_of (legacy.already_linked os proc w2),
   world_of (legacy.already_linked os proc w2),
   t1 ++ t2 ++ trace_of (legacy.already_linked os proc w2)).
Proof.
  intros H1 H2. unfold legacy.main.
  rewrite (bind_ok _ _ _ _ _ _ H1), (bind_ok _ _ _ _ _ _ H2). reflexivity.
Qed.

Lemma legacy_branches w :
  (exists r e w1, legacy.main os proc w = (Err e, w1, [EvMkdir (storeDir proc) r])) \/
  (exists r w2,
     legacy.main os proc w =
       (result_of (legacy.already_linked os proc w2),
        world_of (legacy.already_linked os proc w2),
        [EvMkdir (storeDir proc) r] ++ [EvLstat (nmPath proc) (Ok FtSymlink)] ++
        trace_of (legacy.already_linked os proc w2))) \/
  (exists r st w2,
     legacy.main os proc w =
       (result_of (legacy.fresh_link os proc w2),
        world_of (legacy.fresh_link os proc w2),
        [EvMkdir (storeDir proc) r] ++ [EvLstat (nmPath proc) st] ++
        trace_of (legacy.fresh_link os proc w2))).
Proof.
  destruct (mkdir os (storeDir proc) w) as [[[[]|e1] w1] t1] eqn:H1.
  - destruct (mkdir_trace _ _ _ _ _ _ H1) as [r1 ->].
    destruct (isSymlink os (nmPath proc) w1) as [[r2 w2] t2] eqn:H2.
    destruct (isSymlink_run _ _ _ _ _ _ H2) as (b & st & -> & -> & Hb).
    destruct b.
    + right; left. rewrite (legacy_main_linked _ _ _ _ _ H1 H2), (Hb eq_refl).
      by exists r1, w2.
    + right; right. rewrite (legacy_main_fresh _ _ _ _ _ H1 H2).
      by exists r1, st, w2.
  - left. destruct (mkdir_trace _ _ _ _ _ _ H1) as [r1 ->].
    unfold legacy.main. rewrite (bind_err _ _ _ _ _ _ H1). by exists r1, e1, w1.
Qed.

Lemma legacy_fresh_never_says_already_linked :
  emits (other_than (already_linked_line proc)) (legacy.fresh_link os proc).
Proof.
  unfold legacy.fresh_link, relocate, install_if_empty, runNpmInstall, exists_,
    isSymlink, mkdir, lstat, rename, rm, symlink, readdir.
  emits_walk; try another_line.
  all: apply emits_spawn; intros c; another_line.
Qed.

Lemma legacy_linked_never_says_linked :
  emits (other_than (linked_line proc)) (legacy.already_linked os proc).
Proof.
  unfold legacy.already_linked, runNpmInstall, readdir.
  emits_walk; try another_line.
  all: apply emits_spawn; intros c; another_line.
Qed.

Lemma installs_skip e t : plumbing e -> installs (e :: t) = installs t.
Proof.
  intros He. change (e :: t) with ([e] ++ t).
  rewrite installs_app, (plumbing_installs [e]); [done|].
  by repeat constructor.
Qed.

Lemma legacy_fresh_installs w :
  installs (trace_of (legacy.fresh_link os proc w)) <= 1.
Proof.
  revert w. unfold legacy.fresh_link.
  assert (Herr : forall (e : error) t, True -> Forall plumbing t -> installs t <= 1).
  { intros e t _ Ht. rewrite (plumbing_installs _ Ht). lia. }
  assert (Hpre : forall t1 (r : result error unit) t2,
             Forall plumbing t1 -> installs t2 <= 1 -> installs (t1 ++ t2) <= 1).
  { intros t1 r t2 Ht H. by rewrite installs_app, (plumbing_installs _ Ht). }
  apply (run_bind plumbing (fun _ => True) (fun _ t => installs t <= 1));
    [apply plumbing_relocate|done|exact Herr|exact Hpre|intros _].
  apply (run_bind plumbing (fun _ => True) (fun _ t => installs t <= 1));
    [unfold symlink; emits_walk; exact I|done|exact Herr|exact Hpre|intros _].
  apply (run_bind plumbing (fun _ => True) (fun _ t => installs t <= 1));
    [emits_walk; exact I|done|exact Herr|exact Hpre|intros _ w].
  unfold install_if_empty, runNpmInstall, spawn, readdir, installs. unfold_run.
  run_cases; lia.
Qed.

Ltac in_cases :=
  repeat match goal with
         | H : _ \/ _ |- _ => destruct H
         | H : False |- _ => destruct H
         | H : EvReaddir _ _ = EvReaddir _ _ |- _ => injection H as ?; subst
         | H : EvSpawn _ = EvSpawn _ |- _ => injection H as ?; subst
         | H : _ = _ |- _ => discriminate H
         end.

Lemma legacy_linked_installs w :
  installs (trace_of (legacy.already_linked os proc w)) <= 2 /\
  (forall code,
     In (EvReaddir (target proc) (Ok [])) (trace_of (legacy.already_linked os proc w)) ->
     In (EvSpawn code) (trace_of (legacy.already_linked os proc w)) ->
     code <> Some 0%N ->
     installs (trace_of (legacy.already_linked os proc w)) = 2) /\
  (forall c,
     In (EvReaddir (target proc) (Err c)) (trace_of (legacy.already_linked os proc w)) ->
     installs (trace_of (legacy.already_linked os proc w)) = 1 /\
     exists code,
       In (EvSpawn code) (trace_of (legacy.already_linked os proc w)) /\
       result_of (legacy.already_linked os proc w) = installer_verdict code).
Proof.
  unfold legacy.already_linked, runNpmInstall, spawn, readdir, installs.
  unfold_run. run_cases.
  all: split; [lia|].
  all: split; [intros code H1 H2 Hc; in_cases; try done; try by destruct Hc|].
  all: intros c' H1; in_cases.
  all: split; [reflexivity|]; eexists; split; [simpl; tauto|reflexivity].
Qed.

(** X6. The earlier script can start the installer twice in one run. When
    the slot is a link and the cache lists as empty, a failed installation
    is caught by the same handler that covers a failed listing, and the
    installer is started again: two starts whenever one of them failed. It
    never starts the installer more than twice, and at most once after it
    has made the link itself. *)
Theorem legacy_installs_twice (w : W) :
  let run := legacy.main os proc w in
  installs (trace_of run) <= 2 /\
  (In (linked_line proc) (trace_of run) -> installs (trace_of run) <= 1) /\
  (forall code,
     In (already_linked_line proc) (trace_of run) ->
     In (EvReaddir (target proc) (Ok [])) (trace_of run) ->
     In (EvSpawn code) (trace_of run) ->
     code <> Some 0%N ->
     installs (trace_of run) = 2).
Proof.
  simpl.
  destruct (legacy_branches w) as
    [(r & e & w1 & ->)|[(r & w2 & ->)|(r & st & w2 & ->)]];
    unfold trace_of at 1 2 3 4 5 6 7; simpl.
  - unfold installs; simpl. split; [lia|]. split; [intros _; lia|].
    intros code [H|[]]; discriminate H.
  - destruct (legacy_linked_installs w2) as (Hle & Htwice & _).
    rewrite !installs_skip by exact I. split; [exact Hle|]. split.
    + intros [H|[H|Hl]]; [discriminate H|discriminate H|].
      by apply (Forall_not_In _ _ (legacy_linked_never_says_linked w2)) in Hl.
    + intros code _ [H|[H|Hr]] [H'|[H'|Hs]] Hc; try discriminate.
      by apply (Htwice code).
  - pose proof (legacy_fresh_installs w2) as Hle.
    rewrite !installs_skip by exact I.
    split; [etrans; [exact Hle|lia]|]. split; [intros _; exact Hle|].
    intros code [H|[H|Hal]]; [discriminate H|discriminate H|].
    by apply (Forall_not_In _ _ (legacy_fresh_never_says_already_linked w2)) in Hal.
Qed.

Lemma legacy_unreadable_fatal w c :
  In (EvReaddir (target proc) (Err c)) (trace_of (legacy.fresh_link os proc w)) ->
  result_of (legacy.fresh_link os proc w) = Err (FsError "scandir" c (target proc)) /\
  installs (trace_of (legacy.fresh_link os proc w)) = 0.
Proof.
  revert w.
  set (Q := fun (r : result error unit) tr =>
    In (EvReaddir (target proc) (Err c)) tr ->
    r = Err (FsError "scandir" c (target proc)) /\ installs tr = 0).
  assert (Herr : forall e t, True -> Forall plumbing t -> Q (Err e) t).
  { intros e t _ Ht Hin. by apply plumbing_no_readdir in Hin. }
  assert (Hpre : forall t1 r t2, Forall plumbing t1 -> Q r t2 -> Q r (t1 ++ t2)).
  { intros t1 r t2 Ht HQ [Hin|Hin]%in_app_iff.
    - by apply plumbing_no_readdir in Hin.
    - rewrite installs_app, (plumbing_installs _ Ht). by apply HQ. }
  change (forall w, Q (result_of (legacy.fresh_link os proc w))
                      (trace_of (legacy.fresh_link os proc w))).
  unfold legacy.fresh_link.
  apply (run_bind plumbing (fun _ => True));
    [apply plumbing_relocate|done|exact Herr|exact Hpre|intros _].
  apply (run_bind plumbing (fun _ => True));
    [unfold symlink; emits_walk; exact I|done|exact Herr|exact Hpre|intros _].
  apply (run_bind plumbing (fun _ => True));
    [emits_walk; exact I|done|exact Herr|exact Hpre|intros _ w].
  unfold Q, install_if_empty, runNpmInstall, spawn, readdir, installs. unfold_run.
  run_cases; intros H; in_cases; done.
Qed.

(** X7. In the earlier script, when the slot is a link and the cache
    target cannot be listed, the installer is started exactly once and the
    run ends as the installer does: well when the exit code is 0, and with
    the installer's failure, exit code included, otherwise. After the
    script has made the link itself, a listing that fails ends the run with
    that failure and the installer is not started. *)
Theorem legacy_unreadable_cache (w : W) :
  let run := legacy.main os proc w in
  (In (already_linked_line proc) (trace_of run) ->
   forall c, In (EvReaddir (target proc) (Err c)) (trace_of run) ->
     installs (trace_of run) = 1 /\
     exists code,
       In (EvSpawn code) (trace_of run) /\
       result_of run = installer_verdict code) /\
  (In (linked_line proc) (trace_of run) ->
   forall c, In (EvReaddir (target proc) (Err c)) (trace_of run) ->
     result_of run = Err (FsError "scandir" c (target proc)) /\
     installs (trace_of run) = 0).
Proof.
  simpl.
  destruct (legacy_branches w) as
    [(r & e & w1 & ->)|[(r & w2 & ->)|(r & st & w2 & ->)]];
    unfold trace_of at 1 2 3 4 5 6 7, result_of at 1 2; simpl.
  - split; intros [H|[]]; discriminate H.
  - split.
    + intros _ c [H|[H|Hc]]; [discriminate H|discriminate H|].
      rewrite !installs_skip by exact I.
      destruct (legacy_linked_installs w2) as (_ & _ & Hone).
      destruct (Hone c Hc) as (Hn & code & Hin & Hres).
      split; [exact Hn|]. exists code. split; [|exact Hres].
      right. right. exact Hin.
    + intros [H|[H|Hl]]; [discriminate H|discriminate H|].
      by apply (Forall_not_In _ _ (legacy_linked_never_says_linked w2)) in Hl.
  - split.
    + intros [H|[H|Hal]]; [discriminate H|discriminate H|].
      by apply (Forall_not_In _ _ (legacy_fresh_never_says_already_linked w2)) in Hal.
    + intros _ c [H|[H|Hc]]; [discriminate H|discriminate H|].
      rewrite !installs_skip by exact I. exact (legacy_unreadable_fatal w2 c Hc).
Qed.

(** X8. The earlier script takes links on trust: whatever the operating
    system answers, it never reads a link, neither one it finds at the slot
    nor one it has just made, and it never ends with a verdict of its own,
    only with the failure of a call or of the installer. *)
Theorem legacy_takes_links_on_trust :
  emits not_readlink (legacy.main os proc) /\
  raises system_error (legacy.main os proc).
Proof.
  split.
  - unfold legacy.main, legacy.already_linked, legacy.fresh_link, relocate,
      install_if_empty, runNpmInstall, exists_, isSymlink, mkdir, lstat, rename,
      rm, symlink, readdir.
    emits_walk; try exact I.
    all: apply emits_spawn; intros c; exact I.
  - unfold legacy.main, legacy.already_linked, legacy.fresh_link, relocate,
      install_if_empty, runNpmInstall, exists_, isSymlink, mkdir, lstat, rename,
      rm, symlink, readdir.
    raises_walk; try exact I.
    all: apply raises_spawn; intros c; exact I.
Qed.

End Legacy.

(** ** The wrappers *)

Section Wrappers.

Context {W : Type}.
Variable os : OS W.
Variable proc : process.

(** The child sees the wrapper's environment and directory, and a command
    line of its own. *)
Lemma main_as_child : main os (as_child proc) = main os proc.
Proof. reflexivity. Qed.

Lemma legacy_main_as_child :
  legacy.main os (legacy.as_child proc) = legacy.main os proc.
Proof. reflexivity. Qed.

Lemma main_installs w : installs (trace_of (main os proc w)) <= 1.
Proof.
  destruct (main_branches os proc w) as
    [(r & e & w1 & ->)|[(r & w2 & ->)|(r & st & w2 & ->)]];
    unfold trace_of at 1; simpl.
  - unfold installs. simpl. lia.
  - rewrite !installs_skip by exact I. apply (gated_already_linked os proc w2).
  - rewrite !installs_skip by exact I. apply (gated_fresh_link os proc w2).
Qed.

(** X9. The wrapper [npm-setup] around [node-linker-pro.mjs]. When the
    linker ends well the wrapper starts the installer once more, whether or
    not the linker has just installed, and exits with that installer's
    status (1 when it was ended by a signal): one or two installer starts in
    all. When the linker fails the wrapper exits with status 1 in the world
    the linker left and starts nothing more. *)
Theorem npm_setup_outcome (w : W) :
  match result_of (main os proc w) with
  | Ok _ =>
      result_of (npm_setup os proc w) =
        match fst (spawn_npm_install os (world_of (main os proc w))) with
        | Some c => c
        | None => 1%N
        end /\
      installs (trace_of (npm_setup os proc w)) =
        installs (trace_of (main os proc w)) + 1 /\
      installs (trace_of (npm_setup os proc w)) <= 2
  | Err e =>
      result_of (npm_setup os proc w) = 1%N /\
      world_of (npm_setup os proc w) = world_of (main os proc w) /\
      installs (trace_of (npm_setup os proc w)) = installs (trace_of (main os proc w))
  end.
Proof.
  pose proof (main_installs w) as Hle.
  unfold npm_setup, script. rewrite main_as_child.
  change (help_asked_of (argv (as_child proc))) with false. cbv iota.
  destruct (main os proc w) as [[[[]|e] w1] t1];
    unfold result_of, world_of, trace_of in *; simpl in *.
  - destruct (spawn_npm_install os w1) as [[[|c]|] w2]; simpl;
      rewrite installs_app; change (installs [EvSpawn _]) with 1;
      try change (installs [EvSpawn _; EvExit _]) with 1;
      (split; [reflexivity|]); (split; [reflexivity|]); lia.
  - rewrite !installs_app.
    change (installs [EvError _; EvExit _]) with 0.
    change (installs [EvExit _]) with 0.
    repeat split; lia.
Qed.

Lemma legacy_main_installs w : installs (trace_of (legacy.main os proc w)) <= 2.
Proof.
  destruct (legacy_branches os proc w) as
    [(r & e & w1 & ->)|[(r & w2 & ->)|(r & st & w2 & ->)]];
    unfold trace_of at 1; simpl.
  - unfold installs. simpl. lia.
  - rewrite !installs_skip by exact I. apply (legacy_linked_installs os proc w2).
  - rewrite !installs_skip by exact I.
    etrans; [apply (legacy_fresh_installs os proc w2)|lia].
Qed.

(** X10. The wrapper around the earlier script behaves the same way, so a
    single call of it can start the installer three times: twice in the
    script and once more after it. *)
Theorem legacy_npm_setup_outcome (w : W) :
  match result_of (legacy.main os proc w) with
  | Ok _ =>
      result_of (legacy.npm_setup os proc w) =
        match fst (spawn_npm_install os (world_of (legacy.main os proc w))) with
        | Some c => c
        | None => 1%N
        end /\
      installs (trace_of (legacy.npm_setup os proc w)) =
        installs (trace_of (legacy.main os proc w)) + 1 /\
      installs (trace_of (legacy.npm_setup os proc w)) <= 3
  | Err e =>
      result_of (legacy.npm_setup os proc w) = 1%N /\
      world_of (legacy.npm_setup os proc w) = world_of (legacy.main os proc w) /\
      installs (trace_of (legacy.npm_setup os proc w)) =
        installs (trace_of (legacy.main os proc w))
  end.
Proof.
  pose proof (legacy_main_installs w) as Hle.
  unfold legacy.npm_setup, legacy.script. rewrite legacy_main_as_child.
  change (includes "--help" (argv (legacy.as_child proc))) with false. cbv iota.
  destruct (legacy.main os proc w) as [[[[]|e] w1] t1];
    unfold result_of, world_of, trace_of in *; simpl in *.
  - destruct (spawn_npm_install os w1) as [[[|c]|] w2]; simpl;
      rewrite installs_app; change (installs [EvSpawn _]) with 1;
      try change (installs [EvSpawn _; EvExit _]) with 1;
      (split; [reflexivity|]); (split; [reflexivity|]); lia.
  - rewrite !installs_app.
    change (installs [EvError _; EvExit _]) with 0.
    change (installs [EvExit _]) with 0.
    repeat split; lia.
Qed.

End Wrappers.

(** ** More on paths *)

Section PathMore.

Implicit Types (s a h d p t : string) (xs st : list string).

Lemma normalize_absolute p :
  path.isAbsolute p = true -> path.isAbsolute (path.normalize p) = true.
Proof.
  intros Hp. unfold path.normalize.
  destruct (String.eqb_spec p "") as [->|_]; [done|].
  rewrite Hp. by destruct (String.eqb _ "").
Qed.

Lemma join_absolute d h :
  h <> "" -> path.isAbsolute d = true -> path.isAbsolute (path.join [d; h]) = true.
Proof.
  intros Hh Hd. rewrite join_two by done.
  destruct (String.eqb_spec d "") as [->|Hne]; [done|].
  apply normalize_absolute. by rewrite isAbsolute_app.
Qed.

Lemma absolute_nonempty p : path.isAbsolute p = true -> String.eqb p "" = false.
Proof. by destruct p. Qed.

Lemma resolve_raw_last cwd d t :
  path.isAbsolute t = true -> path.resolve_raw cwd [d; t] = path.resolve_raw cwd [t].
Proof.
  intros Ht. unfold path.resolve_raw. simpl.
  by rewrite (absolute_nonempty _ Ht), Ht.
Qed.

Lemma resolve_last cwd d t :
  path.isAbsolute t = true -> path.resolve cwd [d; t] = path.resolve cwd [t].
Proof.
  intros Ht. unfold path.resolve, path.resolve_segs.
  by rewrite (resolve_raw_last _ _ _ Ht).
Qed.

Lemma resolve_raw_absolute cwd p :
  path.isAbsolute p = true -> snd (path.resolve_raw cwd [p]) = true.
Proof.
  intros Hp. unfold path.resolve_raw. simpl.
  by rewrite (absolute_nonempty _ Hp), Hp.
Qed.


(** The segments of a rooted resolution are plain names. *)
Lemma resolve_segs_plain cwd args :
  snd (path.resolve_raw cwd args) = true ->
  Forall (fun y => plainb y = true) (path.resolve_segs cwd args).
Proof.
  intros Habs. unfold path.resolve_segs, path.normSegs. rewrite Habs. simpl.
  apply Forall_rev, fold_plain_stack; [apply split_elems|constructor].
Qed.

Lemma resolve_rooted cwd args :
  snd (path.resolve_raw cwd args) = true ->
  path.resolve cwd args = "/" +:+ path.intercalate (path.resolve_segs cwd args).
Proof. intros Habs. unfold path.resolve. by rewrite Habs. Qed.

Lemma plain_no_slash xs :
  Forall (fun y => plainb y = true) xs -> Forall (fun x => has_slash x = false) xs.
Proof. induction 1; constructor; [by apply plainb_no_slash|done]. Qed.

(** Resolving the text of plain segments gives the segments back. *)
Lemma resolve_segs_of_plain cwd xs :
  Forall (fun y => plainb y = true) xs ->
  path.resolve_segs cwd ["/" +:+ path.intercalate xs] = xs.
Proof.
  intros Hxs. rewrite resolve_segs_absolute by done.
  change ("/" +:+ path.intercalate xs) with ("" +:+ String "/" (path.intercalate xs)).
  rewrite split_app_slash. simpl.
  destruct xs as [|x xs']; [reflexivity|].
  rewrite split_intercalate by (done || by apply plain_no_slash).
  change (fold_left (path.step false) (x :: xs') (path.step false [] ""))
    with (fold_left (path.step false) (x :: xs') []).
  rewrite fold_plain by done. by rewrite app_nil_r, rev_involutive.
Qed.

(** [path.resolve] is idempotent on what it has rooted. *)
Lemma resolve_idempotent cwd args :
  snd (path.resolve_raw cwd args) = true ->
  path.resolve cwd [path.resolve cwd args] = path.resolve cwd args.
Proof.
  intros Habs. rewrite (resolve_rooted _ _ Habs).
  rewrite resolve_rooted by (by apply resolve_raw_absolute).
  by rewrite resolve_segs_of_plain by (by apply resolve_segs_plain).
Qed.

End PathMore.

Section Compare.

Variable proc : process.

(** A link whose text is an absolute path leads to that path, by the
    script's comparison, wherever the link is. *)
Lemma absolute_link_resolves l t :
  path.isAbsolute t = true ->
  normalizeForCompare proc (path.resolve (cwd proc) [path.dirname l; t])
  = normalizeForCompare proc t.
Proof.
  intros Ht. unfold normalizeForCompare.
  rewrite (resolve_last _ _ _ Ht).
  by rewrite resolve_idempotent by (by apply resolve_raw_absolute).
Qed.

Lemma target_absolute :
  path.isAbsolute (storeDir proc) = true -> path.isAbsolute (target proc) = true.
Proof.
  intros Hs. unfold target. apply join_absolute; [|done].
  apply plainb_nonempty, sha1_hex_plain.
Qed.

Lemma target_resolves :
  path.isAbsolute (storeDir proc) = true ->
  resolves_to_target proc (target proc) = true.
Proof.
  intros Hs. pose proof (target_absolute Hs) as Ht.
  unfold resolves_to_target.
  rewrite (absolute_nonempty _ Ht), (absolute_link_resolves _ _ Ht).
  simpl. by apply String.eqb_refl.
Qed.

End Compare.

(** ** More on the in-memory file system *)

Section LinkedOnMemfs.

Variable proc : process.
Variable npm : node -> option N * node.

Local Abbreviation phys := (memfs.phys (cwd proc)).
Local Abbreviation os := (memfs.os (cwd proc) npm).

(** The read-back of a link that leads to the cache target. *)
Lemma verify_memfs_true w raw :
  memfs.get (phys (nmPath proc)) w = Some (Link raw) ->
  resolves_to_target proc raw = true ->
  verifyLinkPointsTo os proc (nmPath proc) (target proc) w =
    (Ok true, w,
     [EvLstat (nmPath proc) (Ok FtSymlink); EvReadlink (nmPath proc) (Ok raw)]).
Proof.
  intros Hslot Hres. unfold verifyLinkPointsTo, lstat, readlink.
  unfold_run. simpl. unfold memfs.lstat, memfs.readlink.
  repeat (rewrite Hslot; simpl).
  unfold resolves_to_target in Hres.
  destruct (String.eqb raw ""); simpl in *; [done|]. by rewrite Hres.
Qed.

Lemma not_verification_install :
  raises not_verification_failure (install_if_empty os proc).
Proof.
  unfold install_if_empty, runNpmInstall, readdir.
  raises_walk; try exact I. all: apply raises_spawn; intros c; exact I.
Qed.

Lemma not_verification_linked :
  raises not_verification_failure (already_linked os proc).
Proof.
  unfold already_linked, runNpmInstall, exists_, readdir.
  unfold verifyLinkPointsTo.
  raises_walk; try exact I. all: apply raises_spawn; intros c; exact I.
Qed.

(** A link that was made is read back as made. *)
Lemma link_then_verify :
  path.isAbsolute (storeDir proc) = true ->
  raises not_verification_failure
    (bind (create_link os proc)
       (fun _ => bind (verify_link os proc) (fun _ => install_if_empty os proc))).
Proof.
  intros Habs w e.
  destruct (create_link os proc w) as [[[[]|e1] w1] t1] eqn:Hmk.
  - rewrite (bind_ok _ _ _ _ _ _ Hmk). unfold result_of at 1. simpl.
    apply create_link_memfs in Hmk as [_ Hput].
    pose proof (put_get _ _ _ _ Hput) as Hslot.
    unfold verify_link.
    rewrite bind_assoc,
      (bind_ok _ _ _ _ _ _ (verify_memfs_true _ _ Hslot (target_resolves proc Habs))).
    unfold result_of at 1. simpl.
    rewrite bind_run. unfold console_log at 1, result_of at 1. simpl.
    unfold result_of at 1. simpl. apply not_verification_install.
  - rewrite (bind_err _ _ _ _ _ _ Hmk). unfold result_of. simpl. intros [= <-].
    revert Hmk. unfold create_link, symlink. unfold_run. simpl.
    destruct (memfs.symlink _ _ _ _ _) as [[[]|c] w2]; simpl; [discriminate|].
    by intros [= <- _ _].
Qed.

(** X11. On the in-memory file system, where a link holds the text it was
    made with, and with an absolute cache root: a run never ends with
    [LinkVerificationFailed]. The link the script makes always passes the
    script's own read-back. *)
Theorem new_link_verifies :
  path.isAbsolute (storeDir proc) = true ->
  raises not_verification_failure (main os proc).
Proof.
  intros Habs. unfold main.
  apply raises_bind; [unfold mkdir; raises_walk; exact I|intros _].
  apply raises_bind; [unfold isSymlink, lstat; raises_walk; exact I|intros linked].
  destruct linked; [apply not_verification_linked|].
  unfold fresh_link.
  apply raises_bind; [|intros _].
  { unfold relocate, exists_, isSymlink, mkdir, rename. raises_walk; exact I. }
  apply raises_bind; [|intros _].
  { unfold preflight_gate, windowsJunctionPreflight. raises_walk; exact I. }
  by apply link_then_verify.
Qed.

End LinkedOnMemfs.

(** ** A slot that is linked already *)

Section LeftAlone.

Context {W : Type}.
Variable os : OS W.
Variable proc : process.

Lemma exists_keeps p :
  (forall p w, snd (fsp_lstat os p w) = w) -> keeps (fun w => w) (exists_ os p).
Proof. intros Hl. unfold exists_, lstat. keeps_walk. apply Hl. Qed.

Lemma isSymlink_keeps p :
  (forall p w, snd (fsp_lstat os p w) = w) -> keeps (fun w => w) (isSymlink os p).
Proof. intros Hl. unfold isSymlink, lstat. keeps_walk. apply Hl. Qed.

Lemma verify_keeps l t :
  (forall p w, snd (fsp_lstat os p w) = w) ->
  (forall p w, snd (fsp_readlink os p w) = w) ->
  keeps (fun w => w) (verifyLinkPointsTo os proc l t).
Proof.
  intros Hl Hr. unfold verifyLinkPointsTo, lstat, readlink.
  keeps_walk; first [apply Hl|apply Hr].
Qed.

(** X12. A slot that is a link which the script's check accepts is left
    alone, whatever the operating system. After making the cache root the
    run looks at the slot, prints that it is linked already, and looks at
    the cache target: when it is there and lists an entry the run ends well
    without another call; when it is missing or lists no entry the installer
    is started and the run ends as the installer does; a listing that fails
    ends the run. Where looking changes nothing and the installer was not
    started, the world the run ends in is the one in which the cache root
    was made. *)
Theorem valid_link_left_alone w0 w1 t1 w2 t2 w3 t3 :
  mkdir os (storeDir proc) w0 = (Ok tt, w1, t1) ->
  isSymlink os (nmPath proc) w1 = (Ok true, w2, t2) ->
  verifyLinkPointsTo os proc (nmPath proc) (target proc) w2 = (Ok true, w3, t3) ->
  let looked := t1 ++ t2 ++ t3 ++ [EvLog (already_linked_text proc)] in
  main os proc w0 =
    match fsp_lstat os (target proc) w3 with
    | (Err c, w4) =>
        preceded_by (looked ++ [EvLstat (target proc) (Err c)])
          (runNpmInstall os w4)
    | (Ok st, w4) =>
        match fsp_readdir os (target proc) w4 with
        | (Ok [], w5) =>
            preceded_by
              (looked ++ [EvLstat (target proc) (Ok st);
                          EvReaddir (target proc) (Ok [])])
              (runNpmInstall os w5)
        | (Ok names, w5) =>
            (Ok tt, w5,
             looked ++ [EvLstat (target proc) (Ok st);
                        EvReaddir (target proc) (Ok names)])
        | (Err c, w5) =>
            (Err (FsError "scandir" c (target proc)), w5,
             looked ++ [EvLstat (target proc) (Ok st);
                        EvReaddir (target proc) (Err c)])
        end
    end /\
  Forall (slot_look proc) (t2 ++ t3) /\
  ((forall p w, snd (fsp_lstat os p w) = w) ->
   (forall p w, snd (fsp_readlink os p w) = w) ->
   (forall p w, snd (fsp_readdir os p w) = w) ->
   installs (trace_of (main os proc w0)) = 0 ->
   world_of (main os proc w0) = snd (fsp_mkdir os (storeDir proc) w0)).
Proof.
  intros H1 H2 H3 looked.
  assert (main os proc w0 =
          preceded_by looked
            (bind (exists_ os (target proc))
               (fun cacheExists =>
                  bind (if cacheExists then readdir os (target proc) else ret [])
                    (fun files =>
                       if negb cacheExists || Nat.eqb (List.length files) 0
                       then runNpmInstall os else ret tt)) w3)) as Hmain.
  { rewrite (main_linked _ _ _ _ _ _ _ H1 H2). unfold already_linked.
    rewrite (bind_ok _ _ _ _ _ _ H3). simpl.
    match goal with
    | |- context [bind (console_log _) (fun _ => ?k) w3] => set (rest := k)
    end.
    unfold preceded_by, looked, console_log, bind, result_of, world_of,
      trace_of. simpl.
    destruct (rest w3) as [[r w'] t']. simpl.
    by rewrite <- !app_assoc. }
  split; [|split].
  - rewrite Hmain. unfold exists_, lstat, readdir, preceded_by. unfold_run.
    destruct (fsp_lstat os (target proc) w3) as [[st|c] w4]; simpl.
    + destruct (fsp_readdir os (target proc) w4) as [[[|n ns]|c] w5]; simpl.
      * destruct (runNpmInstall os w5) as [[r w6] t6]; simpl.
        by rewrite <- !app_assoc.
      * reflexivity.
      * reflexivity.
    + destruct (runNpmInstall os w4) as [[r w6] t6]; simpl.
      by rewrite <- !app_assoc.
  - apply Forall_app. split.
    + pose proof (slot_look_isSymlink os proc w1) as He. by rewrite H2 in He.
    + pose proof (slot_look_verify os proc w2) as He. by rewrite H3 in He.
  - intros Hl Hr Hd. rewrite Hmain.
    pose proof (isSymlink_keeps (nmPath proc) Hl w1) as K2.
    pose proof (verify_keeps (nmPath proc) (target proc) Hl Hr w2) as K3.
    rewrite H2 in K2. rewrite H3 in K3. unfold world_of in K2, K3. simpl in *.
    assert (w1 = snd (fsp_mkdir os (storeDir proc) w0)) as Hw1.
    { revert H1. unfold mkdir, call.
      destruct (fsp_mkdir os (storeDir proc) w0) as [[[]|c] w']; by intros [= <- <-]. }
    subst w2 w3. rewrite <- Hw1.
    unfold exists_, lstat, readdir, runNpmInstall, spawn, preceded_by.
    unfold_run. unfold installs.
    pose proof (Hl (target proc) w1) as Hl1.
    destruct (fsp_lstat os (target proc) w1) as [[st|c] w4]; simpl in *; subst w4.
    + pose proof (Hd (target proc) w1) as Hd1.
      destruct (fsp_readdir os (target proc) w1) as [[[|n ns]|c] w5];
        simpl in *; subst w5; try done.
      destruct (spawn_npm_install os w1) as [[[|?]|] w6]; simpl;
        rewrite !filter_app, !length_app; simpl; lia.
    + destruct (spawn_npm_install os w1) as [[[|?]|] w6]; simpl;
        rewrite !filter_app, !length_app; simpl; lia.
Qed.

End LeftAlone.


(** ** The comparison of paths *)

Section Names.




End Names.

Section SamePlace.

Variable proc : process.

Local Abbreviation phys := (memfs.phys (cwd proc)).



End SamePlace.

(** ** Where the cache is *)

Section Layout.

Variable proc : process.

Local Abbreviation phys := (memfs.phys (cwd proc)).

Lemma hexdigit_lower_hex x : is_lower_hex (crypto.hexdigit x) = true.
Proof.
  unfold crypto.hexdigit.
  destruct (nth_in_or_default (Z.to_nat (Z.land x 15)) crypto.hex_digits "0"%char)
    as [Hin| ->]; [|reflexivity].
  revert Hin. generalize (nth (Z.to_nat (Z.land x 15)) crypto.hex_digits "0"%char).
  intros c Hin. simpl in Hin.
  repeat (destruct Hin as [<-|Hin]; [reflexivity|]). destruct Hin.
Qed.

Lemma all_chars_of_list f l :
  Forall (fun c => f c = true) l -> all_chars f (string_of_list_ascii l) = true.
Proof. induction 1 as [|c l Hc _ IH]; simpl; [done|]. by rewrite Hc. Qed.

Lemma sha1_hex_lower_hex s : all_chars is_lower_hex (crypto.sha1_hex s) = true.
Proof.
  unfold crypto.sha1_hex, crypto.hex_of_words.
  destruct (crypto.sha1_words s) as [[[[h0 h1] h2] h3] h4].
  apply all_chars_of_list.
  repeat (apply Forall_app; split);
    unfold crypto.hex8; simpl; repeat constructor; apply hexdigit_lower_hex.
Qed.

(** X15. Where the script puts things, whatever the working directory,
    the platform and the environment: the slot is the entry
    [node_modules] of the project directory; the cache target is the entry
    of the cache root named by the digest of the project directory, which
    is forty lower-case hexadecimal digits; the slot and the cache target
    are never the same place; and an absolute cache root gives an absolute
    cache target. *)
Theorem cache_layout :
  phys (nmPath proc) = phys (projectDir proc) ++ ["node_modules"] /\
  phys (target proc) = phys (storeDir proc) ++ [hash proc] /\
  String.length (hash proc) = 40 /\
  all_chars is_lower_hex (hash proc) = true /\
  phys (nmPath proc) <> phys (target proc) /\
  (path.isAbsolute (storeDir proc) = true -> path.isAbsolute (target proc) = true).
Proof.
  split; [apply phys_nmPath|]. split; [apply phys_target|].
  split; [apply sha1_hex_length|]. split; [apply sha1_hex_lower_hex|].
  split; [apply slot_not_cache|apply target_absolute].
Qed.

End Layout.

Section Inspection.

Context {W : Type}.
Variable os : OS W.

(** X16. The two inspections, [exists] and [isSymlink], never reject,
    whatever the operating system answers: each makes exactly one [lstat]
    of its path and turns a failure into [false]. On the same world,
    whatever [isSymlink] takes for a link [exists] takes to exist. *)
Theorem inspections_never_reject (p : string) (w : W) :
  exists st,
    fsp_lstat os p w = (st, world_of (exists_ os p w)) /\
    exists_ os p w =
      (Ok (match st with Ok _ => true | Err _ => false end),
       snd (fsp_lstat os p w), [EvLstat p st]) /\
    isSymlink os p w =
      (Ok (match st with Ok t => isSymbolicLink t | Err _ => false end),
       snd (fsp_lstat os p w), [EvLstat p st]) /\
    (result_of (isSymlink os p w) = Ok true -> result_of (exists_ os p w) = Ok true).
Proof.
  unfold exists_, isSymlink, lstat. unfold_run.
  destruct (fsp_lstat os p w) as [[t|c] w1]; simpl; eexists;
    (split; [reflexivity|]); (split; [reflexivity|]); (split; [reflexivity|]);
    [done|discriminate].
Qed.

End Inspection.

(** ** The two scripts side by side *)

Section SideBySide.

Variable proc : process.
Variable npm : node -> option N * node.

Local Abbreviation phys := (memfs.phys (cwd proc)).
Local Abbreviation os := (memfs.os (cwd proc) npm).

Hypothesis not_windows : isWin proc = false.
Hypothesis rooted : path.isAbsolute (storeDir proc) = true.

Lemma agree_prefix (t t' : list event) (x y : result error unit * node * list event) :
  Forall plumbing t -> Forall plumbing t' -> agree x y ->
  agree (result_of x, world_of x, t ++ trace_of x)
        (result_of y, world_of y, t' ++ trace_of y).
Proof.
  intros Ht Ht' (Hw & Hr & Hi). unfold agree, result_of, world_of, trace_of in *.
  simpl. repeat split; try tauto.
  by rewrite !installs_app, (plumbing_installs _ Ht), (plumbing_installs _ Ht').
Qed.

Lemma agree_failed (e e' : error) (w : node) (t t' : list event) :
  Forall plumbing t -> Forall plumbing t' ->
  agree (Err e : result error unit, w, t) (Err e', w, t').
Proof.
  intros Ht Ht'. unfold agree, result_of, world_of, trace_of. simpl.
  repeat split; try discriminate.
  by rewrite (plumbing_installs _ Ht), (plumbing_installs _ Ht').
Qed.

Lemma agree_refl (x : result error unit * node * list event) : agree x x.
Proof. by unfold agree. Qed.

Lemma bind_ret_l {A B} (a : A) (f : A -> M node B) w : bind (ret a) f w = f a w.
Proof. unfold bind, ret. by destruct (f a w) as [[r w'] t]. Qed.

Lemma bind_log {B} msg (f : unit -> M node B) w :
  bind (console_log msg) f w =
  (result_of (f tt w), world_of (f tt w), [EvLog msg] ++ trace_of (f tt w)).
Proof. by apply bind_ok. Qed.

Lemma fresh_agree w :
  agree (fresh_link os proc w) (legacy.fresh_link os proc w).
Proof.
  unfold fresh_link, legacy.fresh_link.
  pose proof (plumbing_relocate os proc w) as Prel.
  destruct (relocate os proc w) as [[[[]|e] w2] t2] eqn:Hrel; unfold trace_of in Prel;
    simpl in Prel.
  2:{ rewrite !(bind_err _ _ _ _ _ _ Hrel). by apply agree_failed. }
  rewrite !(bind_ok _ _ _ _ _ _ Hrel).
  apply agree_prefix; [done..|].
  unfold preflight_gate. rewrite not_windows.
  pose proof (plumbing_create_link os proc w2) as Pmk.
  destruct (create_link os proc w2) as [[[[]|e] w3] t3] eqn:Hmk;
    unfold trace_of in Pmk; simpl in Pmk.
  - assert (symlink os (target proc) (nmPath proc) (linkType_of_platform proc) w2
            = (Ok tt, w3, t3)) as Hs.
    { revert Hmk. unfold create_link, symlink. unfold_run. simpl.
      destruct (memfs.symlink _ _ _ _ _) as [[[]|c] w3']; simpl; [|discriminate].
      by rewrite app_nil_r || done. }
    rewrite (bind_ok _ _ _ _ _ _ Hs), bind_ret_l, (bind_ok _ _ _ _ _ _ Hmk).
    apply agree_prefix; [done..|].
    apply create_link_memfs in Hmk as [_ Hput].
    pose proof (put_get _ _ _ _ Hput) as Hslot.
    assert (verify_link os proc w3 =
              (Ok tt, w3,
               [EvLstat (nmPath proc) (Ok FtSymlink);
                EvReadlink (nmPath proc) (Ok (target proc));
                EvLog (linked_line_text proc)])) as Hv.
    { unfold verify_link.
      rewrite (bind_ok _ _ _ _ _ _
                 (verify_memfs_true proc npm _ _ Hslot (target_resolves proc rooted))).
      reflexivity. }
    rewrite (bind_ok _ _ _ _ _ _ Hv), bind_log.
    apply (agree_prefix _ [EvLog (linked_line_text proc)]);
      [by repeat constructor..|apply agree_refl].
  - assert (exists e', symlink os (target proc) (nmPath proc)
                         (linkType_of_platform proc) w2 = (Err e', w3, t3))
      as [e' Hs].
    { revert Hmk. unfold create_link, symlink. unfold_run. simpl.
      destruct (memfs.symlink _ _ _ _ _) as [[[]|c] w3']; simpl; [discriminate|].
      intros [= _ <- <-]. eauto. }
    rewrite (bind_err _ _ _ _ _ _ Hs), bind_ret_l, (bind_err _ _ _ _ _ _ Hmk).
    by apply agree_failed.
Qed.

(** X17. The two scripts side by side, on the in-memory file system, off
    Windows and with an absolute cache root. Whenever the earlier script
    does not find a link at the slot, the present script ends in the same
    tree, ends well exactly when the earlier one does, and starts the
    installer as often: what it adds, the read-back of the new link, always
    passes there and changes nothing. *)
Theorem fresh_run_agrees_with_legacy (root : node) :
  ~ In (already_linked_line proc) (trace_of (legacy.main os proc root)) ->
  agree (main os proc root) (legacy.main os proc root).
Proof.
  intros Hfresh.
  pose proof (plumbing_isSymlink os (nmPath proc)) as Pis.
  destruct (mkdir os (storeDir proc) root) as [[[[]|e1] w1] t1] eqn:H1.
  - destruct (mkdir_trace _ _ _ _ _ _ H1) as [r1 ->].
    specialize (Pis w1).
    destruct (isSymlink os (nmPath proc) w1) as [[r2 w2] t2] eqn:H2.
    destruct (isSymlink_run _ _ _ _ _ _ H2) as (b & st & -> & -> & Hb).
    destruct b.
    + exfalso. apply Hfresh.
      rewrite (legacy_main_linked _ _ _ _ _ _ _ H1 H2). unfold trace_of at 1. simpl.
      right; right. unfold legacy.already_linked.
      rewrite bind_log. by left.
    + rewrite (main_fresh _ _ _ _ _ _ _ H1 H2),
        (legacy_main_fresh _ _ _ _ _ _ _ H1 H2).
      rewrite !app_assoc.
      apply agree_prefix; [by repeat constructor..|apply fresh_agree].
  - destruct (mkdir_trace _ _ _ _ _ _ H1) as [r1 ->].
    unfold main, legacy.main. rewrite !(bind_err _ _ _ _ _ _ H1).
    apply agree_refl.
Qed.

End SideBySide.

(** ** A first run *)

Section FirstRun.

Context {W : Type}.
Variable os : OS W.
Variable proc : process.

(** X18. A first run, call by call, whatever the operating system: the
    cache root is made, nothing is found at the slot, the cache target is
    made, the slot is removed for good measure (however that ends), the
    preflight lets the run pass, the link is made and the script's check
    accepts it. Then the run has renamed nothing, it prints that it has
    linked, and lists the cache target: with no entry the installer is
    started and the run ends as the installer does; with an entry the run
    ends well; a listing that fails ends the run. *)
Theorem first_run_links w0 w1 t1 w2 t2 w3 t3 w4 r w5 w6 t6 w7 w8 t8 :
  mkdir os (storeDir proc) w0 = (Ok tt, w1, t1) ->
  isSymlink os (nmPath proc) w1 = (Ok false, w2, t2) ->
  exists_ os (nmPath proc) w2 = (Ok false, w3, t3) ->
  fsp_mkdir os (target proc) w3 = (Ok tt, w4) ->
  fsp_rm os (nmPath proc) w4 = (r, w5) ->
  preflight_gate os proc w5 = (Ok tt, w6, t6) ->
  fsp_symlink os (target proc) (nmPath proc) (linkType_of_platform proc) w6
  = (Ok tt, w7) ->
  verifyLinkPointsTo os proc (nmPath proc) (target proc) w7 = (Ok true, w8, t8) ->
  let steps :=
    t1 ++ t2 ++ t3 ++
    [EvMkdir (target proc) (Ok tt); EvRm (nmPath proc) r] ++ t6 ++
    [EvSymlink (target proc) (nmPath proc) (linkType_of_platform proc) (Ok tt)] ++
    t8 ++ [linked_line proc] in
  main os proc w0 =
    match fsp_readdir os (target proc) w8 with
    | (Ok [], w9) =>
        preceded_by (steps ++ [EvReaddir (target proc) (Ok [])])
          (runNpmInstall os w9)
    | (Ok names, w9) =>
        (Ok tt, w9,
         steps ++ [EvReaddir (target proc) (Ok names);
                   EvLog "Dependencies already cached — no install needed."])
    | (Err c, w9) =>
        (Err (FsError "scandir" c (target proc)), w9,
         steps ++ [EvReaddir (target proc) (Err c)])
    end.
Proof.
  intros H1 H2 H3 H4 H5 H6 H7 H8 steps.
  assert (relocate os proc w2 =
          (Ok tt, w5, t3 ++ [EvMkdir (target proc) (Ok tt); EvRm (nmPath proc) r]))
    as Hrel.
  { unfold relocate. rewrite (bind_ok _ _ _ _ _ _ H3). simpl.
    unfold mkdir, rm. unfold_run. simpl. rewrite H4. simpl. rewrite H5.
    by destruct r as [[]|c]. }
  assert (create_link os proc w6 =
          (Ok tt, w7,
           [EvSymlink (target proc) (nmPath proc) (linkType_of_platform proc) (Ok tt)]))
    as Hlink.
  { unfold create_link, symlink. unfold_run. by rewrite H7. }
  rewrite (main_fresh _ _ _ _ _ _ _ H1 H2). unfold fresh_link.
  rewrite (bind_ok _ _ _ _ _ _ Hrel), (bind_ok _ _ _ _ _ _ H6),
    (bind_ok _ _ _ _ _ _ Hlink).
  unfold verify_link. rewrite bind_assoc, (bind_ok _ _ _ _ _ _ H8). simpl.
  unfold install_if_empty, readdir, preceded_by, steps, linked_line.
  unfold_run. simpl.
  destruct (fsp_readdir os (target proc) w8) as [[[|n ns]|c] w9]; simpl.
  - destruct (runNpmInstall os w9) as [[r9 w10] t10]; simpl.
    f_equal. repeat (rewrite <- app_assoc; simpl). reflexivity.
  - f_equal. repeat (rewrite <- app_assoc; simpl). reflexivity.
  - f_equal. repeat (rewrite <- app_assoc; simpl). reflexivity.
Qed.

End FirstRun.

(** ** Joining and normalising *)

Section JoinMore.

Implicit Types (s a h d p : string) (xs st hs : list string).

Lemma step_no_slash b st x :
  has_slash x = false ->
  Forall (fun y => has_slash y = false) st ->
  Forall (fun y => has_slash y = false) (path.step b st x).
Proof.
  intros Hx Hst. unfold path.step.
  destruct (String.eqb x "" || String.eqb x "."); [done|].
  destruct (String.eqb x "..").
  - destruct st as [|top rest]; [destruct b; by repeat constructor|].
    inversion Hst; subst. destruct (String.eqb top ".."); [|done].
    destruct b; [|done]. by repeat constructor.
  - by constructor.
Qed.

Lemma fold_no_slash b xs st :
  Forall (fun y => has_slash y = false) xs ->
  Forall (fun y => has_slash y = false) st ->
  Forall (fun y => has_slash y = false) (fold_left (path.step b) xs st).
Proof.
  revert st. induction xs as [|x xs IH]; intros st Hxs Hst; simpl; [done|].
  inversion Hxs; subst. apply IH; [done|]. by apply step_no_slash.
Qed.

Lemma step_skip_empty b st : path.step b st "" = st.
Proof. reflexivity. Qed.

Lemma step_skip_dot b st : path.step b st "." = st.
Proof. reflexivity. Qed.

(** Kept segments glued together give the empty text only when there are
    none. *)
Lemma intercalate_empty xs :
  Forall (fun y => keptb y = true) xs -> path.intercalate xs = "" -> xs = [].
Proof.
  intros Hxs E. destruct xs as [|x xs]; [done|].
  inversion Hxs as [|? ? Hx _]; subst.
  destruct x as [|c r]; [done|].
  destruct xs as [|y ys]; [discriminate E|].
  change (String c (r +:+ "/" +:+ path.intercalate (y :: ys)) = "") in E.
  discriminate E.
Qed.

Lemma normSegs_kept b xs : Forall (fun y => keptb y = true) (path.normSegs b xs).
Proof. unfold path.normSegs. apply Forall_rev, fold_kept. constructor. Qed.

Lemma normSegs_no_slash b p :
  Forall (fun y => has_slash y = false) (path.normSegs b (path.split p)).
Proof.
  unfold path.normSegs. apply Forall_rev, fold_no_slash; [apply split_elems|constructor].
Qed.

Lemma split_trailing s : path.split (s +:+ "/") = path.split s ++ [""].
Proof.
  change (s +:+ "/") with (s +:+ String "/" ""). by rewrite split_app_slash.
Qed.

Lemma fold_trailing b xs st :
  fold_left (path.step b) (xs ++ [""]) st = fold_left (path.step b) xs st.
Proof. by rewrite fold_step_snoc. Qed.

(** Normalising a path first changes nothing for its resolution. *)
Lemma resolve_segs_normalize cwd p :
  path.resolve_segs cwd [path.normalize p] = path.resolve_segs cwd [p].
Proof.
  unfold path.normalize.
  destruct (String.eqb_spec p "") as [->|Hne].
  { by rewrite !resolve_segs_relative. }
  unfold path.normalizeString.
  pose proof (normSegs_kept (negb (path.isAbsolute p)) (path.split p)) as Hk.
  pose proof (normSegs_no_slash (negb (path.isAbsolute p)) p) as Hs.
  set (N := path.normSegs (negb (path.isAbsolute p)) (path.split p)) in *.
  destruct (path.isAbsolute p) eqn:Habs; simpl in N.
  - (* an absolute path *)
    assert (path.resolve_segs cwd [p] = N) as ->
      by (by rewrite resolve_segs_absolute).
    assert (Forall (fun y => plainb y = true) N) as Hplain.
    { subst N. unfold path.normSegs.
      apply Forall_rev, fold_plain_stack; [apply split_elems|constructor]. }
    destruct (String.eqb_spec (path.intercalate N) "") as [E|E].
    + apply (intercalate_empty _ Hk) in E. by rewrite E.
    + assert (N <> []) as HN by (intros H0; by rewrite H0 in E).
      destruct (path.endsWithSlash p).
      * rewrite resolve_segs_absolute by done.
        change ("/" +:+ path.intercalate N +:+ "/")
          with ("" +:+ String "/" (path.intercalate N +:+ "/")).
        rewrite split_app_slash, split_trailing, split_intercalate by done.
        simpl. rewrite fold_trailing, fold_plain by done.
        by rewrite app_nil_r, rev_involutive.
      * by apply resolve_segs_of_plain.
  - (* a relative path *)
    rewrite (resolve_segs_relative cwd p) by done.
    set (b := negb (path.isAbsolute cwd)).
    set (S0 := fold_left (path.step b) (path.split cwd) []).
    assert (fold_left (path.step b) N S0 = fold_left (path.step b) (path.split p) S0)
      as Hfold by (subst N; unfold path.normSegs; apply fold_normalised).
    destruct (String.eqb_spec (path.intercalate N) "") as [E|E].
    + apply (intercalate_empty _ Hk) in E. rewrite E in Hfold. simpl in Hfold.
      rewrite <- Hfold.
      destruct (path.endsWithSlash p); by rewrite resolve_segs_relative.
    + assert (N <> []) as HN by (intros H0; by rewrite H0 in E).
      assert (path.isAbsolute (path.intercalate N) = false) as Hrel.
      { destruct N as [|x xs]; [done|].
        inversion Hk as [|? ? Hx _]; inversion Hs as [|? ? Hx' _]; subst.
        apply intercalate_relative; [|done]. by destruct x. }
      destruct (path.endsWithSlash p).
      * rewrite resolve_segs_relative
          by (by rewrite isAbsolute_app).
        fold b. fold S0.
        by rewrite split_trailing, split_intercalate, fold_trailing, Hfold.
      * rewrite resolve_segs_relative by done. fold b. fold S0.
        by rewrite split_intercalate, Hfold.
Qed.

(** One more plain name at the end of a path. *)
Lemma resolve_segs_snoc cwd p h :
  p <> "" -> plainb h = true ->
  path.resolve_segs cwd [p +:+ "/" +:+ h] = path.resolve_segs cwd [p] ++ [h].
Proof.
  intros Hp Hh.
  assert (path.split (p +:+ "/" +:+ h) = path.split p ++ [h]) as Hsplit.
  { change (p +:+ "/" +:+ h) with (p +:+ String "/" h).
    by rewrite split_app_slash, (split_no_slash _ (plainb_no_slash _ Hh)). }
  destruct (path.isAbsolute p) eqn:Habs.
  - rewrite !resolve_segs_absolute by (done || by rewrite isAbsolute_app).
    by rewrite Hsplit, fold_step_snoc, step_plain.
  - rewrite !resolve_segs_relative by (done || by rewrite isAbsolute_app).
    by rewrite Hsplit, fold_step_snoc, step_plain.
Qed.

Lemma resolve_segs_name cwd h :
  plainb h = true -> path.resolve_segs cwd [h] = path.resolve_segs cwd [""] ++ [h].
Proof.
  intros Hh. pose proof (plainb_no_slash _ Hh) as Hs.
  rewrite !resolve_segs_relative by (done || by apply isAbsolute_no_slash).
  rewrite (split_no_slash _ Hs). simpl. by rewrite step_plain.
Qed.

(** The text that [join] glues together from a non-empty start and plain
    names. *)
Lemma join_args_plain hs j :
  Forall (fun y => plainb y = true) hs ->
  path.join_args hs (Some j) =
  Some (fold_left (fun acc h => acc +:+ "/" +:+ h) hs j).
Proof.
  revert j. induction hs as [|h hs IH]; intros j Hhs; simpl; [done|].
  inversion Hhs as [|? ? Hh Hrest]; subst.
  destruct (String.eqb_spec h "") as [->|_]; [done|]. by apply IH.
Qed.

Lemma resolve_segs_glued cwd hs j :
  j <> "" -> Forall (fun y => plainb y = true) hs ->
  path.resolve_segs cwd [fold_left (fun acc h => acc +:+ "/" +:+ h) hs j]
  = path.resolve_segs cwd [j] ++ hs.
Proof.
  revert j. induction hs as [|h hs IH]; intros j Hj Hhs; simpl.
  - by rewrite app_nil_r.
  - inversion Hhs as [|? ? Hh Hrest]; subst.
    rewrite IH by (done || by destruct j).
    rewrite resolve_segs_snoc by done. by rewrite <- app_assoc.
Qed.

(** The segments of [path.join(d, h1, ..., hn)] for plain names: those of
    [d], then the names. *)
Lemma resolve_segs_join_all cwd d hs :
  Forall (fun y => plainb y = true) hs ->
  path.resolve_segs cwd [path.join (d :: hs)] = path.resolve_segs cwd [d] ++ hs.
Proof.
  intros Hhs. unfold path.join. simpl.
  destruct (String.eqb_spec d "") as [->|Hd].
  - destruct hs as [|h hs]; simpl.
    + by rewrite app_nil_r, !resolve_segs_relative.
    + inversion Hhs as [|? ? Hh Hrest]; subst.
      destruct (String.eqb_spec h "") as [->|Hne]; [done|].
      rewrite join_args_plain by done.
      rewrite resolve_segs_normalize, resolve_segs_glued by done.
      by rewrite resolve_segs_name, <- app_assoc.
  - rewrite join_args_plain by done.
    by rewrite resolve_segs_normalize, resolve_segs_glued.
Qed.

End JoinMore.

Section DefaultRoot.

Variable proc : process.

Local Abbreviation phys := (memfs.phys (cwd proc)).

(** X19. Where the default cache root is, segment by segment. On Windows
    it is [Temp/node_modules_cache] below [LOCALAPPDATA], or below
    [AppData/Local] of the home directory when that variable is not set;
    a variable that is set but empty is taken as it is, which puts the
    cache root below the working directory. On macOS it is
    [Library/Caches/node_modules_store] below the home directory, and
    elsewhere [.cache/node_modules_store] below it. *)
Theorem default_cache_root :
  phys (defaultStoreDir proc) =
    (if isWin proc then
       match env_LOCALAPPDATA proc with
       | Some base => phys base
       | None => phys (homedir proc) ++ ["AppData"; "Local"]
       end ++ ["Temp"; "node_modules_cache"]
     else if String.eqb (platform proc) "darwin" then
       phys (homedir proc) ++ ["Library"; "Caches"; "node_modules_store"]
     else
       phys (homedir proc) ++ [".cache"; "node_modules_store"]) /\
  (path.isAbsolute (cwd proc) = true -> phys "" = phys (cwd proc)).
Proof.
  split.
  - unfold defaultStoreDir, memfs.phys.
    destruct (isWin proc).
    + rewrite resolve_segs_join_all by (by repeat constructor).
      destruct (env_LOCALAPPDATA proc); [done|].
      by rewrite resolve_segs_join_all by (by repeat constructor).
    + destruct (String.eqb (platform proc) "darwin");
        by rewrite resolve_segs_join_all by (by repeat constructor).
  - intros Hc. unfold memfs.phys, path.resolve_segs, path.resolve_raw. simpl.
    by rewrite (absolute_nonempty _ Hc), Hc.
Qed.

End DefaultRoot.

(** ** The properties at work *)

Lemma verifyLinkPointsTo_answer_witness :
  let run := verifyLinkPointsTo linux_os linux_app (nmPath linux_app)
               (target linux_app) stale_root in
  fsp_lstat linux_os (nmPath linux_app) stale_root = (Ok FtSymlink, stale_root) /\
  fsp_readlink linux_os (nmPath linux_app) stale_root = (Ok "/elsewhere", stale_root) /\
  result_of run = Ok false /\
  world_of run = stale_root /\
  trace_of run =
    [EvLstat (nmPath linux_app) (Ok FtSymlink);
     EvReadlink (nmPath linux_app) (Ok "/elsewhere")].
Proof.
  intros run.
  split; [vm_compute; reflexivity|]. split; [vm_compute; reflexivity|].
  destruct (verifyLinkPointsTo_answer linux_os linux_app (nmPath linux_app)
              (target linux_app) stale_root) as (b & Hb & Hlink & _).
  destruct (Hlink ltac:(vm_compute; reflexivity)) as (Htr & Hw & Hiff).
  split; [vm_compute; reflexivity|].
  split; [exact Hw|exact Htr].
Defined.

Lemma nothing_before_read_back_witness :
  let run := main linux_os_installing linux_app bare_root in
  result_of run = Ok tt /\ link_read_back linux_app (trace_of run).
Proof.
  intros run.
  assert (result_of run = Ok tt) as Hr by (vm_compute; reflexivity).
  split; [exact Hr|].
  exact (nothing_before_read_back linux_os_installing linux_app bare_root
           (or_introl Hr)).
Defined.

Lemma link_creation_failure_witness :
  let os := without_links linux_os in
  let run := main os linux_app bare_root in
  result_of run
  = Err (LinkCreationFailed (FsError "symlink" EPERM (target linux_app))) /\
  installs (trace_of run) = 0.
Proof.
  intros os run.
  set (s1 := mkdir os (storeDir linux_app) bare_root).
  set (s2 := isSymlink os (nmPath linux_app) (world_of s1)).
  set (s3 := relocate os linux_app (world_of s2)).
  set (s4 := preflight_gate os linux_app (world_of s3)).
  destruct (link_creation_failure os linux_app bare_root
              (world_of s1) (trace_of s1) (world_of s2) (trace_of s2)
              (world_of s3) (trace_of s3) (world_of s4) (trace_of s4)
              (world_of s4) EPERM)
    as (Hrun & Hinst & _).
  - vm_compute. reflexivity.
  - vm_compute. reflexivity.
  - vm_compute. reflexivity.
  - vm_compute. reflexivity.
  - vm_compute. reflexivity.
  - split; [subst run; by rewrite Hrun|exact Hinst].
Defined.

Lemma legacy_installs_twice_witness :
  let run := legacy.main linux_os_failing linux_app emptied_root in
  In (EvReaddir (target linux_app) (Ok [])) (trace_of run) /\
  In (EvSpawn (Some 2%N)) (trace_of run) /\
  installs (trace_of run) = 2.
Proof.
  intros run.
  assert (In (EvReaddir (target linux_app) (Ok [])) (trace_of run)) as Hls
    by in_trace.
  assert (In (EvSpawn (Some 2%N)) (trace_of run)) as Hsp by in_trace.
  split; [exact Hls|]. split; [exact Hsp|].
  destruct (legacy_installs_twice linux_os_failing linux_app emptied_root)
    as (_ & _ & Htwice).
  apply (Htwice (Some 2%N) ltac:(in_trace) Hls Hsp). discriminate.
Defined.

Lemma legacy_unreadable_cache_witness :
  let run := legacy.main linux_os linux_app purged_root in
  In (EvReaddir (target linux_app) (Err ENOENT)) (trace_of run) /\
  installs (trace_of run) = 1 /\
  exists code,
    In (EvSpawn code) (trace_of run) /\ result_of run = installer_verdict code.
Proof.
  intros run.
  assert (In (EvReaddir (target linux_app) (Err ENOENT)) (trace_of run)) as Hin
    by in_trace.
  split; [exact Hin|].
  destruct (legacy_unreadable_cache linux_os linux_app purged_root) as [Hmissing _].
  exact (Hmissing ltac:(in_trace) ENOENT Hin).
Defined.

Lemma new_link_verifies_witness :
  path.isAbsolute (storeDir linux_app) = true /\
  raises not_verification_failure (main linux_os linux_app).
Proof.
  assert (path.isAbsolute (storeDir linux_app) = true) as Habs
    by (vm_compute; reflexivity).
  split; [exact Habs|].
  exact (new_link_verifies linux_app (npm_idle (Some 0%N)) Habs).
Defined.

Lemma valid_link_left_alone_witness :
  let os := linux_os_installing in
  let once := world_of (main os linux_app bare_root) in
  let again := main os linux_app once in
  memfs.get slot_path once = Some (Link (target linux_app)) /\
  again =
    (Ok tt, once,
     [EvMkdir (storeDir linux_app) (Ok tt);
      EvLstat (nmPath linux_app) (Ok FtSymlink);
      EvLstat (nmPath linux_app) (Ok FtSymlink);
      EvReadlink (nmPath linux_app) (Ok (target linux_app));
      EvLog (already_linked_text linux_app);
      EvLstat (target linux_app) (Ok FtDir);
      EvReaddir (target linux_app) (Ok ["left-pad"])]) /\
  world_of again = snd (fsp_mkdir os (storeDir linux_app) once).
Proof.
  intros os once again.
  split; [vm_compute; reflexivity|].
  set (s1 := mkdir os (storeDir linux_app) once).
  set (s2 := isSymlink os (nmPath linux_app) (world_of s1)).
  set (s3 := verifyLinkPointsTo os linux_app (nmPath linux_app) (target linux_app)
               (world_of s2)).
  destruct (valid_link_left_alone os linux_app once
              (world_of s1) (trace_of s1) (world_of s2) (trace_of s2)
              (world_of s3) (trace_of s3))
    as (Hrun & _ & Hworld).
  - vm_compute. reflexivity.
  - vm_compute. reflexivity.
  - vm_compute. reflexivity.
  - split.
    + subst again. rewrite Hrun. vm_compute. reflexivity.
    + apply Hworld.
      * intros p w. exact (memfs_lstat_world linux_app p w).
      * intros p w. exact (memfs_readlink_world linux_app p w).
      * intros p w. simpl. unfold memfs.readdir.
        by destruct (memfs.get _ w) as [[]|].
      * vm_compute. reflexivity.
Defined.


Lemma fresh_run_agrees_with_legacy_witness :
  agree (main linux_os linux_app real_root) (legacy.main linux_os linux_app real_root) /\
  result_of (legacy.main linux_os linux_app real_root) = Ok tt.
Proof.
  split; [|vm_compute; reflexivity].
  assert (isWin linux_app = false) as Hwin by (vm_compute; reflexivity).
  assert (path.isAbsolute (storeDir linux_app) = true) as Habs
    by (vm_compute; reflexivity).
  assert (~ In (already_linked_line linux_app)
            (trace_of (legacy.main linux_os linux_app real_root))) as Hfresh.
  { apply Forall_not_In. vm_compute.
    repeat constructor; intros E; discriminate E. }
  exact (fresh_run_agrees_with_legacy linux_app (npm_idle (Some 0%N)) Hwin Habs
           real_root Hfresh).
Defined.

Lemma first_run_links_witness :
  let os := linux_os_installing in
  let run := main os linux_app bare_root in
  run =
    (Ok tt, world_of run,
     [EvMkdir (storeDir linux_app) (Ok tt);
      EvLstat (nmPath linux_app) (Err ENOENT);
      EvLstat (nmPath linux_app) (Err ENOENT);
      EvMkdir (target linux_app) (Ok tt);
      EvRm (nmPath linux_app) (Ok tt);
      EvSymlink (target linux_app) (nmPath linux_app) DirLink (Ok tt);
      EvLstat (nmPath linux_app) (Ok FtSymlink);
      EvReadlink (nmPath linux_app) (Ok (target linux_app));
      linked_line linux_app;
      EvReaddir (target linux_app) (Ok []);
      EvLog "Installing dependencies...";
      EvSpawn (Some 0%N)]).
Proof.
  intros os run.
  set (s1 := mkdir os (storeDir linux_app) bare_root).
  set (s2 := isSymlink os (nmPath linux_app) (world_of s1)).
  set (s3 := exists_ os (nmPath linux_app) (world_of s2)).
  set (s4 := fsp_mkdir os (target linux_app) (world_of s3)).
  set (s5 := fsp_rm os (nmPath linux_app) (snd s4)).
  set (s6 := preflight_gate os linux_app (snd s5)).
  set (s7 := fsp_symlink os (target linux_app) (nmPath linux_app)
               (linkType_of_platform linux_app) (world_of s6)).
  set (s8 := verifyLinkPointsTo os linux_app (nmPath linux_app) (target linux_app)
               (snd s7)).
  pose proof (first_run_links os linux_app bare_root
                (world_of s1) (trace_of s1) (world_of s2) (trace_of s2)
                (world_of s3) (trace_of s3) (snd s4) (fst s5) (snd s5)
                (world_of s6) (trace_of s6) (snd s7)
                (world_of s8) (trace_of s8)
                ltac:(vm_compute; reflexivity) ltac:(vm_compute; reflexivity)
                ltac:(vm_compute; reflexivity) ltac:(vm_compute; reflexivity)
                ltac:(vm_compute; reflexivity) ltac:(vm_compute; reflexivity)
                ltac:(vm_compute; reflexivity) ltac:(vm_compute; reflexivity))
    as Hrun.
  subst run. rewrite Hrun. vm_compute. reflexivity.
Defined.

Lemma npm_setup_outcome_witness :
  result_of (npm_setup linux_os_installing linux_app bare_root) = 0%N /\
  installs (trace_of (npm_setup linux_os_installing linux_app bare_root)) = 2.
Proof.
  pose proof (npm_setup_outcome linux_os_installing linux_app bare_root) as H.
  assert (result_of (main linux_os_installing linux_app bare_root) = Ok tt) as Hr
    by (vm_compute; reflexivity).
  rewrite Hr in H. destruct H as (Hs & Hi & _).
  split; [vm_compute; reflexivity|].
  rewrite Hi.
  assert (installs (trace_of (main linux_os_installing linux_app bare_root)) = 1)
    as -> by (vm_compute; reflexivity).
  reflexivity.
Defined.

Lemma legacy_npm_setup_outcome_witness :
  result_of (legacy.npm_setup linux_os_flaky linux_app emptied_root) = 0%N /\
  installs (trace_of (legacy.npm_setup linux_os_flaky linux_app emptied_root)) = 3.
Proof.
  pose proof (legacy_npm_setup_outcome linux_os_flaky linux_app emptied_root) as H.
  assert (result_of (legacy.main linux_os_flaky linux_app emptied_root) = Ok tt)
    as Hr by (vm_compute; reflexivity).
  rewrite Hr in H. destruct H as (Hs & Hi & _).
  split; [vm_compute; reflexivity|].
  rewrite Hi.
  assert (installs (trace_of (legacy.main linux_os_flaky linux_app emptied_root)) = 2)
    as -> by (vm_compute; reflexivity).
  reflexivity.
Defined.
